(** * Telemetry ingestion and dashboard service ([server.js])

    A shallow embedding of the request handlers of [server.js] and the
    properties its specification states about them.

    Modelling conventions.
    - A JavaScript value is a [value]; numbers are the integers (what the
      handlers themselves compute with: epoch milliseconds and counters;
      fractions are not represented), [VInf] for [Infinity] and [-Infinity],
      which a JSON text such as [1e400] parses to, and [VNaN].  Every
      integer up to 2^53 in size is a JavaScript number and [x++] is exact
      below that bound; an integer further out stands for itself only where
      it is a JavaScript number.  A [string] is a text in UTF-8; iterating
      it yields its code points.  A request body is what [express.json()]
      hands over: a value parsed from JSON text.
    - Paths follow the POSIX flavour of [path]: an absolute normalised path
      is its list of segments.  The file system is a finite map from such
      paths to nodes; a JSON file is stored as the document it holds, that is
      as the value [JSON.parse] gives back for the text [JSON.stringify]
      wrote.  Resource limits (name length, disk space, permissions) are not
      modelled.
    - [Date.now()] reads a clock that advances by the next element of
      [ticks] at every reading.
    - Handlers run in a small state-and-exception monad [M]; the [try/catch]
      of every handler turns an exception into a 500 response, whose body
      (the message of the error) is abstracted to the kind of the error.
    - Where [Array.prototype.sort] is given a comparator that is not
      consistent (a difference that is [NaN]), the order of the result is
      the engine's: the result is then recorded as such ([EngineListed],
      [EngineRanked]) together with the elements it is made of, not guessed.
    - Where a text is converted to a number, a counter has left the range
      up to 2^53, or a record file holds something else than an object, the
      computation answers [Unmodelled] instead of guessing; a theorem about
      an answer is about a run that stayed inside the model, and the
      dashboard is shown to stay inside it in every state the handlers
      reach.
    - [console.error], [process.uptime()], the static routes, the Vercel
      entry point and the HTTP middleware (CORS, logging, rate limiting) are
      left out: no property below reads them. *)

From Stdlib Require Import ZArith Ascii String List DecimalString Decimal.
From stdpp Require Import base option list strings gmap sorting.

Set Warnings "-register-all".

Local Open Scope Z_scope.

(** ** JavaScript values *)

Inductive value : Type :=
| VUndef
| VNull
| VBool (b : bool)
| VNum (n : Z)
| VNaN
| VStr (s : string)
| VArr (elems : list value)
| VObj (fields : list (string * value))
| VInf (negative : bool).   (* [Infinity] and [-Infinity]: what [JSON.parse] makes of 1e400 *)

(** [ToBoolean]. *)
Definition truthy (v : value) : bool :=
  match v with
  | VUndef | VNull | VNaN => false
  | VBool b => b
  | VNum n => negb (n =? 0)
  | VStr s => negb (String.eqb s "")
  | VArr _ | VObj _ | VInf _ => true
  end.

(** [a || b]. *)
Definition or_else (a b : value) : value := if truthy a then a else b.

Fixpoint assoc {A} (k : string) (l : list (string * A)) : option A :=
  match l with
  | [] => None
  | (k', v) :: l' => if String.eqb k k' then Some v else assoc k l'
  end.

(** [o[k] = v] on an ordinary object: an existing property keeps its place, a
    new one goes last. *)
Fixpoint assoc_set {A} (k : string) (v : A) (l : list (string * A)) : list (string * A) :=
  match l with
  | [] => [(k, v)]
  | (k', v') :: l' =>
      if String.eqb k k' then (k, v) :: l' else (k', v') :: assoc_set k v l'
  end.

(** [v.k] for a property name [k] that no prototype defines, on a value that
    is neither [null] nor [undefined]: objects answer with their own
    property, everything else with [undefined]. *)
Definition prop (v : value) (k : string) : value :=
  match v with
  | VObj fields => default VUndef (assoc k fields)
  | _ => VUndef
  end.

Definition nullish (v : value) : bool :=
  match v with
  | VUndef | VNull => true
  | _ => false
  end.

(** Decimal text of an integer, as [Number.prototype.toString] prints it. *)
Definition dec (n : Z) : string := NilZero.string_of_int (Z.to_int n).

Definition has_key {A} (k : string) (l : list (string * A)) : bool :=
  match assoc k l with Some _ => true | None => false end.

(** [ToString]; [None] is the TypeError of an object that cannot be converted
    to a primitive (an own, hence non-callable, [toString] property). *)
Fixpoint to_string (v : value) : option string :=
  match v with
  | VUndef => Some "undefined"
  | VNull => Some "null"
  | VBool true => Some "true"
  | VBool false => Some "false"
  | VNum n => Some (dec n)
  | VNaN => Some "NaN"
  | VStr s => Some s
  | VArr elems =>
      (fix join (first : bool) (l : list value) : option string :=
         match l with
         | [] => Some ""
         | x :: l' =>
             match (if nullish x then Some "" else to_string x), join false l' with
             | Some sx, Some sl => Some ((if first then "" else ",") +:+ sx +:+ sl)
             | _, _ => None
             end
         end) true elems
  | VObj fields => if has_key "toString" fields then None else Some "[object Object]"
  | VInf false => Some "Infinity"
  | VInf true => Some "-Infinity"
  end.

(** The document [JSON.stringify] writes for a value inside an array or an
    object: [undefined] properties are dropped, [undefined] elements and the
    numbers that are not finite ([NaN], [Infinity], [-Infinity]) become
    [null]. *)
Fixpoint json (v : value) : value :=
  match v with
  | VUndef | VNaN | VInf _ => VNull
  | VArr elems => VArr (List.map json elems)
  | VObj fields =>
      VObj ((fix go (l : list (string * value)) : list (string * value) :=
               match l with
               | [] => []
               | (k, VUndef) :: l' => go l'
               | (k, x) :: l' => (k, json x) :: go l'
               end) fields)
  | _ => v
  end.

(** A value that [JSON.stringify] writes and [JSON.parse] reads back as it
    is. *)
Fixpoint is_json (v : value) : bool :=
  match v with
  | VUndef | VNaN | VInf _ => false
  | VArr elems => forallb is_json elems
  | VObj fields =>
      (fix go (l : list (string * value)) : bool :=
         match l with
         | [] => true
         | (_, x) :: l' => is_json x && go l'
         end) fields
  | _ => true
  end.

(** [Array.prototype.includes] compares with SameValueZero: primitives by
    value, and an array or object only with itself -- which a value parsed
    from a request body never is for an element parsed from a file. *)
Definition same_value_zero (a b : value) : bool :=
  match a, b with
  | VUndef, VUndef | VNull, VNull | VNaN, VNaN => true
  | VBool x, VBool y | VInf x, VInf y => Bool.eqb x y
  | VNum x, VNum y => x =? y
  | VStr x, VStr y => String.eqb x y
  | _, _ => false
  end.

Definition includes (l : list value) (x : value) : bool :=
  existsb (same_value_zero x) l.

(** [v === s] for a string literal [s]. *)
Definition is_string (s : string) (v : value) : bool :=
  match v with
  | VStr x => String.eqb x s
  | _ => false
  end.

(** How often the string [d] occurs in a list of values. *)
Definition occurrences_of (d : string) (l : list value) : nat :=
  length (List.filter (is_string d) l).

(** ** Dates *)

Definition ms_per_day : Z := 86400000.

(** Proleptic Gregorian (year, month, day) of a day number counted from
    1970-01-01. *)
Definition civil_from_days (days : Z) : Z * Z * Z :=
  let z := days + 719468 in
  let era := z / 146097 in
  let doe := z - era * 146097 in
  let yoe := (doe - doe / 1460 + doe / 36524 - doe / 146096) / 365 in
  let doy := doe - (365 * yoe + yoe / 4 - yoe / 100) in
  let mp := (5 * doy + 2) / 153 in
  let d := doy - (153 * mp + 2) / 5 + 1 in
  let m := if mp <? 10 then mp + 3 else mp - 9 in
  let y := yoe + era * 400 in
  (if m <=? 2 then y + 1 else y, m, d).

Fixpoint zeros (n : nat) : string :=
  match n with
  | O => ""
  | S n' => "0" +:+ zeros n'
  end.

(** Decimal text of a natural number, left-padded with zeros to [width]. *)
Definition pad (width : nat) (n : Z) : string :=
  let s := dec n in
  zeros (width - String.length s) +:+ s.

Definition iso_year (y : Z) : string :=
  if (0 <=? y) && (y <=? 9999) then pad 4 y
  else if y <? 0 then "-" +:+ pad 6 (- y)
  else "+" +:+ pad 6 y.

(** [new Date(t).toISOString().split('T')[0]]. *)
Definition iso_date (t : Z) : string :=
  let '(y, m, d) := civil_from_days (t / ms_per_day) in
  iso_year y +:+ "-" +:+ pad 2 m +:+ "-" +:+ pad 2 d.

(** [new Date(t).toISOString()]. *)
Definition iso_datetime (t : Z) : string :=
  let r := t mod ms_per_day in
  iso_date t +:+ "T" +:+ pad 2 (r / 3600000) +:+ ":" +:+ pad 2 (r / 60000 mod 60)
    +:+ ":" +:+ pad 2 (r / 1000 mod 60) +:+ "." +:+ pad 3 (r mod 1000) +:+ "Z".

(** ** Paths ([path.join], POSIX flavour) *)

(** An absolute normalised path: its segments from the root, and whether the
    text ends in a separator (which makes the file system insist on a
    directory). *)
Record jpath : Type := { segs : list string; trailing : bool }.

Definition dir_path (p : list string) : jpath := {| segs := p; trailing := false |}.

(** [s.split('/')], with [cur] the segment read so far. *)
Fixpoint split_slash (cur s : string) : list string :=
  match s with
  | EmptyString => [cur]
  | String c s' =>
      if Ascii.eqb c "/"%char then cur :: split_slash "" s'
      else split_slash (cur +:+ String c "") s'
  end.

Fixpoint ends_with_slash (s : string) : bool :=
  match s with
  | EmptyString => false
  | String c EmptyString => Ascii.eqb c "/"%char
  | String _ s' => ends_with_slash s'
  end.

(** One step of normalisation below the root: empty and [.] segments vanish,
    [..] climbs (and stays at the root when it is there). *)
Definition walk (p : list string) (seg : string) : list string :=
  if String.eqb seg "" || String.eqb seg "." then p
  else if String.eqb seg ".." then removelast p
  else p ++ [seg].

Definition nonempty (s : string) : bool := negb (String.eqb s "").

(** [path.join(base, ...parts)] for an absolute normalised [base]: the
    zero-length parts are skipped, the rest is joined by separators and
    normalised. *)
Definition path_join (base : jpath) (parts : list string) : jpath :=
  let parts' := List.filter nonempty parts in
  match last parts' with
  | None => base
  | Some final =>
      {| segs := fold_left walk (List.concat (List.map (split_slash "") parts')) (segs base);
         trailing := ends_with_slash final |}
  end.

Fixpoint has_nul (s : string) : bool :=
  match s with
  | EmptyString => false
  | String c s' => Ascii.eqb c Ascii.zero || has_nul s'
  end.

(** The [fs] functions refuse a path with a NUL character in it. *)
Definition valid_path (p : jpath) : bool := forallb (λ s, negb (has_nul s)) (segs p).

(** ** File system *)

Inductive node : Type :=
| File (content : value)
| Dir.

Definition node_at (fs : gmap (list string) node) (p : list string) : option node :=
  match p with
  | [] => Some Dir
  | _ => fs !! p
  end.

Definition existsSync (fs : gmap (list string) node) (p : jpath) : bool :=
  valid_path p &&
  match node_at fs (segs p) with
  | Some Dir => true
  | Some (File _) => negb (trailing p)
  | None => false
  end.

(** [JSON.parse(fs.readFileSync(p, 'utf8'))]; [None] when the read throws. *)
Definition readFileSync (fs : gmap (list string) node) (p : jpath) : option value :=
  if valid_path p && negb (trailing p) then
    match node_at fs (segs p) with
    | Some (File c) => Some c
    | _ => None
    end
  else None.

(** [fs.writeFileSync(p, text)], the text holding the document [doc]: the
    parent must be a directory and the target must not be one. *)
Definition writeFileSync (fs : gmap (list string) node) (p : jpath) (doc : value)
  : option (gmap (list string) node) :=
  if valid_path p && negb (trailing p) then
    match segs p with
    | [] => None
    | _ =>
        match node_at fs (removelast (segs p)), node_at fs (segs p) with
        | Some Dir, None | Some Dir, Some (File _) => Some (<[segs p := File doc]> fs)
        | _, _ => None
        end
    end
  else None.

(** [mkdir -p]: [done] is the prefix already known to be a directory. *)
Fixpoint mkdirp (fs : gmap (list string) node) (done todo : list string)
  : option (gmap (list string) node) :=
  match todo with
  | [] => Some fs
  | seg :: rest =>
      let p := done ++ [seg] in
      match fs !! p with
      | Some Dir => mkdirp fs p rest
      | Some (File _) => None
      | None => mkdirp (<[p := Dir]> fs) p rest
      end
  end.

(** [fs.mkdirSync(p, { recursive: true })]. *)
Definition mkdirSync (fs : gmap (list string) node) (p : jpath)
  : option (gmap (list string) node) :=
  if valid_path p then mkdirp fs [] (segs p) else None.

Definition child_of (dir p : list string) : bool :=
  match p with
  | [] => false
  | _ => bool_decide (removelast p = dir)
  end.

(** [fs.readdirSync(p)]: the names in a directory (in no particular order). *)
Definition readdirSync (fs : gmap (list string) node) (p : jpath) : option (list string) :=
  if valid_path p then
    match node_at fs (segs p) with
    | Some Dir =>
        Some (omap (λ kv : list string * node,
                      if child_of (segs p) kv.1 then last kv.1 else None)
                   (map_to_list fs))
    | _ => None
    end
  else None.

(** [JSON.stringify(v, null, 2)] as the document written; [undefined] has no
    JSON text, and [writeFileSync] then throws on its argument. *)
Definition stringify (v : value) : option value :=
  match v with
  | VUndef => None
  | _ => Some (json v)
  end.

(** ** The in-memory aggregator ([analyticsStore]) *)

(** A JavaScript [Map] with string keys, in insertion order. *)
Module JsMap.
Definition t (A : Type) : Type := list (string * A).
Definition empty {A} : t A := [].
Definition has {A} (k : string) (m : t A) : bool := has_key k m.
Definition get {A} (k : string) (m : t A) : option A := assoc k m.
Definition set {A} (k : string) (v : A) (m : t A) : t A := assoc_set k v m.
Definition values {A} (m : t A) : list A := List.map snd m.
Definition size {A} (m : t A) : Z := Z.of_nat (length m).
End JsMap.

Record store : Type := {
  requests : JsMap.t (list value);   (* extensionId -> requests[] *)
  errors : JsMap.t (list value);     (* extensionId -> errors[] *)
  events : JsMap.t (list value);     (* extensionId -> events[] *)
  users : JsMap.t value              (* extensionId -> userInfo *)
}.

Definition empty_store : store :=
  {| requests := JsMap.empty; errors := JsMap.empty; events := JsMap.empty; users := JsMap.empty |}.

(** [if (!m.has(id)) m.set(id, []); m.get(id).push(...xs)]. *)
Definition ensure_key (id : string) (m : JsMap.t (list value)) : JsMap.t (list value) :=
  if JsMap.has id m then m else JsMap.set id [] m.

Definition push_at (id : string) (xs : list value) (m : JsMap.t (list value))
  : JsMap.t (list value) :=
  match JsMap.get id m with
  | Some arr => JsMap.set id (arr ++ xs) m
  | None => m
  end.

(** What the two statements together do to the mapping: the sequence of [id]
    grows by [xs] where it stands, and a client not seen before is added last
    with [xs] as its sequence. *)
Fixpoint append_at (id : string) (xs : list value) (m : JsMap.t (list value))
  : JsMap.t (list value) :=
  match m with
  | [] => [(id, xs)]
  | (k, v) :: m' =>
      if String.eqb id k then (k, v ++ xs) :: m' else (k, v) :: append_at id xs m'
  end.

(** The sum of the lengths of the per-client sequences of a mapping. *)
Fixpoint held (m : JsMap.t (list value)) : Z :=
  match m with
  | [] => 0
  | (_, arr) :: m' => Z.of_nat (length arr) + held m'
  end.

(** ** The world and the handler monad *)

Record world : Type := {
  fs : gmap (list string) node;
  analyticsStore : store;
  clock : Z;
  ticks : list Z
}.

Inductive exn : Type := TypeError | FsError.

Inductive outcome (A : Type) : Type :=
| Ret (a : A) (w : world)
| Raise (e : exn) (w : world)
| Unmodelled.
Arguments Ret {A} a w.
Arguments Raise {A} e w.
Arguments Unmodelled {A}.

Definition M (A : Type) : Type := world → outcome A.

Definition ret {A} (a : A) : M A := λ w, Ret a w.
Definition raise {A} (e : exn) : M A := λ w, Raise e w.
Definition unmodelled {A} : M A := λ _, Unmodelled.
Definition bind {A B} (m : M A) (k : A → M B) : M B :=
  λ w, match m w with
       | Ret a w' => k a w'
       | Raise e w' => Raise e w'
       | Unmodelled => Unmodelled
       end.

Notation "x <- m ;; k" := (bind m (λ x, k))
  (at level 100, m at next level, right associativity, only parsing).
Notation "m ;;; k" := (bind m (λ _, k))
  (at level 100, right associativity, only parsing).

Definition with_fs (f : gmap (list string) node) (w : world) : world :=
  {| fs := f; analyticsStore := analyticsStore w; clock := clock w; ticks := ticks w |}.
Definition with_store (s : store) (w : world) : world :=
  {| fs := fs w; analyticsStore := s; clock := clock w; ticks := ticks w |}.

(** [Date.now()] (and [new Date()]). *)
Definition now : M Z :=
  λ w, let t := clock w + hd 0 (ticks w) in
       Ret t {| fs := fs w; analyticsStore := analyticsStore w; clock := t; ticks := tl (ticks w) |}.

Definition get_store : M store := λ w, Ret (analyticsStore w) w.
Definition put_store (s : store) : M unit := λ w, Ret tt (with_store s w).

(** [if (!fs.existsSync(dir)) fs.mkdirSync(dir, { recursive: true })]. *)
Definition ensure_dir (dir : jpath) : M unit :=
  λ w, if existsSync (fs w) dir then Ret tt w
       else match mkdirSync (fs w) dir with
            | Some f => Ret tt (with_fs f w)
            | None => Raise FsError w
            end.

(** [fs.existsSync(file) ? JSON.parse(fs.readFileSync(file, 'utf8')) : init]. *)
Definition load_or (file : jpath) (init : value) : M value :=
  λ w, if existsSync (fs w) file then
         match readFileSync (fs w) file with
         | Some doc => Ret doc w
         | None => Raise FsError w
         end
       else Ret init w.

(** [fs.writeFileSync(file, JSON.stringify(v, null, 2))]. *)
Definition write_json (file : jpath) (v : value) : M unit :=
  λ w, match stringify v with
       | None => Raise TypeError w
       | Some doc =>
           match writeFileSync (fs w) file doc with
           | Some f => Ret tt (with_fs f w)
           | None => Raise FsError w
           end
       end.

(** The argument check of [path.join]: every part must be a string. *)
Definition path_arg (v : value) : M string :=
  match v with
  | VStr s => ret s
  | _ => raise TypeError
  end.

(** Destructuring [const { ... } = req.body] throws on [null] and
    [undefined]. *)
Definition destructure (b : value) : M unit :=
  if nullish b then raise TypeError else ret tt.

(** ** Requests and responses *)

(** What a handler reads of an HTTP request: the parsed JSON body, [req.ip],
    [req.get('User-Agent')] and [req.headers['authorization']] (a string, or
    [undefined] when the header is absent). *)
Record request : Type := {
  body : value;
  ip : value;
  userAgent : value;
  authorization : value
}.

(** What a tally object holds under a name: a count, or -- under the name
    of an inherited method -- a text, which begins with the source text of
    that method as the engine prints it. *)
Inductive count : Type :=
| Count (n : Z)
| Garbled.

(** What [.sort((a, b) => b.count - a.count).slice(0, 10)] leaves of a tally:
    the ten best entries, or -- when a count is a text, which makes the
    comparison answer [NaN] -- up to ten of the entries [pool] in an order
    that is the engine's own. *)
Inductive ranking : Type :=
| Ranked (top : list (string * Z))
| EngineRanked (pool : list (string * count)).

(** What [.sort((a, b) => b.timestamp - a.timestamp).slice(0, n)] leaves of a
    list of events: the first [n] in descending order, or -- when the
    comparison is not consistent -- the first [n] of the events [pool] in an
    order that is the engine's own. *)
Inductive listing : Type :=
| Listed (l : list value)
| EngineListed (n : nat) (pool : list value).

(** The body of [GET /api/dashboard]'s answer ([uptime] left out). *)
Record dashboard : Type := {
  totalUsers : Z;
  activeUsers : Z;
  totalRequests : Z;
  totalErrors : Z;
  proxyUsage : ranking;
  topDomains : ranking;
  recentEvents : listing
}.

Inductive response : Type :=
| Json (status : Z) (payload : value)   (* res.status(status).json(payload) *)
| ServerError (e : exn)                 (* res.status(500).json({ error: error.message }) *)
| Summary (d : dashboard)               (* res.json({ summary, proxyUsage, ... }) *)
| Download (file : jpath).              (* res.download(file) *)

Definition status_of (r : response) : Z :=
  match r with
  | Json s _ => s
  | ServerError _ => 500
  | Summary _ | Download _ => 200
  end.

Definition id_required : response := Json 400 (VObj [("error", VStr "extensionId required")]).
Definition ack_received : response :=
  Json 200 (VObj [("success", VBool true); ("received", VBool true)]).
Definition ack : response := Json 200 (VObj [("success", VBool true)]).
Definition forbidden : response := Json 403 (VObj [("error", VStr "Unauthorized")]).

(** [try { ... } catch (error) { res.status(500).json(...) }]; [None] when the
    run left the modelled fragment. *)
Definition handle (m : M response) (w : world) : option (response * world) :=
  match m w with
  | Ret r w' => Some (r, w')
  | Raise e w' => Some (ServerError e, w')
  | Unmodelled => None
  end.

(** ** Coercions and small steps the handlers share *)

(** What [ToNumber] makes of a value: a number ([VNum], [VInf] or [VNaN]),
    a TypeError, or the number a text denotes, which is not computed here. *)
Inductive numeric : Type :=
| Number (v : value)
| Throws
| Unparsed.

(** [ToNumber].  An object is converted through [valueOf] and [toString]: a
    plain object reads as "[object Object]", which is not a number, unless an
    own (hence non-callable) [toString] property leaves it without a
    primitive value; an array is converted through its text. *)
Definition to_number (v : value) : numeric :=
  match v with
  | VUndef | VNaN => Number VNaN
  | VNull => Number (VNum 0)
  | VBool b => Number (VNum (if b then 1 else 0))
  | VNum n => Number (VNum n)
  | VInf negative => Number (VInf negative)
  | VStr _ => Unparsed
  | VArr _ => match to_string v with Some _ => Unparsed | None => Throws end
  | VObj fields => if has_key "toString" fields then Throws else Number VNaN
  end.

(** The largest integer up to which every integer is a JavaScript number:
    2^53. *)
Definition max_safe : Z := 9007199254740992.

(** The value [x++] stores.  Up to [max_safe] the sum is exact, and at
    [max_safe] itself it is rounded back to [max_safe]; integers further out
    are not all numbers and are left unmodelled. *)
Definition incremented (v : value) : M value :=
  match to_number v with
  | Number (VNum n) =>
      if (- max_safe <=? n) && (n <? max_safe) then ret (VNum (n + 1))
      else if n =? max_safe then ret (VNum n)
      else unmodelled
  | Number (VInf negative) => ret (VInf negative)
  | Number _ => ret VNaN
  | Throws => raise TypeError
  | Unparsed => unmodelled
  end.

(** [pat] occurs in [s] ([String.prototype.includes]). *)
Fixpoint contains (pat s : string) : bool :=
  String.prefix pat s ||
  match s with
  | EmptyString => false
  | String _ s' => contains pat s'
  end.

(** A byte that continues a character of UTF-8 text (10xxxxxx). *)
Definition continuation (c : ascii) : bool :=
  match c with
  | Ascii _ _ _ _ _ _ b6 b7 => b7 && negb b6
  end.

(** The characters of a text, [cur] being the character read so far: a
    leading byte with the continuation bytes that follow it. *)
Fixpoint code_points (cur s : string) : list string :=
  match s with
  | EmptyString => if String.eqb cur "" then [] else [cur]
  | String c s' =>
      if continuation c then code_points (cur +:+ String c "") s'
      else (if String.eqb cur "" then [] else [cur]) ++ code_points (String c "") s'
  end.

(** The elements a spread [...v] yields; only arrays and strings are
    iterable among the values of a JSON body, and a string yields its
    characters (code points). *)
Definition spread (v : value) : M (list value) :=
  match v with
  | VArr l => ret l
  | VStr s => ret (VStr <$> code_points "" s)
  | _ => raise TypeError
  end.

(** The names [Object.prototype] gives every object literal. *)
Definition prototype_methods : list string :=
  ["constructor"; "__defineGetter__"; "__defineSetter__"; "hasOwnProperty";
   "__lookupGetter__"; "__lookupSetter__"; "isPrototypeOf"; "propertyIsEnumerable";
   "toString"; "valueOf"; "toLocaleString"].

(** [k] is the name of a method every object inherits. *)
Definition inherited (k : string) : bool := existsb (String.eqb k) prototype_methods.

(** [o[key] = (o[key] || 0) + 1] on a tally object [o] that started as [{}].
    An own count is incremented and a fresh name starts at 1.  Under the name
    [__proto__] the read finds [Object.prototype] and the write goes to a
    setter that ignores the text it is given, so nothing is recorded.  Under
    an inherited method name the read finds a function, and the sum is the
    text of the function followed by "1": the name gets that text as an own
    property, and every later tally appends another "1" to it. *)
Definition tally (key : value) (o : list (string * count)) : M (list (string * count)) :=
  match to_string key with
  | None => raise TypeError
  | Some k =>
      match assoc k o with
      | Some (Count c) => ret (assoc_set k (Count (c + 1)) o)
      | Some Garbled => ret o
      | None =>
          if String.eqb k "__proto__" then ret o
          else if inherited k then ret (assoc_set k Garbled o)
          else ret (assoc_set k (Count 1) o)
      end
  end.

(** The integer [n] when [s] is the canonical text of an array index
    (0 .. 2^32 - 2). *)
Definition array_index (s : string) : option Z :=
  match NilZero.uint_of_string s with
  | Some u =>
      let n := Z.of_N (N.of_uint u) in
      if String.eqb (dec n) s && (n <=? 4294967294) then Some n else None
  | None => None
  end.

(** Stable insertion sort; [le a b] says that [a] may stay in front of [b]. *)
Fixpoint insert_sorted {A} (le : A → A → bool) (x : A) (l : list A) : list A :=
  match l with
  | [] => [x]
  | y :: l' => if le x y then x :: y :: l' else y :: insert_sorted le x l'
  end.

Definition stable_sort {A} (le : A → A → bool) (l : list A) : list A :=
  foldr (insert_sorted le) [] l.

(** [Object.entries(o)]: the array-index names first, in ascending numeric
    order, then the other names in the order they were created. *)
Definition entries {A} (o : list (string * A)) : list (string * A) :=
  let indexed := omap (λ kv : string * A, (λ n, (n, kv)) <$> array_index kv.1) o in
  List.map snd (stable_sort (λ a b : Z * (string * A), a.1 <=? b.1) indexed)
    ++ List.filter (λ kv : string * A,
                      match array_index kv.1 with Some _ => false | None => true end) o.

Definition counted_entry (kv : string * count) : option (string * Z) :=
  match kv.2 with
  | Count n => Some (kv.1, n)
  | Garbled => None
  end.

(** [Object.entries(o).map(...).sort((a, b) => b.count - a.count).slice(0, 10)]. *)
Definition top10 (o : list (string * count)) : ranking :=
  match mapM counted_entry (entries o) with
  | Some es => Ranked (take 10 (stable_sort (λ a b : string * Z, b.2 <=? a.2) es))
  | None => EngineRanked (entries o)
  end.


(** ** The handlers *)

Section Server.

(** [__dirname]: the absolute normalised path of the directory of
    [server.js]. *)
Variable dirname : list string.

Definition DATA_DIR : jpath := path_join (dir_path dirname) ["data"].
Definition LOGS_DIR : jpath := path_join DATA_DIR ["logs"].
Definition USERS_DIR : jpath := path_join DATA_DIR ["users"].
Definition STATS_DIR : jpath := path_join DATA_DIR ["stats"].

(** Start of the process: the data directories are created when missing and
    the aggregator starts empty.  [None] when a [mkdirSync] throws, which
    ends the process before it serves anything. *)
Definition boot (disk : gmap (list string) node) (t : Z) (ts : list Z) : option world :=
  let w0 := {| fs := disk; analyticsStore := empty_store; clock := t; ticks := ts |} in
  match (ensure_dir LOGS_DIR;;; ensure_dir USERS_DIR;;; ensure_dir STATS_DIR) w0 with
  | Ret _ w => Some w
  | _ => None
  end.

(** *** [POST /api/logs] *)

Definition push_event (id : string) (payload : value) : M unit :=
  s <- get_store;;
  put_store {| requests := requests s; errors := errors s;
               events := push_at id [payload] (ensure_key id (events s));
               users := users s |}.

Definition logs_body (req : request) : M response :=
  let b := body req in
  destructure b;;;
  let extensionId := prop b "extensionId" in
  let message := prop b "message" in
  let type := prop b "type" in
  let timestamp := prop b "timestamp" in
  let proxy := prop b "proxy" in
  if negb (truthy extensionId) then ret id_required
  else
    id <- path_arg extensionId;;
    let userDir := path_join LOGS_DIR [id] in
    ensure_dir userDir;;;
    today <- now;;
    let logFile := path_join userDir [iso_date today +:+ ".json"] in
    logs <- load_or logFile (VArr []);;
    (if nullish logs then raise TypeError else ret tt);;;
    ts <- (if truthy timestamp then ret timestamp else (t <- now;; ret (VNum t)));;
    let entry := VObj [("timestamp", ts); ("type", or_else type (VStr "info"));
                       ("message", message); ("proxy", proxy); ("ip", ip req)] in
    match logs with
    | VArr l =>
        write_json logFile (VArr (l ++ [entry]));;;
        push_event id b;;;
        ret ack_received
    | _ => raise TypeError
    end.

Definition post_logs (req : request) : world → option (response * world) :=
  handle (logs_body req).

(** The day-file of client [id] for a call whose date was read at [today]. *)
Definition day_file (id : string) (today : Z) : jpath :=
  path_join (path_join LOGS_DIR [id]) [iso_date today +:+ ".json"].

(** The entry [logs.push] receives, with [ts] the resolved timestamp. *)
Definition log_entry (req : request) (ts : value) : value :=
  VObj [("timestamp", ts); ("type", or_else (prop (body req) "type") (VStr "info"));
        ("message", prop (body req) "message"); ("proxy", prop (body req) "proxy");
        ("ip", ip req)].

(** *** [POST /api/stats] *)

Definition init_stats : value :=
  VObj [("totalRequests", VNum 0); ("domains", VArr []); ("proxyUsage", VArr []);
        ("traffic", VObj [("total", VNum 0); ("daily", VObj [])])].

Definition push_request (id : string) (payloads : list value) : M unit :=
  s <- get_store;;
  put_store {| requests := push_at id payloads (requests s); errors := errors s;
               events := events s; users := users s |}.

Definition ensure_requests (id : string) : M unit :=
  s <- get_store;;
  put_store {| requests := ensure_key id (requests s); errors := errors s;
               events := events s; users := users s |}.

Definition set_user (id : string) (userData : value) : M unit :=
  s <- get_store;;
  put_store {| requests := requests s; errors := errors s; events := events s;
               users := JsMap.set id userData (users s) |}.

(** [if (domain && !stats.domains.includes(domain)) stats.domains.push(domain)]. *)
Definition note_domain (domain : value) (stats : list (string * value))
  : M (list (string * value)) :=
  if truthy domain then
    match prop (VObj stats) "domains" with
    | VArr ds =>
        if includes ds domain then ret stats
        else ret (assoc_set "domains" (VArr (ds ++ [domain])) stats)
    | VStr s =>
        match to_string domain with
        | Some d => if contains d s then ret stats else raise TypeError
        | None => raise TypeError
        end
    | _ => raise TypeError
    end
  else ret stats.

(** The [domains] property the statement above leaves, given the one it
    found, whenever it does not throw. *)
Definition domains_after (domain before : value) : value :=
  if truthy domain then
    match before with
    | VArr ds => if includes ds domain then VArr ds else VArr (ds ++ [domain])
    | _ => before
    end
  else before.

(** [if (proxy) stats.proxyUsage.push({ proxy, timestamp: Date.now(), domain, type })]. *)
Definition note_proxy (proxy domain type : value) (stats : list (string * value))
  : M (list (string * value)) :=
  if truthy proxy then
    match prop (VObj stats) "proxyUsage" with
    | VArr ps =>
        t <- now;;
        ret (assoc_set "proxyUsage"
               (VArr (ps ++ [VObj [("proxy", proxy); ("timestamp", VNum t);
                                   ("domain", domain); ("type", type)]])) stats)
    | VUndef | VNull => raise TypeError
    | _ => now;;; raise TypeError
    end
  else ret stats.

(** [if (proxyConfig) { ... }]: the User Record is loaded, overwritten,
    written back and mirrored into [analyticsStore.users].  A record file
    holding something else than an object (or [null]) is left unmodelled. *)
Definition save_user (req : request) (id : string) (proxyConfig domains : value) : M unit :=
  if truthy proxyConfig then
    let userFile := path_join USERS_DIR [id +:+ ".json"] in
    userData <- load_or userFile (VObj []);;
    t <- now;;
    match userData with
    | VObj u =>
        let u1 := assoc_set "lastActive" (VNum t) u in
        let u2 := assoc_set "proxyConfig" proxyConfig u1 in
        let u3 := assoc_set "domains" (or_else domains (VArr [])) u2 in
        let u4 := assoc_set "ip" (ip req) u3 in
        let u5 := assoc_set "userAgent" (userAgent req) u4 in
        write_json userFile (VObj u5);;;
        set_user id (VObj u5)
    | VUndef | VNull => raise TypeError
    | _ => unmodelled
    end
  else ret tt.

Definition stats_body (req : request) : M response :=
  let b := body req in
  destructure b;;;
  let extensionId := prop b "extensionId" in
  let type := prop b "type" in
  let domain := prop b "domain" in
  let proxy := prop b "proxy" in
  let domains := prop b "domains" in
  let proxyConfig := prop b "proxyConfig" in
  if negb (truthy extensionId) then ret id_required
  else
    id <- path_arg extensionId;;
    let userStatsDir := path_join STATS_DIR [id] in
    ensure_dir userStatsDir;;;
    let statFile := path_join userStatsDir ["stats.json"] in
    stats <- load_or statFile init_stats;;
    match stats with
    | VObj s0 =>
        n <- incremented (prop stats "totalRequests");;
        let s1 := assoc_set "totalRequests" n s0 in
        s2 <- note_domain domain s1;;
        s3 <- note_proxy proxy domain type s2;;
        save_user req id proxyConfig domains;;;
        write_json statFile (VObj s3);;;
        ensure_requests id;;;
        push_request id [b];;;
        ret ack
    | VUndef | VNull => raise TypeError
    | _ => unmodelled
    end.

Definition post_stats (req : request) : world → option (response * world) :=
  handle (stats_body req).

(** The file of client [id]'s Stats Record. *)
Definition stat_file (id : string) : jpath :=
  path_join (path_join STATS_DIR [id]) ["stats.json"].

(** *** [POST /api/analytics] *)

Definition ensure_errors (id : string) : M unit :=
  s <- get_store;;
  put_store {| requests := requests s; errors := ensure_key id (errors s);
               events := events s; users := users s |}.

Definition push_error (id : string) (payloads : list value) : M unit :=
  s <- get_store;;
  put_store {| requests := requests s; errors := push_at id payloads (errors s);
               events := events s; users := users s |}.

(** The first half of the handler: one new event file per call. *)
Definition persist_event (req : request) (id : string) : M unit :=
  let b := body req in
  let type := prop b "type" in
  let analyticsDir := path_join LOGS_DIR [id; "analytics"] in
  ensure_dir analyticsDir;;;
  match to_string type with
  | None => raise TypeError
  | Some type_text =>
      t <- now;;
      let analyticsFile := path_join analyticsDir [type_text +:+ "_" +:+ dec t +:+ ".json"] in
      t' <- now;;
      write_json analyticsFile
        (VObj [("sessionId", prop b "sessionId"); ("timestamp", VNum t'); ("type", type);
               ("data", prop b "data"); ("ip", ip req); ("userAgent", userAgent req)])
  end.

(** [case 'batch']. *)
Definition route_batch (id : string) (data : value) : M unit :=
  if nullish data then raise TypeError
  else
    (if truthy (prop data "requests") then
       ensure_requests id;;;
       xs <- spread (prop data "requests");;
       push_request id xs
     else ret tt);;;
    (if truthy (prop data "errors") then
       ensure_errors id;;;
       xs <- spread (prop data "errors");;
       push_error id xs
     else ret tt).

(** [switch (type) { ... }]; the cases are compared with [===]. *)
Definition route (id : string) (type data : value) : M unit :=
  if is_string "request" type then ensure_requests id;;; push_request id [data]
  else if is_string "error" type then ensure_errors id;;; push_error id [data]
  else if is_string "batch" type then route_batch id data
  else ret tt.

(** The values a spread gets through: nothing to spread, an array or a
    string. *)
Definition spreadable (v : value) : bool :=
  negb (truthy v) || match v with VArr _ | VStr _ => true | _ => false end.

(** The events [switch (type)] routes without throwing: any outside the
    "batch" case, and a batch whose [data] is there with spreadable fields. *)
Definition routable (type data : value) : bool :=
  if is_string "batch" type
  then negb (nullish data) && spreadable (prop data "requests")
       && spreadable (prop data "errors")
  else true.

Definition analytics_body (req : request) : M response :=
  let b := body req in
  destructure b;;;
  let type := prop b "type" in
  let data := prop b "data" in
  let extensionId := prop b "extensionId" in
  if negb (truthy extensionId) then ret id_required
  else
    id <- path_arg extensionId;;
    persist_event req id;;;
    route id type data;;;
    ret ack_received.

Definition post_analytics (req : request) : world → option (response * world) :=
  handle (analytics_body req).

(** *** [GET /api/dashboard] *)

(** [Array.from(m.values()).reduce((acc, arr) => acc + arr.length, 0)]. *)
Definition total_length (m : JsMap.t (list value)) : Z :=
  fold_left (λ acc arr, acc + Z.of_nat (length arr)) (JsMap.values m) 0.

(** [Date.now() - user.lastActive < 24 * 60 * 60 * 1000]. *)
Definition is_active (user : value) : M bool :=
  t <- now;;
  if nullish user then raise TypeError
  else match to_number (prop user "lastActive") with
       | Number (VNum n) => ret (t - n <? 24 * 60 * 60 * 1000)
       | Number (VInf negative) => ret (negb negative)
       | Number _ => ret false
       | Throws => raise TypeError
       | Unparsed => unmodelled
       end.

Fixpoint count_active (l : list value) : M Z :=
  match l with
  | [] => ret 0
  | user :: l' =>
      a <- is_active user;;
      n <- count_active l';;
      ret (if a then 1 + n else n)
  end.

(** [if (user.proxyConfig?.host) proxyUsage[host] = (proxyUsage[host] || 0) + 1]. *)
Definition tally_proxy (user : value) (o : list (string * count))
  : M (list (string * count)) :=
  if nullish user then raise TypeError
  else
    let proxyConfig := prop user "proxyConfig" in
    let host := if nullish proxyConfig then VUndef else prop proxyConfig "host" in
    if truthy host then tally host o else ret o.

(** [if (req.domain) domainStats[req.domain] = (domainStats[req.domain] || 0) + 1]. *)
Definition tally_domain (payload : value) (o : list (string * count))
  : M (list (string * count)) :=
  if nullish payload then raise TypeError
  else if truthy (prop payload "domain") then tally (prop payload "domain") o
  else ret o.



(** Every raw request payload of every client, in the order the dashboard
    visits them. *)
Definition payloads (s : store) : list value := List.concat (JsMap.values (requests s)).


(** [l.forEach(x => step(x))] threading the tally object. *)
Fixpoint for_each {A S} (step : A → S → M S) (l : list A) (o : S) : M S :=
  match l with
  | [] => ret o
  | x :: l' => o' <- step x o;; for_each step l' o'
  end.

(** The sort key [x.timestamp] of an event under [b.timestamp - a.timestamp]. *)
Definition event_key (x : value) : numeric := to_number (prop x "timestamp").

Definition is_num (k : numeric) : bool :=
  match k with
  | Number (VNum _) | Number (VInf _) => true
  | _ => false
  end.

Definition is_nan (k : numeric) : bool :=
  match k with
  | Number VNaN => true
  | _ => false
  end.

Definition throws (k : numeric) : bool :=
  match k with
  | Throws => true
  | _ => false
  end.

Definition number_of (k : numeric) : value :=
  match k with
  | Number v => v
  | _ => VNaN
  end.

(** [a <= b] on numbers that may be infinite. *)
Definition num_le (a b : value) : bool :=
  match a, b with
  | VNum x, VNum y => x <=? y
  | VInf true, _ => true
  | _, VInf false => true
  | _, _ => false
  end.

(** [events.sort((a, b) => b.timestamp - a.timestamp).slice(0, n)].  [sort]
    puts the [undefined] elements last without comparing them, and with two
    elements or more to compare every one of them is read: a [null] among
    them, or a timestamp without a primitive value, throws.  With numbers for
    keys throughout the order is the stable descending one (the difference of
    two equal infinities is [NaN], which [sort] takes for "equal"); with
    [NaN] keys throughout every comparison answers "equal" and nothing moves.
    Otherwise -- numbers mixed with [NaN], or a text for a key -- the
    comparison may not be consistent and the order is the engine's own. *)
Definition sort_events (n : nat) (l : list value) : M listing :=
  let defined := List.filter (λ x, match x with VUndef => false | _ => true end) l in
  let undefineds := List.filter (λ x, match x with VUndef => true | _ => false end) l in
  if (length defined <=? 1)%nat then ret (Listed (take n (defined ++ undefineds)))
  else if existsb nullish defined then raise TypeError
  else
    let keys := List.map event_key defined in
    if existsb throws keys then raise TypeError
    else if forallb is_num keys then
      ret (Listed
             (take n
                (List.map snd
                   (stable_sort (λ a b : value * value, num_le b.1 a.1)
                      (zip (List.map number_of keys) defined)) ++ undefineds)))
    else if forallb is_nan keys then ret (Listed (take n (defined ++ undefineds)))
    else ret (EngineListed n l).

Definition dashboard_body : M response :=
  w <- (λ w, Ret w w);;
  match readdirSync (fs w) USERS_DIR with
  | None => raise FsError
  | Some names =>
      let s := analyticsStore w in
      let totalUsers := Z.of_nat (length names) in
      let totalRequests := total_length (requests s) in
      activeUsers <- count_active (JsMap.values (users s));;
      proxyUsage <- for_each tally_proxy (JsMap.values (users s)) [];;
      domainStats <- for_each (for_each tally_domain) (JsMap.values (requests s)) [];;
      recent <- sort_events 50 (List.concat (JsMap.values (events s)));;
      ret (Summary {| totalUsers := totalUsers;
                      activeUsers := activeUsers;
                      totalRequests := totalRequests;
                      totalErrors := total_length (errors s);
                      proxyUsage := top10 proxyUsage;
                      topDomains := top10 domainStats;
                      recentEvents := recent |})
  end.

Definition get_dashboard : world → option (response * world) :=
  handle dashboard_body.

(** *** [GET /api/export] *)

(** [Object.fromEntries(m)] for a [Map] with string keys. *)
Definition from_entries (m : JsMap.t value) : value := VObj (entries m).

Definition export_body (req : request) : M response :=
  let authToken := authorization req in
  if negb (is_string "Bearer admin123" authToken) then ret forbidden
  else
      t <- now;;
      s <- get_store;;
      let exportData :=
        VObj [("timestamp", VStr (iso_datetime t));
              ("totalUsers", VNum (JsMap.size (users s)));
              ("analyticsStore", from_entries (List.map (λ kv, (kv.1, VArr kv.2)) (requests s)));
              ("users", from_entries (users s))] in
      t' <- now;;
      let exportFile := path_join DATA_DIR ["export_" +:+ dec t' +:+ ".json"] in
      write_json exportFile exportData;;;
      ret (Download exportFile).

Definition get_export (req : request) : world → option (response * world) :=
  handle (export_body req).

(** ** Runs of the service *)

Inductive call : Type :=
| PostLogs (req : request)
| PostStats (req : request)
| PostAnalytics (req : request)
| GetDashboard
| GetExport (req : request).

Definition serve (c : call) : world → option (response * world) :=
  match c with
  | PostLogs req => post_logs req
  | PostStats req => post_stats req
  | PostAnalytics req => post_analytics req
  | GetDashboard => get_dashboard
  | GetExport req => get_export req
  end.

(** The ingestion calls that append exactly one payload to a requests
    sequence: every stats call, and an analytics event of type "request". *)
Definition appends_one (c : call) : bool :=
  match c with
  | PostStats _ => true
  | PostAnalytics req => is_string "request" (prop (body req) "type")
  | _ => false
  end.

(** The success acknowledgement of an ingestion call. *)
Definition acknowledgement (c : call) : response :=
  match c with
  | PostStats _ => ack
  | _ => ack_received
  end.

(** What happens to a process: it serves a call, or it ends and a new one
    starts on the same disk. *)
Inductive action : Type :=
| Http (c : call)
| Restart.

(** The answers given along a sequence of actions and the world after it;
    [None] when a call left the modelled fragment or a restart could not
    create its directories. *)
Fixpoint run (acts : list action) (w : world) : option (list response * world) :=
  match acts with
  | [] => Some ([], w)
  | Http c :: acts' =>
      match serve c w with
      | Some (r, w') =>
          match run acts' w' with
          | Some (rs, w'') => Some (r :: rs, w'')
          | None => None
          end
      | None => None
      end
  | Restart :: acts' =>
      match boot (fs w) (clock w) (ticks w) with
      | Some w' => run acts' w'
      | None => None
      end
  end.

End Server.

(** ** A concrete installation *)

Definition demo_root : list string := ["srv"; "app"].

Definition demo_ticks : list Z := [5; 3; 2; 7; 1; 4; 2; 6; 3; 1; 8; 2; 5; 1; 3; 4; 2; 7; 1; 6].

(** The world a process finds after starting on an empty disk at
    2023-11-14T22:13:20.000Z. *)
Definition fresh_world : world :=
  {| fs := list_to_map
             [(["srv"], Dir); (["srv"; "app"], Dir); (["srv"; "app"; "data"], Dir);
              (["srv"; "app"; "data"; "logs"], Dir);
              (["srv"; "app"; "data"; "users"], Dir);
              (["srv"; "app"; "data"; "stats"], Dir)];
     analyticsStore := empty_store;
     clock := 1700000000000;
     ticks := demo_ticks |}.

(** A request from a client extension, and one from the administrator. *)
Definition client (b : value) : request :=
  {| body := b; ip := VStr "203.0.113.7"; userAgent := VStr "ProxyMaster/1.0";
     authorization := VUndef |}.

Definition admin : request :=
  {| body := VObj []; ip := VStr "198.51.100.1"; userAgent := VStr "curl/8.0";
     authorization := VStr "Bearer admin123" |}.

Definition world_after (r : option (list response * world)) : world :=
  match r with
  | Some (_, w) => w
  | None => fresh_world
  end.

Definition stats_of (id domain : string) : call :=
  PostStats (client (VObj [("extensionId", VStr id); ("domain", VStr domain)])).

(** Five stats calls from two clients, split 3/2. *)
Definition five_calls : list call :=
  [stats_of "ext1" "example.com"; stats_of "ext2" "example.org";
   stats_of "ext1" "example.com"; stats_of "ext2" "example.net";
   stats_of "ext1" "example.com"].

Definition after_five : world := Eval vm_compute in
  world_after (run demo_root (Http <$> five_calls) fresh_world).

(** The same domain reported three times by one client, and the empty domain
    reported three times. *)
Definition three_calls : list call :=
  [stats_of "ext1" "example.com"; stats_of "ext1" "example.com"; stats_of "ext1" "example.com"].

Definition after_three : world := Eval vm_compute in
  world_after (run demo_root (Http <$> three_calls) fresh_world).





Definition textless_calls : list call :=
  three_calls ++ [PostStats (client (VObj [("extensionId", VStr "ext1");
                                           ("domain", VObj [("toString", VNum 1)])]))].

Definition after_textless : world := Eval vm_compute in
  world_after (run demo_root (Http <$> textless_calls) fresh_world).

(** An event of type "request" that carries no data. *)
Definition bare_event : request :=
  client (VObj [("extensionId", VStr "ext1"); ("type", VStr "request")]).

Definition after_bare_event : world := Eval vm_compute in
  world_after (run demo_root [Http (PostAnalytics bare_event)] fresh_world).

(** A batch of two requests and one error. *)
Definition batch_request : request :=
  client (VObj [("extensionId", VStr "ext1"); ("type", VStr "batch");
                ("data", VObj [("requests", VArr [VObj [("a", VNum 1)]; VObj [("b", VNum 2)]]);
                               ("errors", VArr [VObj [("e", VNum 1)]])])]).

Definition after_batch : world := Eval vm_compute in
  world_after (run demo_root [Http (PostAnalytics batch_request)] fresh_world).

(** A batch whose [requests] is a number. *)
Definition odd_batch_request : request :=
  client (VObj [("extensionId", VStr "ext1"); ("type", VStr "batch");
                ("data", VObj [("requests", VNum 5); ("errors", VArr [VObj [("e", VNum 1)]])])]).

Definition after_odd_batch : world := Eval vm_compute in
  world_after (run demo_root [Http (PostAnalytics odd_batch_request)] fresh_world).

(** An event of a type with a separator in it, and a batch without data. *)
Definition slash_request : request :=
  client (VObj [("extensionId", VStr "ext1"); ("type", VStr "a/b")]).

Definition after_slash : world := Eval vm_compute in
  world_after (run demo_root [Http (PostAnalytics slash_request)] fresh_world).

Definition empty_batch_request : request :=
  client (VObj [("extensionId", VStr "ext1"); ("type", VStr "batch")]).

Definition after_empty_batch : world := Eval vm_compute in
  world_after (run demo_root [Http (PostAnalytics empty_batch_request)] fresh_world).

(** An event of a type the handler does not route. *)
Definition custom_request : request :=
  client (VObj [("extensionId", VStr "ext1"); ("type", VStr "heartbeat");
                ("data", VObj [("n", VNum 1)])]).

Definition after_custom : world := Eval vm_compute in
  world_after (run demo_root [Http (PostAnalytics custom_request)] fresh_world).

(** A log without timestamp and type, and one that supplies falsy ones. *)
Definition plain_log : request :=
  client (VObj [("extensionId", VStr "ext1"); ("message", VStr "connected")]).

Definition after_plain_log : world := Eval vm_compute in
  world_after (run demo_root [Http (PostLogs plain_log)] fresh_world).

Definition zero_log : request :=
  client (VObj [("extensionId", VStr "ext1"); ("message", VStr "connected");
                ("timestamp", VNum 0); ("type", VStr "")]).

Definition after_zero_log : world := Eval vm_compute in
  world_after (run demo_root [Http (PostLogs zero_log)] fresh_world).

(** A log whose timestamp was sent as 1e400, which [JSON.parse] reads as
    [Infinity]; a log that supplies a timestamp and an empty type; and one
    that supplies a type and the timestamp 0. *)
Definition infinite_log : request :=
  client (VObj [("extensionId", VStr "ext1"); ("message", VStr "connected");
                ("timestamp", VInf false)]).

Definition after_infinite_log : world := Eval vm_compute in
  world_after (run demo_root [Http (PostLogs infinite_log)] fresh_world).

Definition typeless_log : request :=
  client (VObj [("extensionId", VStr "ext1"); ("message", VStr "connected");
                ("timestamp", VNum 5); ("type", VStr "")]).

Definition after_typeless_log : world := Eval vm_compute in
  world_after (run demo_root [Http (PostLogs typeless_log)] fresh_world).

Definition timeless_log : request :=
  client (VObj [("extensionId", VStr "ext1"); ("message", VStr "connected");
                ("timestamp", VNum 0); ("type", VStr "warn")]).

Definition after_timeless_log : world := Eval vm_compute in
  world_after (run demo_root [Http (PostLogs timeless_log)] fresh_world).

(** Two clients report their proxy configuration; then the process
    restarts. *)
Definition config_of (id host : string) : call :=
  PostStats (client (VObj [("extensionId", VStr id);
                           ("proxyConfig", VObj [("host", VStr host)])])).

Definition after_restart : world := Eval vm_compute in
    world_after (run demo_root [Http (config_of "ext1" "proxy-a.example");
                                Http (config_of "ext2" "proxy-b.example"); Restart]
                   fresh_world).

(** The same two reports without a restart, and the restart followed by a
    new report of the first client. *)
Definition after_configs : world := Eval vm_compute in
    world_after (run demo_root [Http (config_of "ext1" "proxy-a.example");
                                Http (config_of "ext2" "proxy-b.example")]
                   fresh_world).

Definition after_reconfig : world := Eval vm_compute in
    world_after (run demo_root [Http (config_of "ext1" "proxy-c.example")] after_restart).

(** A request without [extensionId]. *)
Definition anonymous : request := client (VObj [("message", VStr "hello")]).

(** A request with a wrong token. *)
Definition intruder : request :=
  {| body := VObj []; ip := VStr "198.51.100.9"; userAgent := VStr "curl/8.0";
     authorization := VStr "Bearer letmein" |}.

(** The summary the dashboard gives in a world of this installation. *)
Definition summary_in (w : world) : dashboard :=
  match get_dashboard demo_root w with
  | Some (Summary d, _) => d
  | _ => {| totalUsers := 0; activeUsers := 0; totalRequests := 0; totalErrors := 0;
            proxyUsage := Ranked []; topDomains := Ranked []; recentEvents := Listed [] |}
  end.

Definition fresh_summary : dashboard := Eval vm_compute in summary_in fresh_world.
Definition five_summary : dashboard := Eval vm_compute in summary_in after_five.
Definition batch_summary : dashboard := Eval vm_compute in summary_in after_batch.
Definition restart_summary : dashboard := Eval vm_compute in summary_in after_restart.
Definition configs_summary : dashboard := Eval vm_compute in summary_in after_configs.
Definition reconfig_summary : dashboard := Eval vm_compute in summary_in after_reconfig.

(** The world a call leaves in this installation: a look at the dashboard
    reads the clock once for every user in memory, and an export writes its
    snapshot. *)
Definition seen (w : world) : world :=
  match get_dashboard demo_root w with
  | Some (_, w') => w'
  | None => w
  end.

Definition exported (w : world) : world :=
  match get_export demo_root admin w with
  | Some (_, w') => w'
  | None => w
  end.

(** The snapshot an export by the administrator writes in a world, when it
    writes one. *)
Definition snapshot (w : world) : option value :=
  match get_export demo_root admin w with
  | Some (Download file, w') =>
      match fs w' !! segs file with
      | Some (File doc) => Some doc
      | _ => None
      end
  | _ => None
  end.

Definition configs_seen : world := Eval vm_compute in seen after_configs.
Definition reconfig_seen : world := Eval vm_compute in seen after_reconfig.

(** The world after an export by the administrator following the restart,
    and the snapshot file it names. *)
Definition after_export : world := Eval vm_compute in
    match get_export demo_root admin after_restart with
    | Some (_, w) => w
    | None => fresh_world
    end.

Definition export_file : jpath :=
  {| segs := ["srv"; "app"; "data"; "export_1700000000017.json"]; trailing := false |}.

(** The worlds between and after two reports of one domain, and of the empty
    domain. *)
Definition after_one : world := Eval vm_compute in
  world_after (run demo_root [Http (stats_of "ext1" "example.com")] fresh_world).

Definition after_two : world := Eval vm_compute in
  world_after (run demo_root [Http (stats_of "ext1" "example.com")] after_one).

Definition after_one_empty : world := Eval vm_compute in
  world_after (run demo_root [Http (stats_of "ext1" "")] fresh_world).

Definition after_two_empty : world := Eval vm_compute in
  world_after (run demo_root [Http (stats_of "ext1" "")] after_one_empty).





(** ** The per-user lookup ([GET /api/user/:extensionId]) *)

(** [s.endsWith(suffix)]. *)
Fixpoint ends_with (suffix s : string) : bool :=
  String.eqb s suffix ||
  match s with
  | EmptyString => false
  | String _ s' => ends_with suffix s'
  end.

(** [names.filter(file => file.endsWith('.json')).sort().reverse().slice(0, 10)]:
    the default [sort] orders strings by their characters' codes. *)
Definition recent_log_files (names : list string) : list string :=
  take 10 (reverse (stable_sort String.leb (List.filter (ends_with ".json") names))).

(** What the lookup answers with. *)
Inductive lookup : Type :=
| NotFound                                   (* res.status(404).json({ error: 'User not found' }) *)
| Found (user : value) (logs : listing) (requests errors : list value)
                                             (* res.json({ user, logs, requests, errors }) *)
| LookupError (e : exn).                     (* res.status(500).json({ error: error.message }) *)

Section Lookup.
Variable dirname : list string.

(** [logs.push(...JSON.parse(fs.readFileSync(path.join(logsDir, file), 'utf8')))]. *)
Definition read_logs (logsDir : jpath) (file : string) (logs : list value) : M (list value) :=
  λ w, match readFileSync (fs w) (path_join logsDir [file]) with
       | Some fileLogs => bind (spread fileLogs) (λ xs, ret (logs ++ xs)) w
       | None => Raise FsError w
       end.

Definition user_body (extensionId : string) : M lookup :=
  let userFile := path_join (USERS_DIR dirname) [extensionId +:+ ".json"] in
  w <- (λ w, Ret w w);;
  if negb (existsSync (fs w) userFile) then ret NotFound
  else
    match readFileSync (fs w) userFile with
    | None => raise FsError
    | Some userData =>
        let logsDir := path_join (LOGS_DIR dirname) [extensionId] in
        logs <- (if existsSync (fs w) logsDir then
                   match readdirSync (fs w) logsDir with
                   | None => raise FsError
                   | Some names => for_each (read_logs logsDir) (recent_log_files names) []
                   end
                 else ret []);;
        sorted <- sort_events 100 logs;;
        s <- get_store;;
        ret (Found userData sorted
               (default [] (JsMap.get extensionId (requests s)))
               (default [] (JsMap.get extensionId (errors s))))
    end.

Definition get_user (extensionId : string) (w : world) : option (lookup * world) :=
  match user_body extensionId w with
  | Ret r w' => Some (r, w')
  | Raise e w' => Some (LookupError e, w')
  | Unmodelled => None
  end.

End Lookup.

(** ** What the handlers keep *)

(** A relation between the world before and the world after that a
    computation respects whatever way it ends. *)
Definition keeps (R : world → world → Prop) {A} (m : M A) : Prop :=
  ∀ w, match m w with
       | Ret _ w' | Raise _ w' => R w w'
       | Unmodelled => True
       end.

(** A relation that holds of a world and itself, composes, and does not look
    at the clock. *)
Class Invariant (R : world → world → Prop) : Prop := {
  inv_refl : ∀ w, R w w;
  inv_trans : ∀ w1 w2 w3, R w1 w2 → R w2 w3 → R w1 w3;
  inv_clock : ∀ w t ts,
    R w {| fs := fs w; analyticsStore := analyticsStore w; clock := t; ticks := ts |}
}.

(** Every node is still there and of the same kind: no file or directory is
    removed, no file becomes a directory or a directory a file. *)
Definition fs_kept (f f' : gmap (list string) node) : Prop :=
  ∀ p, match f !! p with
       | Some Dir => f' !! p = Some Dir
       | Some (File _) => ∃ c, f' !! p = Some (File c)
       | None => True
       end.

(** Every sequence of the mapping is still there, with what it held as a
    prefix. *)
Definition grown (m m' : JsMap.t (list value)) : Prop :=
  ∀ id l, JsMap.get id m = Some l → ∃ l', JsMap.get id m' = Some (l ++ l').

Definition memory_grows (s s' : store) : Prop :=
  grown (requests s) (requests s') ∧ grown (errors s) (errors s') ∧
  grown (events s) (events s') ∧
  ∀ id, JsMap.has id (users s) = true → JsMap.has id (users s') = true.

Definition nothing_lost (w w' : world) : Prop :=
  fs_kept (fs w) (fs w') ∧ memory_grows (analyticsStore w) (analyticsStore w').

(** Files and aggregator are what they were. *)
Definition untouched (w w' : world) : Prop :=
  fs w' = fs w ∧ analyticsStore w' = analyticsStore w.

(** The files stay as they are. *)
Definition fs_same (w w' : world) : Prop := fs w' = fs w.

(** What the aggregator holds for client [id] stays as it is. *)
Definition client_kept (id : string) (w w' : world) : Prop :=
  JsMap.get id (requests (analyticsStore w')) = JsMap.get id (requests (analyticsStore w)) ∧
  JsMap.get id (errors (analyticsStore w')) = JsMap.get id (errors (analyticsStore w)) ∧
  JsMap.get id (events (analyticsStore w')) = JsMap.get id (events (analyticsStore w)) ∧
  JsMap.get id (users (analyticsStore w')) = JsMap.get id (users (analyticsStore w)).

(** The [extensionId] a call carries in its body. *)
Definition sender (c : call) : value :=
  match c with
  | PostLogs req | PostStats req | PostAnalytics req => prop (body req) "extensionId"
  | GetDashboard | GetExport _ => VUndef
  end.

(** A log call carrying a number where the client's identifier should be,
    and a look at the dashboard's world after five stats calls. *)
Definition numeric_id_request : request :=
  client (VObj [("extensionId", VNum 5); ("message", VStr "connected")]).

(** ** Where a client's files are *)

(** The file of client [id]'s User Record. *)
Definition user_file (dirname : list string) (id : string) : jpath :=
  path_join (USERS_DIR dirname) [id +:+ ".json"].

(** The directory of client [id]'s analytics events. *)
Definition analytics_dir (dirname : list string) (id : string) : jpath :=
  path_join (LOGS_DIR dirname) [id; "analytics"].

Fixpoint slashless (s : string) : bool :=
  match s with
  | EmptyString => true
  | String c s' => negb (Ascii.eqb c "/"%char) && slashless s'
  end.

(** An identifier that [path.join] takes as one segment: no separator in it,
    and none of the texts normalisation treats specially. *)
Definition plain (s : string) : bool :=
  slashless s && nonempty s && negb (String.eqb s ".") && negb (String.eqb s "..").

(** ** What a stats call writes *)

(** The element [stats.proxyUsage.push] receives, with [t] the clock
    reading. *)
Definition proxy_use (req : request) (t : Z) : value :=
  VObj [("proxy", prop (body req) "proxy"); ("timestamp", VNum t);
        ("domain", prop (body req) "domain"); ("type", prop (body req) "type")].



(** A stats call of one client, and a run of such calls. *)
Definition stats_with (id : string) (fields : list (string * value)) : request :=
  client (VObj (("extensionId", VStr id) :: fields)).

Definition proxied : request :=
  stats_with "ext1" [("proxy", VStr "10.0.0.1:8080"); ("domain", VStr "example.com");
                     ("type", VStr "http")].

Definition after_proxied : world := Eval vm_compute in
  world_after (run demo_root [Http (PostStats proxied)] fresh_world).



(** The Stats Record of client [id] as a call finds it: the document in the
    file, and the initial record when there is no file. *)
Definition stats_record_of (dirname : list string) (id : string) (w : world) : value :=
  match fs w !! segs (stat_file dirname id) with
  | Some (File doc) => doc
  | _ => init_stats
  end.


(** ** What an analytics call writes *)





Definition error_event : request :=
  client (VObj [("extensionId", VStr "ext1"); ("type", VStr "error");
                ("data", VObj [("message", VStr "timeout")])]).

Definition after_error_event : world := Eval vm_compute in
  world_after (run demo_root [Http (PostAnalytics error_event)] fresh_world).

(** ** What the dashboard reports *)





(** [Date.now() - user.lastActive < 24 * 60 * 60 * 1000] at clock reading
    [t]. *)
Definition active_at (t : Z) (user : value) : bool :=
  match to_number (prop user "lastActive") with
  | Number (VNum n) => t - n <? 24 * 60 * 60 * 1000
  | Number (VInf negative) => negb negative
  | _ => false
  end.

Definition count_of {A} (f : A → bool) (l : list A) : Z := Z.of_nat (length (List.filter f l)).

(** Every event held in memory, in the order the dashboard flattens them. *)
Definition all_events (s : store) : list value := List.concat (JsMap.values (events s)).

(** ** The records of the users map *)

(** A record that carries a number as its [lastActive]. *)
Definition stamped (u : value) : bool :=
  match u with
  | VObj fields =>
      match assoc "lastActive" fields with
      | Some (VNum _) => true
      | _ => false
      end
  | _ => false
  end.

Definition users_stamped (w : world) : Prop :=
  Forall (λ u, stamped u = true) (JsMap.values (users (analyticsStore w))).

(** Stamped users stay stamped. *)
Definition stamps_kept (w w' : world) : Prop := users_stamped w → users_stamped w'.


(** * Properties *)

(** ** Dates and texts on examples *)

Example iso_date_epoch : iso_date 0 = "1970-01-01".
Proof. reflexivity. Qed.
Example iso_date_x : iso_datetime 1700000000123 = "2023-11-14T22:13:20.123Z".
Proof. vm_compute. reflexivity. Qed.
Example iso_date_leap : iso_date 1709164800000 = "2024-02-29".
Proof. vm_compute. reflexivity. Qed.
Example iso_date_neg : iso_date (-1) = "1969-12-31".
Proof. vm_compute. reflexivity. Qed.
Example to_string_arr :
  to_string (VArr [VNum 1; VNull; VArr [VStr "a"; VStr "b"]; VBool true]) = Some "1,,a,b,true".
Proof. vm_compute. reflexivity. Qed.

(** ** Paths and tallies on examples *)

Example path_join_normalises :
  path_join (dir_path ["srv"; "data"]) ["a/./b//c/../d/"]
  = {| segs := ["srv"; "data"; "a"; "b"; "d"]; trailing := true |}.
Proof. reflexivity. Qed.

Example path_join_climbs :
  segs (path_join (dir_path ["srv"]) ["../../etc"; "x.json"]) = ["etc"; "x.json"].
Proof. reflexivity. Qed.

Example entries_order :
  entries [("b", 1); ("10", 2); ("a", 3); ("9", 4); ("07", 5)]
  = [("9", 4); ("10", 2); ("b", 1); ("a", 3); ("07", 5)].
Proof. vm_compute. reflexivity. Qed.

Example top10_stable :
  top10 [("a", Count 1); ("b", Count 3); ("c", Count 1); ("d", Count 3)]
  = Ranked [("b", 3); ("d", 3); ("a", 1); ("c", 1)].
Proof. vm_compute. reflexivity. Qed.

Example top10_garbled :
  top10 [("a", Count 1); ("toString", Garbled); ("b", Count 3)]
  = EngineRanked [("a", Count 1); ("toString", Garbled); ("b", Count 3)].
Proof. vm_compute. reflexivity. Qed.

Example spread_characters :
  code_points "" "a€b" = ["a"; "€"; "b"].
Proof. vm_compute. reflexivity. Qed.

(** ** Stepping through the monad *)

Lemma bind_Ret {A B} (m : M A) (k : A → M B) (w w' : world) (b : B) :
  bind m k w = Ret b w' → ∃ a w1, m w = Ret a w1 ∧ k a w1 = Ret b w'.
Proof.
  unfold bind. destruct (m w) as [a w1| |]; [|discriminate..].
  intros H. by exists a, w1.
Qed.

Lemma handle_Json {m : M response} {w w' : world} {st : Z} {v : value} :
  handle m w = Some (Json st v, w') → m w = Ret (Json st v) w'.
Proof.
  unfold handle. destruct (m w) as [r w1|e w1|]; intros H; by simplify_eq.
Qed.

Lemma handle_Summary {m : M response} {w w' : world} {d : dashboard} :
  handle m w = Some (Summary d, w') → m w = Ret (Summary d) w'.
Proof.
  unfold handle. destruct (m w) as [r w1|e w1|]; intros H; by simplify_eq.
Qed.

Lemma handle_Download {m : M response} {w w' : world} {f : jpath} :
  handle m w = Some (Download f, w') → m w = Ret (Download f) w'.
Proof.
  unfold handle. destruct (m w) as [r w1|e w1|]; intros H; by simplify_eq.
Qed.

Lemma destructure_Ret (b : value) (w w' : world) (u : unit) :
  destructure b w = Ret u w' → nullish b = false ∧ w' = w.
Proof.
  unfold destructure. destruct (nullish b); [discriminate|].
  intros [= _ ->]. done.
Qed.

Lemma path_arg_Ret (v : value) (s : string) (w w' : world) :
  path_arg v w = Ret s w' → v = VStr s ∧ w' = w.
Proof. destruct v; try discriminate. by intros [= -> ->]. Qed.

Lemma now_Ret (t : Z) (w w' : world) :
  now w = Ret t w' →
  t = clock w + hd 0 (ticks w) ∧ fs w' = fs w ∧ analyticsStore w' = analyticsStore w ∧
  clock w' = t ∧ ticks w' = tl (ticks w).
Proof. unfold now. intros [= <- <-]. done. Qed.

Lemma ensure_dir_Ret (d : jpath) (w w' : world) (u : unit) :
  ensure_dir d w = Ret u w' →
  analyticsStore w' = analyticsStore w ∧ clock w' = clock w ∧ ticks w' = ticks w.
Proof.
  unfold ensure_dir. destruct (existsSync _ _).
  - by intros [= _ <-].
  - destruct (mkdirSync _ _); [|discriminate]. by intros [= _ <-].
Qed.

Lemma load_or_Ret (f : jpath) (init doc : value) (w w' : world) :
  load_or f init w = Ret doc w' →
  w' = w ∧
  (if existsSync (fs w) f then readFileSync (fs w) f = Some doc else doc = init).
Proof.
  unfold load_or. destruct (existsSync _ _).
  - destruct (readFileSync _ _); [|discriminate]. by intros [= -> ->].
  - by intros [= -> ->].
Qed.

Lemma write_json_Ret (f : jpath) (v : value) (w w' : world) (u : unit) :
  write_json f v w = Ret u w' →
  ∃ doc, stringify v = Some doc ∧ fs w' = <[segs f := File doc]> (fs w) ∧
         analyticsStore w' = analyticsStore w ∧ clock w' = clock w ∧ ticks w' = ticks w ∧
         valid_path f = true ∧ trailing f = false.
Proof.
  unfold write_json. destruct (stringify v) as [doc|]; [|discriminate].
  unfold writeFileSync.
  destruct (valid_path f); [|discriminate].
  destruct (trailing f); [discriminate|]. simpl.
  destruct (segs f) as [|s l] eqn:E; [discriminate|]. rewrite <- E.
  destruct (node_at (fs w) (removelast (segs f))) as [[]|]; try discriminate.
  destruct (node_at (fs w) (segs f)) as [[]|]; try discriminate;
    intros [= _ <-]; by exists doc.
Qed.

Tactic Notation "step" hyp(H) "as" ident(a) ident(w) ident(Ha) :=
  apply bind_Ret in H as (a & w & Ha & H).

(** ** Rejected calls *)

Section Rejected.
Variable dirname : list string.

(** The validation [if (!extensionId)] looks at truthiness: every body that
    can be destructured and has a falsy [extensionId] is answered by 400
    before anything is touched. *)
Lemma falsy_id_rejected (req : request) (w : world) :
  nullish (body req) = false →
  truthy (prop (body req) "extensionId") = false →
  post_logs dirname req w = Some (id_required, w) ∧
  post_stats dirname req w = Some (id_required, w) ∧
  post_analytics dirname req w = Some (id_required, w).
Proof.
  intros Hb Hid.
  unfold post_logs, post_stats, post_analytics, handle,
    logs_body, stats_body, analytics_body, bind, destructure.
  by rewrite Hb, Hid.
Qed.

(** C4.  A POST to /api/logs, /api/stats or /api/analytics whose body has no
    [extensionId] is answered with status 400, and the world after the call
    is the world before it: no file written, persistent store and in-memory
    aggregator unchanged. *)
Theorem missing_extensionId_rejected (req : request) (w : world) :
  nullish (body req) = false →
  prop (body req) "extensionId" = VUndef →
  status_of id_required = 400 ∧
  post_logs dirname req w = Some (id_required, w) ∧
  post_stats dirname req w = Some (id_required, w) ∧
  post_analytics dirname req w = Some (id_required, w).
Proof.
  intros Hb Hnone. split; [reflexivity|].
  apply falsy_id_rejected; [done|]. by rewrite Hnone.
Qed.

(** C8. A GET /api/export whose Authorization header is not the fixed bearer
    token is answered with status 403 and leaves the world as it was: the
    snapshot is written only past the token check. *)
Theorem export_wrong_token_forbidden (req : request) (w : world) :
  authorization req ≠ VStr "Bearer admin123" →
  status_of forbidden = 403 ∧ get_export dirname req w = Some (forbidden, w).
Proof.
  intros Hne. split; [reflexivity|].
  unfold get_export, handle, export_body.
  assert (is_string "Bearer admin123" (authorization req) = false) as ->; [|done].
  destruct (authorization req) as [| | | | |s| | |]; try reflexivity.
  simpl. apply String.eqb_neq. congruence.
Qed.

End Rejected.

(** ** Directories and files *)

(** [mkdir -p] adds directories where nothing was and touches nothing else. *)
Lemma mkdirp_frame (todo done : list string) (f f' : gmap (list string) node) :
  mkdirp f done todo = Some f' →
  ∀ q, f' !! q = f !! q ∨ (f !! q = None ∧ f' !! q = Some Dir).
Proof.
  revert done f. induction todo as [|seg rest IH]; intros done f; simpl.
  - intros [= ->] q. by left.
  - destruct (f !! (done ++ [seg])) as [[c|]|] eqn:E; [discriminate| |].
    + apply IH.
    + intros H q. destruct (IH _ _ H q) as [Hq|[Hq1 Hq2]].
      * destruct (decide (done ++ [seg] = q)) as [<-|Hne].
        -- right. rewrite Hq, lookup_insert_eq. done.
        -- left. by rewrite Hq, lookup_insert_ne.
      * destruct (decide (done ++ [seg] = q)) as [<-|Hne].
        -- by rewrite lookup_insert_eq in Hq1.
        -- rewrite lookup_insert_ne in Hq1 by done. by right.
Qed.

Lemma ensure_dir_frame (d : jpath) (w w' : world) (u : unit) :
  ensure_dir d w = Ret u w' →
  ∀ q, fs w' !! q = fs w !! q ∨ (fs w !! q = None ∧ fs w' !! q = Some Dir).
Proof.
  unfold ensure_dir. destruct (existsSync _ _).
  - intros [= _ <-] q. by left.
  - unfold mkdirSync. destruct (valid_path d); [|discriminate].
    destruct (mkdirp _ _ _) as [f'|] eqn:E; [|discriminate].
    intros [= _ <-] q. simpl. apply (mkdirp_frame _ _ _ _ E q).
Qed.

(** What a successful [existsSync ? readFileSync : init] read, in terms of
    the node at the path. *)
Lemma load_or_node (f : jpath) (init doc : value) (w w' : world) :
  valid_path f = true → trailing f = false →
  load_or f init w = Ret doc w' →
  w' = w ∧ (fs w !! segs f = Some (File doc) ∨ (fs w !! segs f = None ∧ doc = init)).
Proof.
  intros Hv Ht H. apply load_or_Ret in H as [-> H]. split; [done|].
  unfold existsSync, readFileSync, node_at in H. rewrite Hv, Ht in H. simpl in H.
  destruct (segs f) as [|s l] eqn:E; [discriminate|].
  destruct (fs w !! (s :: l)) as [[c|]|] eqn:En.
  - left. congruence.
  - discriminate.
  - by right.
Qed.

(** ** JSON documents *)

Lemma value_induction (P : value → Prop) :
  P VUndef → P VNull → (∀ b, P (VBool b)) → (∀ n, P (VNum n)) → P VNaN →
  (∀ s, P (VStr s)) →
  (∀ l, Forall P l → P (VArr l)) →
  (∀ l, Forall (λ kv : string * value, P kv.2) l → P (VObj l)) →
  (∀ b, P (VInf b)) →
  ∀ v, P v.
Proof.
  intros HU HN HB HZ HNaN HS HA HO HI.
  fix IH 1. intros [| |b|n| |s|l|l|b].
  - exact HU.
  - exact HN.
  - apply HB.
  - apply HZ.
  - exact HNaN.
  - apply HS.
  - apply HA. induction l as [|x l IHl]; constructor; [apply IH | exact IHl].
  - apply HO. induction l as [|[k x] l IHl]; constructor; [apply IH | exact IHl].
  - apply HI.
Qed.

(** A JSON document is written back as it is. *)
Lemma json_id (v : value) : is_json v = true → json v = v.
Proof.
  induction v as [| | | | | |l IH|l IH|] using value_induction; simpl; try done.
  - intros H. f_equal. induction IH as [|x l Hx _ IHl]; [done|].
    simpl in *. apply andb_true_iff in H as [H1 H2].
    by rewrite Hx, IHl.
  - intros H. f_equal. induction IH as [|[k x] l Hx _ IHl]; [done|].
    simpl in *. apply andb_true_iff in H as [H1 H2].
    rewrite IHl by done. rewrite <- (Hx H1) at 2.
    destruct x; try done.
Qed.

Lemma is_json_prop (v : value) (k : string) :
  is_json v = true → truthy (prop v k) = true → is_json (prop v k) = true.
Proof.
  destruct v as [| | | | | | |l|]; try discriminate.
  simpl. induction l as [|[k' x] l IH]; [discriminate|].
  intros H. apply andb_true_iff in H as [H1 H2]. simpl.
  destruct (String.eqb k k'); [done|]. by apply IH.
Qed.

(** A defined first property survives [JSON.stringify] in first place. *)
Lemma json_obj_head (k : string) (v : value) (rest : list (string * value)) :
  v ≠ VUndef →
  ∃ rest', json (VObj ((k, v) :: rest)) = VObj ((k, json v) :: rest') ∧
           json (VObj rest) = VObj rest'.
Proof. intros Hv. destruct v; try congruence; simpl; eauto. Qed.

Lemma truthy_defined (v : value) : truthy v = true → v ≠ VUndef.
Proof. by destruct v. Qed.

(** ** Log ingestion *)

Section Logs.
Variable dirname : list string.

(** An acknowledged POST /api/logs read the clock for the date, resolved the
    timestamp (a second reading when none usable was supplied) and rewrote
    the day-file with the new entry after the entries it held. *)
Lemma logs_ack_inv (req : request) (w w' : world) :
  post_logs dirname req w = Some (ack_received, w') →
  ∃ id old ts,
    prop (body req) "extensionId" = VStr id ∧
    let today := clock w + hd 0 (ticks w) in
    (if truthy (prop (body req) "timestamp")
     then ts = prop (body req) "timestamp" ∧ clock w' = today
     else ts = VNum (clock w') ∧ clock w' = today + hd 0 (tl (ticks w))) ∧
    (fs w !! segs (day_file dirname id today) = Some (File (VArr old)) ∨
     (fs w !! segs (day_file dirname id today) = None ∧ old = [])) ∧
    fs w' !! segs (day_file dirname id today) =
      Some (File (VArr (json <$> (old ++ [log_entry req ts])))).
Proof.
  intros H. apply handle_Json in H. unfold logs_body in H.
  step H as u0 w0 H0. apply destructure_Ret in H0 as [_ ->].
  destruct (truthy (prop (body req) "extensionId")); [|discriminate]. simpl in H.
  step H as id w1 H1. apply path_arg_Ret in H1 as [Hid ->].
  step H as u2 w2 H2. pose proof (ensure_dir_frame _ _ _ _ H2) as Hframe.
  apply ensure_dir_Ret in H2 as (Hs2 & Hc2 & Ht2).
  step H as today w3 H3. apply now_Ret in H3 as (Htoday & Hf3 & Hs3 & Hc3 & Ht3).
  step H as logs w4 H4.
  step H as u5 w5 H5. destruct (nullish logs) eqn:Hnl; [discriminate|].
  injection H5 as _ ->.
  step H as ts w6 H6.
  destruct logs as [| | | | | |old| |]; try discriminate.
  step H as u7 w7 H7. step H as u8 w8 H8. injection H as ->.
  apply write_json_Ret in H7 as (doc & Hdoc & Hf7 & Hs7 & Hc7 & Ht7 & Hvalid & Htrail).
  apply load_or_node in H4 as [-> Hold]; [|done..].
  unfold push_event, bind, get_store, put_store in H8. injection H8 as Hw'. subst w'.
  exists id, old, ts. split; [done|]. cbv zeta.
  rewrite Hc2, Ht2 in Htoday. subst today. fold (day_file dirname id (clock w + hd 0 (ticks w))) in *.
  split; [|split].
  - destruct (truthy (prop (body req) "timestamp")).
    + injection H6 as -> ->. simpl. by rewrite Hc7.
    + step H6 as t w9 H9. injection H6 as <- <-.
      apply now_Ret in H9 as (Ht' & _ & _ & Hc9 & _).
      simpl. rewrite Hc7, Hc9. split; [done|]. rewrite Ht', Hc3, Ht3, Ht2. done.
  - rewrite Hf3 in Hold. destruct (Hframe (segs (day_file dirname id (clock w + hd 0 (ticks w))))) as [Hq|[Hq1 Hq2]].
    + rewrite Hq in Hold. destruct Hold as [Hold|[Hold1 Hold2]]; [by left|].
      right. split; [done|congruence].
    + rewrite Hq2 in Hold. destruct Hold as [Hold|[Hold _]]; discriminate.
  - simpl. rewrite Hf7, lookup_insert_eq. simpl in Hdoc. by injection Hdoc as <-.
Qed.

(** The persisted form of the entry carries the resolved timestamp and type. *)
Lemma log_entry_json (req : request) (ts : value) :
  ts ≠ VUndef →
  prop (json (log_entry req ts)) "timestamp" = json ts ∧
  prop (json (log_entry req ts)) "type" =
    json (or_else (prop (body req) "type") (VStr "info")).
Proof.
  intros Hts. unfold log_entry.
  destruct (json_obj_head "timestamp" ts
              [("type", or_else (prop (body req) "type") (VStr "info"));
               ("message", prop (body req) "message"); ("proxy", prop (body req) "proxy");
               ("ip", ip req)] Hts) as (rest & -> & Hrest).
  destruct (json_obj_head "type" (or_else (prop (body req) "type") (VStr "info"))
              [("message", prop (body req) "message"); ("proxy", prop (body req) "proxy");
               ("ip", ip req)]) as (rest' & Hrest' & _).
  { unfold or_else. destruct (truthy _) eqn:E; [by apply truthy_defined|done]. }
  rewrite Hrest' in Hrest. injection Hrest as <-. done.
Qed.

Lemma hd_nonneg (l : list Z) : Forall (λ d, 0 ≤ d) l → 0 ≤ hd 0 l.
Proof. destruct 1; simpl; lia. Qed.

Lemma tl_nonneg (l : list Z) : Forall (λ d, 0 ≤ d) l → Forall (λ d, 0 ≤ d) (tl l).
Proof. destruct 1; simpl; [constructor|done]. Qed.

(** C6, amended.  For an acknowledged POST /api/logs, read under a clock
    that never runs backwards, the day-file afterwards holds its former
    entries followed by one new entry.  The entry's type is "info" when the
    supplied one is falsy (so also when it is omitted), and its timestamp is
    then a clock reading taken no earlier than the start of the call and no
    later than its completion.  A truthy supplied value is used, in the form
    [JSON.stringify] writes it: as it is when it holds nothing but JSON, while
    a number that is not finite -- [Infinity], as 1e400 is parsed -- is
    written as [null]. *)
Theorem log_entry_defaults (req : request) (w w' : world) :
  Forall (λ d, 0 ≤ d) (ticks w) →
  post_logs dirname req w = Some (ack_received, w') →
  ∃ id today old e,
    prop (body req) "extensionId" = VStr id ∧
    clock w ≤ today ≤ clock w' ∧
    (fs w !! segs (day_file dirname id today) = Some (File (VArr old)) ∨
     (fs w !! segs (day_file dirname id today) = None ∧ old = [])) ∧
    fs w' !! segs (day_file dirname id today) = Some (File (VArr ((json <$> old) ++ [e]))) ∧
    prop e "type" =
      (if truthy (prop (body req) "type") then json (prop (body req) "type")
       else VStr "info") ∧
    (if truthy (prop (body req) "timestamp")
     then prop e "timestamp" = json (prop (body req) "timestamp")
     else ∃ t, prop e "timestamp" = VNum t ∧ clock w ≤ t ≤ clock w') ∧
    (is_json (prop (body req) "type") = true →
       json (prop (body req) "type") = prop (body req) "type") ∧
    (is_json (prop (body req) "timestamp") = true →
       json (prop (body req) "timestamp") = prop (body req) "timestamp").
Proof.
  intros Hticks H.
  apply logs_ack_inv in H as (id & old & ts & Hid & Hts & Hold & Hnew).
  cbv zeta in *.
  pose proof (hd_nonneg _ Hticks) as Hd1.
  pose proof (hd_nonneg _ (tl_nonneg _ Hticks)) as Hd2.
  assert (ts ≠ VUndef) as Hdef.
  { destruct (truthy (prop (body req) "timestamp")) eqn:E.
    - destruct Hts as [-> _]. by apply truthy_defined.
    - destruct Hts as [-> _]. done. }
  destruct (log_entry_json req ts Hdef) as [Hpts Hpty].
  exists id, (clock w + hd 0 (ticks w)), old, (json (log_entry req ts)).
  split; [done|]. split.
  { destruct (truthy (prop (body req) "timestamp")); destruct Hts as [_ ->]; lia. }
  split; [done|]. split.
  { by rewrite Hnew, fmap_app. }
  split; [|split; [|split; apply json_id]].
  - rewrite Hpty. unfold or_else. by destruct (truthy (prop (body req) "type")).
  - destruct (truthy (prop (body req) "timestamp")) eqn:E; destruct Hts as [-> Hc].
    + exact Hpts.
    + exists (clock w'). rewrite Hpts. split; [done|]. lia.
Qed.

(** C9.  The defaults are chosen by truthiness, not by presence, and each on
    its own: in the entry an acknowledged call appends, a falsy timestamp (0,
    [null], [false], the empty string -- or none) is replaced by the clock
    reading taken while handling the call, whatever the type, and a falsy
    type (the empty string, ... -- or none) is replaced by "info", whatever
    the timestamp. *)
Theorem falsy_values_defaulted (req : request) (w w' : world) :
  post_logs dirname req w = Some (ack_received, w') →
  ∃ id today old e,
    prop (body req) "extensionId" = VStr id ∧
    today = clock w + hd 0 (ticks w) ∧
    fs w' !! segs (day_file dirname id today) = Some (File (VArr ((json <$> old) ++ [e]))) ∧
    (truthy (prop (body req) "timestamp") = false →
       prop e "timestamp" = VNum (today + hd 0 (tl (ticks w))) ∧
       clock w' = today + hd 0 (tl (ticks w))) ∧
    (truthy (prop (body req) "type") = false → prop e "type" = VStr "info").
Proof.
  intros H.
  apply logs_ack_inv in H as (id & old & ts & Hid & Hts & Hold & Hnew).
  cbv zeta in *.
  assert (ts ≠ VUndef) as Hdef.
  { destruct (truthy (prop (body req) "timestamp")) eqn:E.
    - destruct Hts as [-> _]. by apply truthy_defined.
    - destruct Hts as [-> _]. done. }
  destruct (log_entry_json req ts Hdef) as [Hpts Hpty].
  exists id, (clock w + hd 0 (ticks w)), old, (json (log_entry req ts)).
  split; [done|]. split; [done|]. split.
  { by rewrite Hnew, fmap_app. }
  split.
  - intros Hfts. rewrite Hfts in Hts. destruct Hts as [-> Hc].
    by rewrite Hpts, Hc.
  - intros Hfty. rewrite Hpty. unfold or_else. by rewrite Hfty.
Qed.

End Logs.

(** ** Stats ingestion *)

Lemma assoc_set_eq {A} (k : string) (v : A) (l : list (string * A)) :
  assoc k (assoc_set k v l) = Some v.
Proof.
  induction l as [|[k' v'] l IH]; simpl.
  - by rewrite String.eqb_refl.
  - destruct (String.eqb k k') eqn:E; simpl; [by rewrite String.eqb_refl|].
    by rewrite E.
Qed.

Lemma assoc_set_ne {A} (k k' : string) (v : A) (l : list (string * A)) :
  k ≠ k' → assoc k (assoc_set k' v l) = assoc k l.
Proof.
  intros Hne. induction l as [|[k'' v''] l IH]; simpl.
  - by apply String.eqb_neq in Hne as ->.
  - destruct (String.eqb k' k'') eqn:E; simpl.
    + apply String.eqb_eq in E as <-. by apply String.eqb_neq in Hne as ->.
    + by rewrite IH.
Qed.

Lemma incremented_Ret (v n : value) (w w' : world) :
  incremented v w = Ret n w' → w' = w.
Proof.
  unfold incremented. destruct (to_number v) as [[]| |]; try discriminate;
    repeat case_match; try discriminate; by intros [= _ ->].
Qed.

Lemma note_domain_Ret (domain : value) (s s' : list (string * value)) (w w' : world) :
  note_domain domain s w = Ret s' w' →
  w' = w ∧ prop (VObj s') "domains" = domains_after domain (prop (VObj s) "domains").
Proof.
  unfold note_domain, domains_after. destruct (truthy domain).
  - destruct (prop (VObj s) "domains") as [| | | | |t|ds| |] eqn:E; try discriminate.
    + destruct (to_string domain); [|discriminate].
      destruct (contains _ _); [|discriminate]. intros [= <- <-]. by rewrite E.
    + destruct (includes ds domain).
      * intros [= <- <-]. by rewrite E.
      * intros [= <- <-]. split; [done|]. simpl. by rewrite assoc_set_eq.
  - by intros [= <- <-].
Qed.

Lemma note_proxy_Ret (proxy domain type : value) (s s' : list (string * value))
    (w w' : world) :
  note_proxy proxy domain type s w = Ret s' w' →
  fs w' = fs w ∧ analyticsStore w' = analyticsStore w ∧
  prop (VObj s') "domains" = prop (VObj s) "domains".
Proof.
  unfold note_proxy. destruct (truthy proxy).
  - destruct (prop (VObj s) "proxyUsage") as [| | | | | |ps| |] eqn:E; try discriminate;
      intros H; step H as t w1 H1; try discriminate.
    apply now_Ret in H1 as (_ & Hf & Hs & _ & _). injection H as <- <-.
    split; [done|]. split; [done|]. simpl. by rewrite assoc_set_ne.
  - by intros [= <- <-].
Qed.

Lemma prop_json (l : list (string * value)) (k : string) (v : value) :
  prop (VObj l) k = v → v ≠ VUndef → prop (json (VObj l)) k = json v.
Proof.
  intros <- Hv. induction l as [|[k' x] l IH]; [done|].
  simpl in *. destruct (String.eqb k k') eqn:E.
  - destruct x; simpl in *; rewrite ?E; done.
  - destruct x; simpl in *; rewrite ?E; by apply IH.
Qed.

Lemma is_json_json (v : value) : is_json (json v) = true.
Proof.
  induction v as [| | | | | |l IH|l IH|] using value_induction; simpl; try done.
  - induction IH as [|x l Hx _ IHl]; [done|]. simpl. by rewrite Hx, IHl.
  - induction IH as [|[k x] l Hx _ IHl]; [done|]. simpl in *.
    destruct x; simpl in *; rewrite ?Hx, ?IHl; done.
Qed.

Lemma json_idem (v : value) : json (json v) = json v.
Proof. apply json_id, is_json_json. Qed.

Lemma is_string_json (d : string) (v : value) : is_string d (json v) = is_string d v.
Proof. by destruct v. Qed.

Lemma occurrences_json (d : string) (ds : list value) :
  occurrences_of d (json <$> ds) = occurrences_of d ds.
Proof.
  unfold occurrences_of. induction ds as [|v ds IH]; [done|].
  simpl. rewrite is_string_json. destruct (is_string d v); simpl; [f_equal|]; exact IH.
Qed.

Lemma occurrences_app (d : string) (l1 l2 : list value) :
  occurrences_of d (l1 ++ l2) = (occurrences_of d l1 + occurrences_of d l2)%nat.
Proof. unfold occurrences_of. by rewrite List.filter_app, length_app. Qed.

(** The linear scan finds the domain exactly when it occurs. *)
Lemma includes_occurrences (d : string) (ds : list value) :
  includes ds (VStr d) = negb (occurrences_of d ds =? 0)%nat.
Proof.
  unfold includes, occurrences_of. induction ds as [|v ds IH]; [done|].
  simpl. rewrite IH. destruct v; simpl; try done.
  rewrite String.eqb_sym. by destruct (String.eqb s d).
Qed.

Section Stats.
Variable dirname : list string.

Lemma save_user_Ret (req : request) (id : string) (proxyConfig domains : value)
    (w w' : world) (u : unit) :
  save_user dirname req id proxyConfig domains w = Ret u w' →
  requests (analyticsStore w') = requests (analyticsStore w) ∧
  errors (analyticsStore w') = errors (analyticsStore w) ∧
  events (analyticsStore w') = events (analyticsStore w).
Proof.
  unfold save_user. destruct (truthy proxyConfig); [|by intros [= _ <-]].
  intros H. step H as userData w1 H1. apply load_or_Ret in H1 as [-> _].
  step H as t w2 H2. apply now_Ret in H2 as (_ & _ & Hs2 & _ & _).
  destruct userData as [| | | | | | |o|]; try discriminate.
  step H as u3 w3 H3. apply write_json_Ret in H3 as (doc & _ & _ & Hs3 & _).
  unfold set_user, bind, get_store, put_store in H. injection H as _ <-. simpl.
  by rewrite Hs3, Hs2.
Qed.

(** An acknowledged POST /api/stats rewrote the client's Stats Record, with
    the domain noted, and mirrored the body into the requests mapping. *)
Lemma stats_ack_inv (req : request) (w w' : world) :
  post_stats dirname req w = Some (ack, w') →
  ∃ id s0 s3,
    prop (body req) "extensionId" = VStr id ∧
    (fs w !! segs (stat_file dirname id) = Some (File (VObj s0)) ∨
     (fs w !! segs (stat_file dirname id) = None ∧ VObj s0 = init_stats)) ∧
    fs w' !! segs (stat_file dirname id) = Some (File (json (VObj s3))) ∧
    prop (VObj s3) "domains" =
      domains_after (prop (body req) "domain") (prop (VObj s0) "domains") ∧
    requests (analyticsStore w') =
      push_at id [body req] (ensure_key id (requests (analyticsStore w))) ∧
    errors (analyticsStore w') = errors (analyticsStore w) ∧
    events (analyticsStore w') = events (analyticsStore w).
Proof.
  intros H. apply handle_Json in H. unfold stats_body in H.
  step H as u0 w0 H0. apply destructure_Ret in H0 as [_ ->].
  destruct (truthy (prop (body req) "extensionId")); [|discriminate]. simpl in H.
  step H as id w1 H1. apply path_arg_Ret in H1 as [Hid ->].
  step H as u2 w2 H2. pose proof (ensure_dir_frame _ _ _ _ H2) as Hframe.
  apply ensure_dir_Ret in H2 as (Hs2 & _ & _).
  step H as stats w3 H3.
  destruct stats as [| | | | | | |s0|]; try discriminate.
  step H as n w4 H4. apply incremented_Ret in H4 as ->.
  step H as s2 w5 H5. apply note_domain_Ret in H5 as [-> Hdom].
  step H as s3 w6 H6. apply note_proxy_Ret in H6 as (Hf6 & Hs6 & Hdom6).
  step H as u7 w7 H7. apply save_user_Ret in H7 as (Hr7 & He7 & Hv7).
  step H as u8 w8 H8.
  apply write_json_Ret in H8 as (doc & Hdoc & Hf8 & Hs8 & _ & _ & Hvalid & Htrail).
  apply load_or_node in H3 as [-> Hold]; [|done..].
  unfold ensure_requests, push_request, bind, get_store, put_store in H.
  injection H as <-.
  exists id, s0, s3. fold (stat_file dirname id) in *.
  split; [done|]. split; [|split; [|split; [|split; [|split]]]].
  - destruct (Hframe (segs (stat_file dirname id))) as [Hq|[Hq1 Hq2]].
    + rewrite Hq in Hold. destruct Hold as [Hold|[Hold1 Hold2]]; [by left|]. by right.
    + rewrite Hq2 in Hold. destruct Hold as [Hold|[Hold _]]; discriminate.
  - simpl. rewrite Hf8, lookup_insert_eq. simpl in Hdoc. by injection Hdoc as <-.
  - rewrite Hdom6, Hdom. simpl. by rewrite assoc_set_ne.
  - simpl. by rewrite Hs8, Hr7, Hs6, Hs2.
  - simpl. by rewrite Hs8, He7, Hs6, Hs2.
  - simpl. by rewrite Hs8, Hv7, Hs6, Hs2.
Qed.


(** C5, amended.  Two successive acknowledged POST /api/stats calls of one
    client with the same non-empty domain string, on a Stats Record that is
    absent or whose domains list holds that domain at most once, leave the
    persisted record with exactly one occurrence of the domain; the second
    call leaves the list as the first one wrote it. *)
Theorem same_domain_twice (req1 req2 : request) (id d : string) (w w1 w2 : world) :
  prop (body req1) "extensionId" = VStr id →
  prop (body req2) "extensionId" = VStr id →
  prop (body req1) "domain" = VStr d →
  prop (body req2) "domain" = VStr d →
  d ≠ "" →
  (fs w !! segs (stat_file dirname id) = None ∨
   ∃ s ds, fs w !! segs (stat_file dirname id) = Some (File (VObj s)) ∧
           prop (VObj s) "domains" = VArr ds ∧ (occurrences_of d ds ≤ 1)%nat) →
  post_stats dirname req1 w = Some (ack, w1) →
  post_stats dirname req2 w1 = Some (ack, w2) →
  ∃ rec1 rec2 ds,
    fs w1 !! segs (stat_file dirname id) = Some (File rec1) ∧
    prop rec1 "domains" = VArr ds ∧
    fs w2 !! segs (stat_file dirname id) = Some (File rec2) ∧
    prop rec2 "domains" = VArr ds ∧
    occurrences_of d ds = 1%nat.
Proof.
  intros Hid1 Hid2 Hd1 Hd2 Hne Hpre H1 H2.
  assert (truthy (VStr d) = true) as Htruthy.
  { simpl. by apply String.eqb_neq in Hne as ->. }
  apply stats_ack_inv in H1 as (id1 & s0 & s3 & Hid1' & Hold1 & Hnew1 & Hdom1 & _).
  apply stats_ack_inv in H2 as (id2 & s0' & s3' & Hid2' & Hold2 & Hnew2 & Hdom2 & _).
  rewrite Hid1 in Hid1'. injection Hid1' as <-.
  rewrite Hid2 in Hid2'. injection Hid2' as <-.
  rewrite Hd1 in Hdom1. rewrite Hd2 in Hdom2.
  assert (∃ ds0, prop (VObj s0) "domains" = VArr ds0 ∧ (occurrences_of d ds0 ≤ 1)%nat)
    as (ds0 & Hds0 & Hocc0).
  { destruct Hold1 as [Hold1|[Hold1 Hinit]].
    - destruct Hpre as [Hpre|(s & ds & Hs & Hds & Hocc)]; [congruence|].
      rewrite Hs in Hold1. injection Hold1 as ->. eauto.
    - injection Hinit as ->. exists []. split; [done|]. unfold occurrences_of. simpl. lia. }
  rewrite Hds0 in Hdom1. unfold domains_after in Hdom1. rewrite Htruthy in Hdom1.
  set (ds1 := if includes ds0 (VStr d) then ds0 else ds0 ++ [VStr d]).
  assert (prop (VObj s3) "domains" = VArr ds1) as Hds1.
  { rewrite Hdom1. unfold ds1. by destruct (includes ds0 (VStr d)). }
  assert (occurrences_of d ds1 = 1%nat) as Hocc1.
  { unfold ds1. rewrite includes_occurrences.
    destruct (occurrences_of d ds0 =? 0)%nat eqn:E; simpl.
    - apply Nat.eqb_eq in E. rewrite occurrences_app, E. unfold occurrences_of. simpl.
      by rewrite String.eqb_refl.
    - apply Nat.eqb_neq in E. lia. }
  clear Hdom1.
  destruct Hold2 as [Hold2|[Hold2 _]]; [|congruence].
  assert (VObj s0' = json (VObj s3)) as Hs0' by congruence.
  assert (prop (VObj s0') "domains" = VArr (json <$> ds1)) as Hds1'.
  { rewrite Hs0'. by apply (prop_json s3 "domains" (VArr ds1)). }
  rewrite Hds1' in Hdom2. unfold domains_after in Hdom2. rewrite Htruthy in Hdom2.
  rewrite includes_occurrences, occurrences_json, Hocc1 in Hdom2. simpl in Hdom2.
  exists (json (VObj s3)), (json (VObj s3')), (json <$> ds1).
  split; [done|]. split; [by rewrite <- Hs0'|]. split; [done|]. split.
  - rewrite (prop_json s3' "domains" (VArr (json <$> ds1))); [|done..].
    simpl. f_equal. rewrite <- list_fmap_compose. apply list_fmap_ext.
    intros i x _. apply json_idem.
  - by rewrite occurrences_json.
Qed.

End Stats.

(** ** The users map *)

Lemma length_assoc_set {A} (k : string) (v : A) (l : list (string * A)) :
  length (assoc_set k v l) = if has_key k l then length l else S (length l).
Proof.
  unfold has_key. induction l as [|[k' v'] l IH]; simpl; [done|].
  destruct (String.eqb k k'); simpl; [done|]. rewrite IH. by destruct (assoc k l).
Qed.

Section Users.
Variable dirname : list string.

(** What [if (proxyConfig) { ... }] does to the users map. *)
Lemma save_user_users (req : request) (id : string) (proxyConfig domains : value)
    (w w' : world) (u : unit) :
  save_user dirname req id proxyConfig domains w = Ret u w' →
  if truthy proxyConfig
  then ∃ userData, users (analyticsStore w') = JsMap.set id userData (users (analyticsStore w))
  else users (analyticsStore w') = users (analyticsStore w).
Proof.
  unfold save_user. destruct (truthy proxyConfig); [|by intros [= _ <-]].
  intros H. step H as userData w1 H1. apply load_or_Ret in H1 as [-> _].
  step H as t w2 H2. apply now_Ret in H2 as (_ & _ & Hs2 & _ & _).
  destruct userData as [| | | | | | |o|]; try discriminate.
  step H as u3 w3 H3. apply write_json_Ret in H3 as (doc & _ & _ & Hs3 & _).
  unfold set_user, bind, get_store, put_store in H. injection H as _ <-. simpl.
  eexists. by rewrite Hs3, Hs2.
Qed.

(** An acknowledged POST /api/stats puts its client into the users map when
    the body carries a truthy [proxyConfig], and leaves the map alone when it
    does not. *)
Lemma stats_users (req : request) (w w' : world) :
  post_stats dirname req w = Some (ack, w') →
  ∃ id, prop (body req) "extensionId" = VStr id ∧
        if truthy (prop (body req) "proxyConfig")
        then ∃ userData,
               users (analyticsStore w') = JsMap.set id userData (users (analyticsStore w))
        else users (analyticsStore w') = users (analyticsStore w).
Proof.
  intros H. apply handle_Json in H. unfold stats_body in H.
  step H as u0 w0 H0. apply destructure_Ret in H0 as [_ ->].
  destruct (truthy (prop (body req) "extensionId")); [|discriminate]. simpl in H.
  step H as id w1 H1. apply path_arg_Ret in H1 as [Hid ->].
  step H as u2 w2 H2. apply ensure_dir_Ret in H2 as (Hs2 & _ & _).
  step H as stats w3 H3. apply load_or_Ret in H3 as [-> _].
  destruct stats as [| | | | | | |s0|]; try discriminate.
  step H as n w4 H4. apply incremented_Ret in H4 as ->.
  step H as s2 w5 H5. apply note_domain_Ret in H5 as [-> _].
  step H as s3 w6 H6. apply note_proxy_Ret in H6 as (_ & Hs6 & _).
  step H as u7 w7 H7. apply save_user_users in H7.
  step H as u8 w8 H8. apply write_json_Ret in H8 as (doc & _ & _ & Hs8 & _).
  unfold ensure_requests, push_request, bind, get_store, put_store in H.
  injection H as <-. exists id. split; [done|]. simpl. rewrite Hs8.
  destruct (truthy (prop (body req) "proxyConfig")).
  - destruct H7 as [userData ->]. exists userData. by rewrite Hs6, Hs2.
  - by rewrite H7, Hs6, Hs2.
Qed.

(** A process starts with an empty aggregator. *)
Lemma boot_store (disk : gmap (list string) node) (t : Z) (ts : list Z) (w : world) :
  boot dirname disk t ts = Some w → analyticsStore w = empty_store.
Proof.
  unfold boot. intros H.
  destruct (bind _ _ _) as [u w3| |] eqn:E; [|discriminate..]. injection H as <-.
  step E as u1 w1 H1. step E as u2 w2 H2.
  apply ensure_dir_Ret in H1 as (Hs1 & _). apply ensure_dir_Ret in H2 as (Hs2 & _).
  apply ensure_dir_Ret in E as (Hs3 & _). by rewrite Hs3, Hs2, Hs1.
Qed.

End Users.

(** ** The aggregator's sequences *)

Lemma push_ensure (id : string) (xs : list value) (m : JsMap.t (list value)) :
  push_at id xs (ensure_key id m) = append_at id xs m.
Proof.
  unfold push_at, ensure_key, JsMap.has, JsMap.get, JsMap.set, has_key.
  induction m as [|[k v] m IH]; simpl.
  - by rewrite String.eqb_refl.
  - destruct (String.eqb id k) eqn:E; simpl.
    + rewrite E. by apply String.eqb_eq in E as ->.
    + destruct (assoc id m) as [arr|] eqn:Ea; simpl in *; rewrite ?E; simpl; rewrite ?E.
      * rewrite Ea in *. simpl. rewrite ?E. by rewrite <- IH.
      * rewrite assoc_set_eq in *. simpl. rewrite ?E. by rewrite <- IH.
Qed.

Lemma append_at_get (id : string) (xs : list value) (m : JsMap.t (list value)) :
  JsMap.get id (append_at id xs m) = Some (default [] (JsMap.get id m) ++ xs).
Proof.
  unfold JsMap.get. induction m as [|[k v] m IH]; simpl.
  - by rewrite String.eqb_refl.
  - destruct (String.eqb id k) eqn:E; simpl; rewrite E; [done|]. apply IH.
Qed.

Lemma append_at_get_ne (id id' : string) (xs : list value) (m : JsMap.t (list value)) :
  id' ≠ id → JsMap.get id' (append_at id xs m) = JsMap.get id' m.
Proof.
  intros Hne. unfold JsMap.get. induction m as [|[k v] m IH]; simpl.
  - by apply String.eqb_neq in Hne as ->.
  - destruct (String.eqb id k) eqn:E; simpl.
    + apply String.eqb_eq in E as ->. by apply String.eqb_neq in Hne as ->.
    + by rewrite IH.
Qed.

Lemma fold_length_acc (m : JsMap.t (list value)) (a : Z) :
  fold_left (λ acc arr, acc + Z.of_nat (length arr)) (JsMap.values m) a = a + held m.
Proof.
  revert a. induction m as [|[k x] m IH]; intros a; simpl; [lia|].
  rewrite IH. lia.
Qed.

(** The [reduce] of the dashboard is the sum of the lengths. *)
Lemma total_length_held (m : JsMap.t (list value)) : total_length m = held m.
Proof. unfold total_length. by rewrite fold_length_acc. Qed.

Lemma append_at_held (id : string) (xs : list value) (m : JsMap.t (list value)) :
  held (append_at id xs m) = held m + Z.of_nat (length xs).
Proof.
  induction m as [|[k v] m IH]; simpl.
  - lia.
  - destruct (String.eqb id k); simpl; rewrite ?length_app; lia.
Qed.

(** ** The dashboard *)

Section Dashboard.
Variable dirname : list string.

(** What an answering dashboard reports, field by field. *)
Lemma dashboard_inv (w w' : world) (d : dashboard) :
  get_dashboard dirname w = Some (Summary d, w') →
  ∃ names w1 w2 domainStats,
    readdirSync (fs w) (USERS_DIR dirname) = Some names ∧
    totalUsers d = Z.of_nat (length names) ∧
    totalRequests d = total_length (requests (analyticsStore w)) ∧
    totalErrors d = total_length (errors (analyticsStore w)) ∧
    for_each (for_each tally_domain) (JsMap.values (requests (analyticsStore w))) [] w1
      = Ret domainStats w2 ∧
    topDomains d = top10 domainStats.
Proof.
  intros H. apply handle_Summary in H. unfold dashboard_body in H.
  step H as w0 w0' H0. injection H0 as <- <-.
  destruct (readdirSync (fs w) (USERS_DIR dirname)) as [names|]; [|discriminate].
  step H as active w1 H1. step H as proxies w2 H2. step H as domainStats w3 H3.
  step H as recent w4 H4. injection H as <- _.
  exists names, w2, w3, domainStats. done.
Qed.

End Dashboard.

(** ** Analytics ingestion *)

Lemma spread_Ret (v : value) (xs : list value) (w w' : world) :
  spread v w = Ret xs w' → w' = w ∧ ∀ l, v = VArr l → xs = l.
Proof.
  destruct v; try discriminate; intros [= <- <-]; split; try done.
  by intros l' [= ->].
Qed.

(** The batch branch, when it gets through: every truthy field was spread
    into its mapping. *)
Lemma route_batch_Ret (id : string) (data : value) (w w' : world) (u : unit) :
  route_batch id data w = Ret u w' →
  nullish data = false ∧ fs w' = fs w ∧
  (∀ rs, prop data "requests" = VArr rs →
     requests (analyticsStore w') = append_at id rs (requests (analyticsStore w))) ∧
  (∀ es, prop data "errors" = VArr es →
     errors (analyticsStore w') = append_at id es (errors (analyticsStore w))).
Proof.
  unfold route_batch. destruct (nullish data); [discriminate|].
  intros H. step H as u1 w1 H1. split; [done|].
  assert (fs w1 = fs w ∧ errors (analyticsStore w1) = errors (analyticsStore w) ∧
          ∀ rs, prop data "requests" = VArr rs →
            requests (analyticsStore w1) = append_at id rs (requests (analyticsStore w)))
    as (Hf1 & He1 & Hr1).
  { destruct (truthy (prop data "requests")) eqn:E.
    - step H1 as u2 w2 H2. step H1 as xs w3 H3.
      apply spread_Ret in H3 as [-> Hxs].
      unfold ensure_requests, push_request, bind, get_store, put_store in *.
      injection H2 as _ <-. injection H1 as _ <-. simpl.
      split; [done|]. split; [done|]. intros rs Hrs. rewrite (Hxs _ Hrs).
      apply push_ensure.
    - injection H1 as _ <-. split; [done|]. split; [done|].
      intros rs Hrs. by rewrite Hrs in E. }
  destruct (truthy (prop data "errors")) eqn:E.
  - step H as u2 w2 H2. step H as xs w3 H3.
    apply spread_Ret in H3 as [-> Hxs].
    unfold ensure_errors, push_error, bind, get_store, put_store in *.
    injection H2 as _ <-. injection H as _ <-. simpl.
    split; [done|]. split; [done|]. intros es Hes. rewrite (Hxs _ Hes), He1.
    apply push_ensure.
  - injection H as _ <-. split; [done|]. split; [done|].
    intros es Hes. by rewrite Hes in E.
Qed.

Section Analytics.
Variable dirname : list string.

Lemma persist_event_Ret (req : request) (id : string) (w w' : world) (u : unit) :
  persist_event dirname req id w = Ret u w' → analyticsStore w' = analyticsStore w.
Proof.
  unfold persist_event. intros H. step H as u1 w1 H1.
  apply ensure_dir_Ret in H1 as (Hs1 & _ & _).
  destruct (to_string (prop (body req) "type")); [|discriminate].
  step H as t w2 H2. apply now_Ret in H2 as (_ & _ & Hs2 & _ & _).
  step H as t' w3 H3. apply now_Ret in H3 as (_ & _ & Hs3 & _ & _).
  apply write_json_Ret in H as (doc & _ & _ & Hs4 & _). congruence.
Qed.

(** An acknowledged POST /api/analytics persisted its event and routed it. *)
Lemma analytics_ack_inv (req : request) (w w' : world) :
  post_analytics dirname req w = Some (ack_received, w') →
  ∃ id w1,
    prop (body req) "extensionId" = VStr id ∧
    persist_event dirname req id w = Ret tt w1 ∧
    route id (prop (body req) "type") (prop (body req) "data") w1 = Ret tt w'.
Proof.
  intros H. apply handle_Json in H. unfold analytics_body in H.
  step H as u0 w0 H0. apply destructure_Ret in H0 as [_ ->].
  destruct (truthy (prop (body req) "extensionId")); [|discriminate]. simpl in H.
  step H as id w1 H1. apply path_arg_Ret in H1 as [Hid ->].
  step H as u2 w2 H2. step H as u3 w3 H3. injection H as <-.
  destruct u2, u3. by exists id, w2.
Qed.

(** An acknowledged batch appended its arrays, and the dashboard's totals
    grew by their lengths. *)
Lemma batch_appends (req : request) (w w' : world) (id : string) :
  prop (body req) "extensionId" = VStr id →
  prop (body req) "type" = VStr "batch" →
  post_analytics dirname req w = Some (ack_received, w') →
  let data := prop (body req) "data" in
  (∀ rs, prop data "requests" = VArr rs →
     JsMap.get id (requests (analyticsStore w')) =
       Some (default [] (JsMap.get id (requests (analyticsStore w))) ++ rs) ∧
     ∀ d d' v v', get_dashboard dirname w = Some (Summary d, v) →
                  get_dashboard dirname w' = Some (Summary d', v') →
                  totalRequests d' = totalRequests d + Z.of_nat (length rs)) ∧
  (∀ es, prop data "errors" = VArr es →
     JsMap.get id (errors (analyticsStore w')) =
       Some (default [] (JsMap.get id (errors (analyticsStore w))) ++ es) ∧
     ∀ d d' v v', get_dashboard dirname w = Some (Summary d, v) →
                  get_dashboard dirname w' = Some (Summary d', v') →
                  totalErrors d' = totalErrors d + Z.of_nat (length es)).
Proof.
  intros Hid Hty H data.
  apply analytics_ack_inv in H as (id' & w1 & Hid' & Hpersist & Hroute).
  rewrite Hid in Hid'. injection Hid' as <-.
  apply persist_event_Ret in Hpersist as Hs1.
  rewrite Hty in Hroute. unfold route in Hroute. simpl in Hroute.
  apply route_batch_Ret in Hroute as (_ & _ & Hrs & Hes).
  rewrite Hs1 in Hrs, Hes. split.
  - intros rs Hreq. rewrite (Hrs rs Hreq). split; [apply append_at_get|].
    intros d d' v v' Hd Hd'.
    apply dashboard_inv in Hd as (? & ? & ? & ? & _ & _ & -> & _).
    apply dashboard_inv in Hd' as (? & ? & ? & ? & _ & _ & -> & _).
    rewrite !total_length_held, (Hrs rs Hreq). apply append_at_held.
  - intros es Herr. rewrite (Hes es Herr). split; [apply append_at_get|].
    intros d d' v v' Hd Hd'.
    apply dashboard_inv in Hd as (? & ? & ? & ? & _ & _ & _ & -> & _).
    apply dashboard_inv in Hd' as (? & ? & ? & ? & _ & _ & _ & -> & _).
    rewrite !total_length_held, (Hes es Herr). apply append_at_held.
Qed.


Lemma spread_total (v : value) (w : world) :
  spreadable v = true → truthy v = true → ∃ xs, spread v w = Ret xs w.
Proof.
  unfold spreadable. intros Hs Ht. rewrite Ht in Hs. simpl in Hs.
  destruct v; try discriminate; simpl; eauto.
Qed.

Lemma route_total (id : string) (type data : value) (w : world) :
  routable type data = true →
  ∃ w', route id type data w = Ret tt w' ∧ fs w' = fs w ∧
        (is_string "request" type || is_string "error" type || is_string "batch" type = false
         → w' = w).
Proof.
  unfold routable, route. intros Hr.
  destruct (is_string "request" type) eqn:Ereq; simpl.
  { eexists. split; [reflexivity|]. split; [done|]. discriminate. }
  destruct (is_string "error" type) eqn:Eerr; simpl.
  { eexists. split; [reflexivity|]. split; [done|]. discriminate. }
  destruct (is_string "batch" type) eqn:Ebat; simpl.
  2: { exists w. done. }
  apply andb_true_iff in Hr as [Hr Herrs]. apply andb_true_iff in Hr as [Hnn Hreqs].
  unfold route_batch. apply negb_true_iff in Hnn. rewrite Hnn.
  assert (∃ w1, (if truthy (prop data "requests")
                 then bind (ensure_requests id)
                        (λ _, bind (spread (prop data "requests")) (λ xs, push_request id xs))
                 else ret tt) w = Ret tt w1 ∧ fs w1 = fs w) as (w1 & H1 & Hf1).
  { destruct (truthy (prop data "requests")) eqn:E; [|by exists w].
    unfold bind at 1. unfold ensure_requests at 1. unfold bind at 1. simpl.
    unfold bind at 1.
    destruct (spread_total (prop data "requests")
                (with_store {| requests := ensure_key id (requests (analyticsStore w));
                               errors := errors (analyticsStore w);
                               events := events (analyticsStore w);
                               users := users (analyticsStore w) |} w) Hreqs E)
      as (xs & ->).
    eexists. split; [reflexivity|]. done. }
  unfold bind at 1. rewrite H1.
  destruct (truthy (prop data "errors")) eqn:E.
  - unfold bind at 1. unfold ensure_errors at 1. unfold bind at 1. simpl.
    unfold bind at 1.
    destruct (spread_total (prop data "errors")
                (with_store {| requests := requests (analyticsStore w1);
                               errors := ensure_key id (errors (analyticsStore w1));
                               events := events (analyticsStore w1);
                               users := users (analyticsStore w1) |} w1) Herrs E)
      as (xs & ->).
    eexists. split; [reflexivity|]. split; [done|]. discriminate.
  - exists w1. split; [done|]. split; [done|]. discriminate.
Qed.

(** C7, amended.  A POST /api/analytics call with a non-empty string
    [extensionId] whose event file has been persisted is answered with the
    success acknowledgement when its type is "request", "error" or anything
    outside the three cases, and also when it is "batch" and [data] is
    present with [requests] and [errors] each falsy, an array or a string.
    A type outside the three cases leaves the in-memory aggregator as it
    was. *)
Theorem analytics_acknowledged (req : request) (id : string) (w w1 : world) :
  prop (body req) "extensionId" = VStr id →
  id ≠ "" →
  persist_event dirname req id w = Ret tt w1 →
  routable (prop (body req) "type") (prop (body req) "data") = true →
  ∃ w', post_analytics dirname req w = Some (ack_received, w') ∧
        fs w' = fs w1 ∧
        (is_string "request" (prop (body req) "type")
         || is_string "error" (prop (body req) "type")
         || is_string "batch" (prop (body req) "type") = false →
         analyticsStore w' = analyticsStore w).
Proof.
  intros Hid Hne Hpersist Hroutable.
  destruct (route_total id _ _ w1 Hroutable) as (w' & Hroute & Hfs & Hsame).
  exists w'. split; [|split; [done|]].
  - unfold post_analytics, handle, analytics_body.
    assert (nullish (body req) = false) as Hb.
    { destruct (body req); try discriminate; done. }
    unfold bind at 1. unfold destructure. rewrite Hb. simpl.
    rewrite Hid. simpl. apply String.eqb_neq in Hne as ->. simpl.
    unfold bind at 1. simpl. unfold bind at 1. rewrite Hpersist.
    unfold bind at 1. rewrite Hroute. done.
  - intros Hnone. rewrite (Hsame Hnone). by apply persist_event_Ret in Hpersist.
Qed.

(** A failure to persist the event is answered with status 500. *)
Lemma analytics_persist_failure (req : request) (id : string) (e : exn) (w w1 : world) :
  prop (body req) "extensionId" = VStr id →
  id ≠ "" →
  persist_event dirname req id w = Raise e w1 →
  post_analytics dirname req w = Some (ServerError e, w1).
Proof.
  intros Hid Hne Hpersist.
  unfold post_analytics, handle, analytics_body.
  assert (nullish (body req) = false) as Hb.
  { destruct (body req); try discriminate; done. }
  unfold bind at 1. unfold destructure. rewrite Hb. simpl.
  rewrite Hid. simpl. apply String.eqb_neq in Hne as ->. simpl.
  unfold bind at 1. simpl. unfold bind at 1. by rewrite Hpersist.
Qed.

End Analytics.

(** ** Sorting and [Object.entries] *)

Section Sorting.
Context {A : Type} (le : A → A → bool).



Hypothesis le_total : ∀ a b, le a b = true ∨ le b a = true.
Hypothesis le_trans : ∀ a b c, le a b = true → le b c = true → le a c = true.



End Sorting.


(** ** The tally of domains *)

Lemma for_each_app {A S} (step : A → S → M S) (l1 l2 : list A) (o : S) (w : world) :
  for_each step (l1 ++ l2) o w = bind (for_each step l1 o) (for_each step l2) w.
Proof.
  revert o w. induction l1 as [|x l1 IH]; intros o w; simpl; [done|].
  unfold bind. destruct (step x o w) as [o1 w1| |]; [|done..].
  rewrite IH. done.
Qed.

Lemma for_each_concat {A S} (step : A → S → M S) (ls : list (list A)) (o : S) (w : world) :
  for_each (for_each step) ls o w = for_each step (List.concat ls) o w.
Proof.
  revert o w. induction ls as [|l ls IH]; intros o w; simpl; [done|].
  rewrite for_each_app. unfold bind. destruct (for_each step l o w); [|done..]. apply IH.
Qed.



Lemma assoc_elem_of {A} (k : string) (v : A) (l : list (string * A)) :
  assoc k l = Some v → (k, v) ∈ l.
Proof.
  induction l as [|[k' v'] l IH]; simpl; [discriminate|].
  destruct (String.eqb k k') eqn:E.
  - apply String.eqb_eq in E as ->. intros [= ->]. left.
  - intros H. right. by apply IH.
Qed.













Section TopDomains.
Variable dirname : list string.


End TopDomains.

(** ** Totals *)

Section Totals.
Variable dirname : list string.

(** An acknowledged call that appends one request payload makes the mapping
    hold one payload more. *)
Lemma appends_one_held (c : call) (w w' : world) :
  appends_one c = true →
  serve dirname c w = Some (acknowledgement c, w') →
  held (requests (analyticsStore w')) = held (requests (analyticsStore w)) + 1.
Proof.
  destruct c as [req|req|req| |req]; try discriminate; simpl; intros Hone H.
  - apply stats_ack_inv in H as (id & s0 & s3 & _ & _ & _ & _ & -> & _).
    rewrite push_ensure, append_at_held. done.
  - apply analytics_ack_inv in H as (id & w1 & _ & Hpersist & Hroute).
    apply persist_event_Ret in Hpersist as <-.
    unfold route in Hroute. rewrite Hone in Hroute.
    unfold ensure_requests, push_request, bind, get_store, put_store in Hroute.
    injection Hroute as <-. simpl. rewrite push_ensure, append_at_held. done.
Qed.

Lemma appends_one_run (cs : list call) (w w' : world) :
  Forall (λ c, appends_one c = true) cs →
  run dirname (Http <$> cs) w = Some (acknowledgement <$> cs, w') →
  held (requests (analyticsStore w')) =
    held (requests (analyticsStore w)) + Z.of_nat (length cs).
Proof.
  intros Hcs. revert w. induction Hcs as [|c cs Hc _ IH]; intros w; csimpl.
  - intros [= <-]. lia.
  - destruct (serve dirname c w) as [[r w1]|] eqn:E; [|discriminate].
    destruct (run dirname (Http <$> cs) w1) as [[rs w2]|] eqn:E'; [|discriminate].
    intros [= -> -> ->]. rewrite (IH _ E'), (appends_one_held _ _ _ Hc E). lia.
Qed.

(** The dashboard's [totalRequests] is the sum of the lengths, and counts the
    calls that appended one payload each. *)
Lemma total_requests_held :
  (∀ w w' d,
     get_dashboard dirname w = Some (Summary d, w') →
     totalRequests d = held (requests (analyticsStore w))) ∧
  (∀ cs w w' v d,
     requests (analyticsStore w) = JsMap.empty →
     Forall (λ c, appends_one c = true) cs →
     run dirname (Http <$> cs) w = Some (acknowledgement <$> cs, w') →
     get_dashboard dirname w' = Some (Summary d, v) →
     totalRequests d = Z.of_nat (length cs)).
Proof.
  assert (∀ w w' d,
     get_dashboard dirname w = Some (Summary d, w') →
     totalRequests d = held (requests (analyticsStore w))) as Hsum.
  { intros w w' d H.
    apply dashboard_inv in H as (? & ? & ? & ? & _ & _ & -> & _).
    apply total_length_held. }
  split; [exact Hsum|].
  intros cs w w' v d Hempty Hcs Hrun Hd.
  rewrite (Hsum _ _ _ Hd), (appends_one_run _ _ _ Hcs Hrun), Hempty. done.
Qed.

(** What an export that succeeds wrote: a snapshot whose [totalUsers] is the
    number of entries of the in-memory users mapping. *)
Lemma export_inv (req : request) (w w' : world) (file : jpath) :
  get_export dirname req w = Some (Download file, w') →
  ∃ doc, fs w' !! segs file = Some (File doc) ∧
         prop doc "totalUsers" = VNum (Z.of_nat (length (users (analyticsStore w)))).
Proof.
  intros H. apply handle_Download in H. unfold export_body in H.
  destruct (is_string _ _); [|discriminate]. simpl in H.
  step H as t w1 H1. apply now_Ret in H1 as (_ & _ & Hs1 & _ & _).
  step H as s w2 H2. injection H2 as <- <-.
  step H as t' w3 H3. apply now_Ret in H3 as (_ & _ & _ & _ & _).
  step H as u w4 H4. injection H as <- <-.
  apply write_json_Ret in H4 as (doc & Hdoc & Hf & _).
  exists doc. rewrite Hf, lookup_insert_eq. split; [done|].
  injection Hdoc as <-. by rewrite Hs1.
Qed.

End Totals.

(** ** When a call is acknowledged *)

Lemma writeFileSync_any (f : gmap (list string) node) (p : jpath) (doc doc' : value) :
  is_Some (writeFileSync f p doc) → writeFileSync f p doc' = Some (<[segs p := File doc']> f).
Proof.
  unfold writeFileSync. destruct (valid_path p && negb (trailing p)); [|by intros [? ?]].
  destruct (segs p) as [|s l] eqn:E; [by intros [? ?]|]. rewrite <- E.
  destruct (node_at f (removelast (segs p))) as [[]|]; try by intros [? ?].
  destruct (node_at f (segs p)) as [[]|]; try by intros [? ?]. all: done.
Qed.

Section Acknowledged.
Variable dirname : list string.

(** The event of a call is persisted when the client's analytics directory is
    there, the type has a text, and the file named after type and time can be
    written. *)
Lemma persist_event_succeeds (req : request) (id text : string) (w : world) :
  to_string (prop (body req) "type") = Some text →
  existsSync (fs w) (path_join (LOGS_DIR dirname) [id; "analytics"]) = true →
  is_Some (writeFileSync (fs w)
             (path_join (path_join (LOGS_DIR dirname) [id; "analytics"])
                [text +:+ "_" +:+ dec (clock w + hd 0 (ticks w)) +:+ ".json"]) VNull) →
  ∃ w1, persist_event dirname req id w = Ret tt w1.
Proof.
  intros Htext Hdir Hfile. unfold persist_event, bind, ensure_dir.
  rewrite Hdir, Htext. simpl. unfold write_json. simpl.
  erewrite writeFileSync_any by exact Hfile. eauto.
Qed.

End Acknowledged.

(** * The claims, on every installation and on the concrete one *)

Example boot_fresh : boot demo_root ∅ 1700000000000 demo_ticks = Some fresh_world.
Proof. vm_compute. reflexivity. Qed.

Lemma demo_ticks_forward : Forall (λ d, 0 ≤ d) demo_ticks.
Proof. unfold demo_ticks. repeat (apply List.Forall_cons; [lia|]). apply List.Forall_nil. Qed.

(** C1, amended.  Whenever the dashboard answers with its summary, the
    [totalRequests] in it is the sum of the lengths of the per-client request
    sequences held in memory.  In particular, after N acknowledged ingestion
    calls that each append one request payload, made to a process whose
    requests mapping was empty, a dashboard that answers with its summary
    reports [totalRequests] = N however the calls are spread over clients;
    concretely, after five stats calls from two clients, split 3/2, it
    answers and reports 5. *)
Theorem total_requests_sum :
  (∀ dirname w w' d,
     get_dashboard dirname w = Some (Summary d, w') →
     totalRequests d = held (requests (analyticsStore w))) ∧
  (∀ dirname cs w w' v d,
     requests (analyticsStore w) = JsMap.empty →
     Forall (λ c, appends_one c = true) cs →
     run dirname (Http <$> cs) w = Some (acknowledgement <$> cs, w') →
     get_dashboard dirname w' = Some (Summary d, v) →
     totalRequests d = Z.of_nat (length cs)) ∧
  (run demo_root (Http <$> five_calls) fresh_world
     = Some (acknowledgement <$> five_calls, after_five) ∧
   length <$> JsMap.get "ext1" (requests (analyticsStore after_five)) = Some 3%nat ∧
   length <$> JsMap.get "ext2" (requests (analyticsStore after_five)) = Some 2%nat ∧
   get_dashboard demo_root after_five = Some (Summary five_summary, after_five) ∧
   totalRequests five_summary = 5).
Proof.
  split; [|split].
  - intros dirname. apply (total_requests_held dirname).
  - intros dirname. apply (total_requests_held dirname).
  - repeat split; vm_compute; reflexivity.
Qed.

Lemma total_requests_sum_witness :
  get_dashboard demo_root after_five = Some (Summary five_summary, after_five) ∧
  totalRequests five_summary = held (requests (analyticsStore after_five)) ∧
  totalRequests five_summary = Z.of_nat (length five_calls).
Proof.
  assert (get_dashboard demo_root after_five = Some (Summary five_summary, after_five))
    as Hd by (vm_compute; reflexivity).
  split; [exact Hd|]. split.
  - exact (proj1 total_requests_sum demo_root after_five after_five five_summary Hd).
  - apply (proj1 (proj2 total_requests_sum) demo_root five_calls fresh_world after_five
             after_five five_summary).
    + reflexivity.
    + repeat constructor.
    + vm_compute. reflexivity.
    + exact Hd.
Defined.

(** Against C1 as stated: one acknowledged ingestion call that appends one
    request payload -- an analytics event of type "request" without data,
    which appends [undefined] -- and the dashboard reports no [totalRequests]
    at all: the tally of domains throws on the payload and the call is
    answered with status 500.  Likewise after four acknowledged stats calls,
    the last with a [domain] that has no text: four payloads are held, and
    the dashboard answers with status 500. *)
Lemma appended_payload_blocks_dashboard :
  (appends_one (PostAnalytics bare_event) = true ∧
   run demo_root [Http (PostAnalytics bare_event)] fresh_world
     = Some ([acknowledgement (PostAnalytics bare_event)], after_bare_event) ∧
   JsMap.get "ext1" (requests (analyticsStore after_bare_event)) = Some [VUndef] ∧
   held (requests (analyticsStore after_bare_event)) = 1 ∧
   get_dashboard demo_root after_bare_event = Some (ServerError TypeError, after_bare_event) ∧
   status_of (ServerError TypeError) = 500) ∧
  (forallb appends_one textless_calls = true ∧
   run demo_root (Http <$> textless_calls) fresh_world
     = Some (acknowledgement <$> textless_calls, after_textless) ∧
   held (requests (analyticsStore after_textless)) = 4 ∧
   get_dashboard demo_root after_textless = Some (ServerError TypeError, after_textless)).
Proof. repeat split; vm_compute; reflexivity. Qed.




(** C3, amended.  For a POST /api/analytics call of type "batch" that the
    handler acknowledges: if [data.requests] is an array, its elements are
    appended in order to the client's in-memory requests sequence, and if
    [data.errors] is an array, its elements are appended to the client's
    errors sequence; the totals a dashboard reports after the call exceed
    those before it by the lengths of the two arrays.  Concretely, a batch
    with two requests and one error raises [totalRequests] by 2 and
    [totalErrors] by 1. *)
Theorem batch_fans_out :
  (∀ dirname req w w' id,
     prop (body req) "extensionId" = VStr id →
     prop (body req) "type" = VStr "batch" →
     post_analytics dirname req w = Some (ack_received, w') →
     let data := prop (body req) "data" in
     (∀ rs, prop data "requests" = VArr rs →
        JsMap.get id (requests (analyticsStore w')) =
          Some (default [] (JsMap.get id (requests (analyticsStore w))) ++ rs) ∧
        ∀ d d' v v', get_dashboard dirname w = Some (Summary d, v) →
                     get_dashboard dirname w' = Some (Summary d', v') →
                     totalRequests d' = totalRequests d + Z.of_nat (length rs)) ∧
     (∀ es, prop data "errors" = VArr es →
        JsMap.get id (errors (analyticsStore w')) =
          Some (default [] (JsMap.get id (errors (analyticsStore w))) ++ es) ∧
        ∀ d d' v v', get_dashboard dirname w = Some (Summary d, v) →
                     get_dashboard dirname w' = Some (Summary d', v') →
                     totalErrors d' = totalErrors d + Z.of_nat (length es))) ∧
  (get_dashboard demo_root fresh_world = Some (Summary fresh_summary, fresh_world) ∧
   post_analytics demo_root batch_request fresh_world = Some (ack_received, after_batch) ∧
   get_dashboard demo_root after_batch = Some (Summary batch_summary, after_batch) ∧
   totalRequests batch_summary = totalRequests fresh_summary + 2 ∧
   totalErrors batch_summary = totalErrors fresh_summary + 1).
Proof.
  split.
  - intros dirname. apply (batch_appends dirname).
  - repeat split; vm_compute; reflexivity.
Qed.

Lemma batch_fans_out_witness :
  post_analytics demo_root batch_request fresh_world = Some (ack_received, after_batch) ∧
  JsMap.get "ext1" (requests (analyticsStore after_batch)) =
    Some (default [] (JsMap.get "ext1" (requests (analyticsStore fresh_world)))
          ++ [VObj [("a", VNum 1)]; VObj [("b", VNum 2)]]) ∧
  JsMap.get "ext1" (errors (analyticsStore after_batch)) =
    Some (default [] (JsMap.get "ext1" (errors (analyticsStore fresh_world)))
          ++ [VObj [("e", VNum 1)]]).
Proof.
  assert (post_analytics demo_root batch_request fresh_world = Some (ack_received, after_batch))
    as H by (vm_compute; reflexivity).
  destruct (proj1 batch_fans_out demo_root batch_request fresh_world after_batch "ext1"
              eq_refl eq_refl H) as [Hrs Hes].
  split; [exact H|]. split.
  - exact (proj1 (Hrs _ eq_refl)).
  - exact (proj1 (Hes _ eq_refl)).
Defined.

(** Against C3 as stated: a batch whose [data.errors] is an array, sent with
    a valid [extensionId], and none of the array's elements reaches the
    errors sequence -- [data.requests] is the number 5, the spread throws and
    the call ends in a 500. *)
Lemma odd_batch_drops_errors :
  prop (body odd_batch_request) "extensionId" = VStr "ext1" ∧
  prop (body odd_batch_request) "type" = VStr "batch" ∧
  prop (prop (body odd_batch_request) "data") "errors" = VArr [VObj [("e", VNum 1)]] ∧
  post_analytics demo_root odd_batch_request fresh_world
    = Some (ServerError TypeError, after_odd_batch) ∧
  JsMap.get "ext1" (errors (analyticsStore after_odd_batch)) = None.
Proof. repeat split; vm_compute; reflexivity. Qed.

Lemma missing_extensionId_rejected_witness :
  status_of id_required = 400 ∧
  post_logs demo_root anonymous after_five = Some (id_required, after_five) ∧
  post_stats demo_root anonymous after_five = Some (id_required, after_five) ∧
  post_analytics demo_root anonymous after_five = Some (id_required, after_five).
Proof.
  apply (missing_extensionId_rejected demo_root anonymous after_five); reflexivity.
Defined.

Lemma same_domain_twice_witness :
  ∃ rec1 rec2 ds,
    fs after_one !! segs (stat_file demo_root "ext1") = Some (File rec1) ∧
    prop rec1 "domains" = VArr ds ∧
    fs after_two !! segs (stat_file demo_root "ext1") = Some (File rec2) ∧
    prop rec2 "domains" = VArr ds ∧
    occurrences_of "example.com" ds = 1%nat.
Proof.
  apply (same_domain_twice demo_root
           (client (VObj [("extensionId", VStr "ext1"); ("domain", VStr "example.com")]))
           (client (VObj [("extensionId", VStr "ext1"); ("domain", VStr "example.com")]))
           "ext1" "example.com" fresh_world after_one after_two).
  - reflexivity.
  - reflexivity.
  - reflexivity.
  - reflexivity.
  - discriminate.
  - left. vm_compute. reflexivity.
  - vm_compute. reflexivity.
  - vm_compute. reflexivity.
Defined.

(** Against C5 as stated: the empty string is a domain string, and after two
    successive acknowledged calls that submit it the persisted domains list
    holds it zero times, not once. *)
Lemma empty_domain_never_listed :
  post_stats demo_root (client (VObj [("extensionId", VStr "ext1"); ("domain", VStr "")]))
    fresh_world = Some (ack, after_one_empty) ∧
  post_stats demo_root (client (VObj [("extensionId", VStr "ext1"); ("domain", VStr "")]))
    after_one_empty = Some (ack, after_two_empty) ∧
  ∃ rec, fs after_two_empty !! segs (stat_file demo_root "ext1") = Some (File rec) ∧
         prop rec "domains" = VArr [] ∧
         occurrences_of "" [] = 0%nat.
Proof.
  split; [vm_compute; reflexivity|]. split; [vm_compute; reflexivity|].
  eexists. split; [vm_compute; reflexivity|]. split; reflexivity.
Qed.

Lemma log_entry_defaults_witness :
  ∃ id today old e,
    prop (body plain_log) "extensionId" = VStr id ∧
    clock fresh_world ≤ today ≤ clock after_plain_log ∧
    (fs fresh_world !! segs (day_file demo_root id today) = Some (File (VArr old)) ∨
     (fs fresh_world !! segs (day_file demo_root id today) = None ∧ old = [])) ∧
    fs after_plain_log !! segs (day_file demo_root id today)
      = Some (File (VArr ((json <$> old) ++ [e]))) ∧
    prop e "type" =
      (if truthy (prop (body plain_log) "type") then json (prop (body plain_log) "type")
       else VStr "info") ∧
    (if truthy (prop (body plain_log) "timestamp")
     then prop e "timestamp" = json (prop (body plain_log) "timestamp")
     else ∃ t, prop e "timestamp" = VNum t ∧ clock fresh_world ≤ t ≤ clock after_plain_log) ∧
    (is_json (prop (body plain_log) "type") = true →
       json (prop (body plain_log) "type") = prop (body plain_log) "type") ∧
    (is_json (prop (body plain_log) "timestamp") = true →
       json (prop (body plain_log) "timestamp") = prop (body plain_log) "timestamp").
Proof.
  apply (log_entry_defaults demo_root plain_log fresh_world after_plain_log).
  - exact demo_ticks_forward.
  - vm_compute. reflexivity.
Defined.

(** Against C6 as stated: the body supplies the timestamp 0 and the type "",
    and the entry appended carries neither -- it has the clock reading
    1700000000008 and the type "info"; and the body supplies the timestamp
    1e400, which is read as [Infinity], and the entry appended carries
    [null]. *)
Lemma supplied_falsy_values_not_used :
  (prop (body zero_log) "timestamp" = VNum 0 ∧
   prop (body zero_log) "type" = VStr "" ∧
   post_logs demo_root zero_log fresh_world = Some (ack_received, after_zero_log) ∧
   ∃ e, fs after_zero_log !! segs (day_file demo_root "ext1" 1700000000005)
          = Some (File (VArr [e])) ∧
        prop e "timestamp" = VNum 1700000000008 ∧
        prop e "type" = VStr "info") ∧
  (prop (body infinite_log) "timestamp" = VInf false ∧
   truthy (prop (body infinite_log) "timestamp") = true ∧
   post_logs demo_root infinite_log fresh_world = Some (ack_received, after_infinite_log) ∧
   ∃ e, fs after_infinite_log !! segs (day_file demo_root "ext1" 1700000000005)
          = Some (File (VArr [e])) ∧
        prop e "timestamp" = VNull).
Proof.
  split.
  - split; [reflexivity|]. split; [reflexivity|]. split; [vm_compute; reflexivity|].
    eexists. split; [vm_compute; reflexivity|]. split; reflexivity.
  - split; [reflexivity|]. split; [reflexivity|]. split; [vm_compute; reflexivity|].
    eexists. split; [vm_compute; reflexivity|]. reflexivity.
Qed.

Lemma analytics_acknowledged_witness :
  ∃ w', post_analytics demo_root custom_request fresh_world = Some (ack_received, w') ∧
        fs w' = fs after_custom ∧
        (is_string "request" (prop (body custom_request) "type")
         || is_string "error" (prop (body custom_request) "type")
         || is_string "batch" (prop (body custom_request) "type") = false →
         analyticsStore w' = analyticsStore fresh_world).
Proof.
  apply (analytics_acknowledged demo_root custom_request "ext1" fresh_world after_custom).
  - reflexivity.
  - discriminate.
  - vm_compute. reflexivity.
  - reflexivity.
Defined.

(** Against C7 as stated: two calls with a valid [extensionId] that are
    answered with status 500 -- an event whose type, outside the three cases,
    names a directory that does not exist, and a batch that carries no
    data. *)
Lemma analytics_can_fail :
  prop (body slash_request) "extensionId" = VStr "ext1" ∧
  post_analytics demo_root slash_request fresh_world
    = Some (ServerError FsError, after_slash) ∧
  prop (body empty_batch_request) "extensionId" = VStr "ext1" ∧
  post_analytics demo_root empty_batch_request fresh_world
    = Some (ServerError TypeError, after_empty_batch) ∧
  status_of (ServerError FsError) = 500 ∧ status_of (ServerError TypeError) = 500.
Proof. repeat split; vm_compute; reflexivity. Qed.

Lemma export_wrong_token_forbidden_witness :
  status_of forbidden = 403 ∧
  get_export demo_root intruder after_five = Some (forbidden, after_five).
Proof. apply (export_wrong_token_forbidden demo_root intruder after_five). discriminate. Defined.

Lemma falsy_values_defaulted_witness :
  (∃ id today old e,
     prop (body typeless_log) "extensionId" = VStr id ∧
     today = clock fresh_world + hd 0 (ticks fresh_world) ∧
     fs after_typeless_log !! segs (day_file demo_root id today)
       = Some (File (VArr ((json <$> old) ++ [e]))) ∧
     (truthy (prop (body typeless_log) "timestamp") = false →
        prop e "timestamp" = VNum (today + hd 0 (tl (ticks fresh_world))) ∧
        clock after_typeless_log = today + hd 0 (tl (ticks fresh_world))) ∧
     (truthy (prop (body typeless_log) "type") = false → prop e "type" = VStr "info")) ∧
  truthy (prop (body typeless_log) "timestamp") = true ∧
  truthy (prop (body typeless_log) "type") = false ∧
  (∃ id today old e,
     prop (body timeless_log) "extensionId" = VStr id ∧
     today = clock fresh_world + hd 0 (ticks fresh_world) ∧
     fs after_timeless_log !! segs (day_file demo_root id today)
       = Some (File (VArr ((json <$> old) ++ [e]))) ∧
     (truthy (prop (body timeless_log) "timestamp") = false →
        prop e "timestamp" = VNum (today + hd 0 (tl (ticks fresh_world))) ∧
        clock after_timeless_log = today + hd 0 (tl (ticks fresh_world))) ∧
     (truthy (prop (body timeless_log) "type") = false → prop e "type" = VStr "info")) ∧
  truthy (prop (body timeless_log) "timestamp") = false ∧
  truthy (prop (body timeless_log) "type") = true.
Proof.
  split; [|split; [reflexivity|split; [reflexivity|split; [|split; reflexivity]]]].
  - apply (falsy_values_defaulted demo_root typeless_log fresh_world after_typeless_log).
    vm_compute. reflexivity.
  - apply (falsy_values_defaulted demo_root timeless_log fresh_world after_timeless_log).
    vm_compute. reflexivity.
Defined.

(** C10.  The dashboard's [totalUsers] is the number of entries of the users
    directory, while the [totalUsers] of an export snapshot is the number of
    clients in the in-memory users map: an acknowledged stats call with a
    truthy [proxyConfig] adds its client to the map when it is not yet in it,
    no other stats call changes the map, and a process starts with an empty
    one.  The two counts can differ in one and the same state.  Two clients
    have their User Records written: the dashboard reports 2 and an export
    writes 2.  The process restarts: the dashboard reports 2 and an export
    writes 0.  The first client reports again: the dashboard reports 2 and an
    export writes 1. *)
Theorem user_counts_differ :
  (∀ dirname w w' d,
     get_dashboard dirname w = Some (Summary d, w') →
     ∃ names, readdirSync (fs w) (USERS_DIR dirname) = Some names ∧
              totalUsers d = Z.of_nat (length names)) ∧
  (∀ dirname req w w' file,
     get_export dirname req w = Some (Download file, w') →
     ∃ doc, fs w' !! segs file = Some (File doc) ∧
            prop doc "totalUsers" = VNum (Z.of_nat (length (users (analyticsStore w))))) ∧
  (∀ dirname req w w',
     post_stats dirname req w = Some (ack, w') →
     ∃ id, prop (body req) "extensionId" = VStr id ∧
           length (users (analyticsStore w')) =
             if truthy (prop (body req) "proxyConfig")
                && negb (JsMap.has id (users (analyticsStore w)))
             then S (length (users (analyticsStore w)))
             else length (users (analyticsStore w))) ∧
  (∀ dirname disk t ts w,
     boot dirname disk t ts = Some w → users (analyticsStore w) = []) ∧
  (run demo_root [Http (config_of "ext1" "proxy-a.example");
                  Http (config_of "ext2" "proxy-b.example")] fresh_world
     = Some ([ack; ack], after_configs) ∧
   get_dashboard demo_root after_configs = Some (Summary configs_summary, configs_seen) ∧
   totalUsers configs_summary = 2 ∧
   (λ doc, prop doc "totalUsers") <$> snapshot after_configs = Some (VNum 2)) ∧
  (run demo_root [Restart] after_configs = Some ([], after_restart) ∧
   get_dashboard demo_root after_restart = Some (Summary restart_summary, after_restart) ∧
   totalUsers restart_summary = 2 ∧
   get_export demo_root admin after_restart = Some (Download export_file, after_export) ∧
   ∃ doc, fs after_export !! segs export_file = Some (File doc) ∧
          prop doc "totalUsers" = VNum 0) ∧
  (run demo_root [Http (config_of "ext1" "proxy-c.example")] after_restart
     = Some ([ack], after_reconfig) ∧
   get_dashboard demo_root after_reconfig = Some (Summary reconfig_summary, reconfig_seen) ∧
   totalUsers reconfig_summary = 2 ∧
   (λ doc, prop doc "totalUsers") <$> snapshot after_reconfig = Some (VNum 1)).
Proof.
  split; [|split; [|split; [|split; [|split; [|split]]]]].
  - intros dirname w w' d H.
    apply dashboard_inv in H as (names & _ & _ & _ & Hnames & Htotal & _).
    by exists names.
  - intros dirname. apply (export_inv dirname).
  - intros dirname req w w' H. apply stats_users in H as (id & Hid & Hu).
    exists id. split; [done|].
    destruct (truthy (prop (body req) "proxyConfig")); simpl; [|by rewrite Hu].
    destruct Hu as [userData ->]. unfold JsMap.set, JsMap.has.
    rewrite length_assoc_set. by destruct (has_key id _).
  - intros dirname disk t ts w H. by rewrite (boot_store dirname _ _ _ _ H).
  - repeat split; vm_compute; reflexivity.
  - split; [vm_compute; reflexivity|]. split; [vm_compute; reflexivity|].
    split; [reflexivity|]. split; [vm_compute; reflexivity|].
    eexists. split; [vm_compute; reflexivity|]. reflexivity.
  - repeat split; vm_compute; reflexivity.
Qed.

Lemma user_counts_differ_witness :
  (∃ names, readdirSync (fs after_restart) (USERS_DIR demo_root) = Some names ∧
            totalUsers restart_summary = Z.of_nat (length names)) ∧
  (∃ doc, fs after_export !! segs export_file = Some (File doc) ∧
          prop doc "totalUsers"
            = VNum (Z.of_nat (length (users (analyticsStore after_restart))))).
Proof.
  split.
  - apply (proj1 user_counts_differ demo_root after_restart after_restart restart_summary).
    vm_compute. reflexivity.
  - apply (proj1 (proj2 user_counts_differ) demo_root admin after_restart after_export
             export_file).
    vm_compute. reflexivity.
Defined.

(** * Further properties of the code *)

(** ** Relations every step respects *)

Section Keeps.
Context (R : world → world → Prop) `{!Invariant R}.

Lemma keeps_ret {A} (a : A) : keeps R (ret a).
Proof. intros w. apply inv_refl. Qed.

Lemma keeps_raise {A} (e : exn) : keeps R (@raise A e).
Proof. intros w. apply inv_refl. Qed.

Lemma keeps_unmodelled {A} : keeps R (@unmodelled A).
Proof. by intros w. Qed.

Lemma keeps_bind {A B} (m : M A) (k : A → M B) :
  keeps R m → (∀ a, keeps R (k a)) → keeps R (bind m k).
Proof.
  intros Hm Hk w. unfold bind. specialize (Hm w).
  destruct (m w) as [a w1|e w1|]; [|done..].
  specialize (Hk a w1). destruct (k a w1); [| |done]; by eapply inv_trans.
Qed.

Lemma keeps_now : keeps R now.
Proof. intros w. apply inv_clock. Qed.

Lemma keeps_world : keeps R (λ w, Ret w w).
Proof. intros w. apply inv_refl. Qed.

Lemma keeps_get_store : keeps R get_store.
Proof. intros w. apply inv_refl. Qed.

Lemma keeps_load_or (f : jpath) (init : value) : keeps R (load_or f init).
Proof.
  intros w. unfold load_or. destruct (existsSync _ _); [|apply inv_refl].
  destruct (readFileSync _ _); apply inv_refl.
Qed.

Lemma keeps_for_each {A S} (step : A → S → M S) (l : list A) (o : S) :
  (∀ x s, keeps R (step x s)) → keeps R (for_each step l o).
Proof.
  intros Hstep. revert o. induction l as [|x l IH]; intros o; simpl.
  - apply keeps_ret.
  - apply keeps_bind; [apply Hstep|apply IH].
Qed.

End Keeps.

Create HintDb keeps.

Ltac keeps_step :=
  match goal with
  | |- keeps _ (bind _ _) => apply keeps_bind; [done| |intros ?]
  | |- keeps _ (ret _) => by apply keeps_ret
  | |- keeps _ (raise _) => by apply keeps_raise
  | |- keeps _ unmodelled => by apply keeps_unmodelled
  | |- keeps _ now => by apply keeps_now
  | |- keeps _ get_store => by apply keeps_get_store
  | |- keeps _ (load_or _ _) => by apply keeps_load_or
  | |- keeps _ (for_each _ _ _) => apply keeps_for_each; [done|intros ? ?]
  | |- keeps _ (if ?b then _ else _) => destruct b
  | |- keeps _ (match ?v with _ => _ end) => destruct v
  | |- keeps _ _ => solve [eauto with keeps]
  end.

Ltac keeps_all := cbv zeta; repeat (keeps_step; cbv zeta).

Section KeepsMore.
Context (R : world → world → Prop) `{!Invariant R}.

Lemma keeps_destructure (b : value) : keeps R (destructure b).
Proof. unfold destructure. keeps_all. Qed.

Lemma keeps_path_arg (v : value) : keeps R (path_arg v).
Proof. unfold path_arg. keeps_all. Qed.

Lemma keeps_incremented (v : value) : keeps R (incremented v).
Proof. unfold incremented. keeps_all. Qed.

Lemma keeps_note_domain (d : value) (s : list (string * value)) : keeps R (note_domain d s).
Proof. unfold note_domain. keeps_all. Qed.

Lemma keeps_note_proxy (p d t : value) (s : list (string * value)) :
  keeps R (note_proxy p d t s).
Proof. unfold note_proxy. keeps_all. Qed.

Lemma keeps_spread (v : value) : keeps R (spread v).
Proof. unfold spread. keeps_all. Qed.

Lemma keeps_tally (key : value) (o : list (string * count)) : keeps R (tally key o).
Proof. unfold tally. keeps_all. Qed.

Lemma keeps_tally_proxy (u : value) (o : list (string * count)) : keeps R (tally_proxy u o).
Proof. unfold tally_proxy. pose proof keeps_tally. keeps_all. Qed.

Lemma keeps_tally_domain (p : value) (o : list (string * count)) : keeps R (tally_domain p o).
Proof. unfold tally_domain. pose proof keeps_tally. keeps_all. Qed.

Lemma keeps_is_active (u : value) : keeps R (is_active u).
Proof. unfold is_active. keeps_all. Qed.

Lemma keeps_count_active (l : list value) : keeps R (count_active l).
Proof.
  induction l as [|u l IH]; simpl; [by apply keeps_ret|].
  pose proof keeps_is_active. keeps_all.
Qed.

Lemma keeps_sort_events (n : nat) (l : list value) : keeps R (sort_events n l).
Proof. unfold sort_events. keeps_all. Qed.

End KeepsMore.

Ltac keeps_leaf :=
  match goal with
  | |- keeps _ (destructure _) => apply keeps_destructure; tc_solve
  | |- keeps _ (path_arg _) => apply keeps_path_arg; tc_solve
  | |- keeps _ (incremented _) => apply keeps_incremented; tc_solve
  | |- keeps _ (note_domain _ _) => apply keeps_note_domain; tc_solve
  | |- keeps _ (note_proxy _ _ _ _) => apply keeps_note_proxy; tc_solve
  | |- keeps _ (spread _) => apply keeps_spread; tc_solve
  | |- keeps _ (tally_proxy _ _) => apply keeps_tally_proxy; tc_solve
  | |- keeps _ (tally_domain _ _) => apply keeps_tally_domain; tc_solve
  | |- keeps _ (tally _ _) => apply keeps_tally; tc_solve
  | |- keeps _ (count_active _) => apply keeps_count_active; tc_solve
  | |- keeps _ (sort_events _ _) => apply keeps_sort_events; tc_solve
  | |- keeps _ (λ w, Ret w w) => apply keeps_world; tc_solve
  end.

Ltac keeps_node :=
  match goal with
  | |- keeps _ (bind _ _) => apply keeps_bind; [try tc_solve..|intros ?]
  | |- keeps _ (ret _) => apply keeps_ret; tc_solve
  | |- keeps _ (raise _) => apply keeps_raise; tc_solve
  | |- keeps _ unmodelled => apply keeps_unmodelled; tc_solve
  | |- keeps _ now => apply keeps_now; tc_solve
  | |- keeps _ get_store => apply keeps_get_store; tc_solve
  | |- keeps _ (load_or _ _) => apply keeps_load_or; tc_solve
  | |- keeps _ (for_each _ _ _) => apply keeps_for_each; [try tc_solve..|intros ? ?]
  | |- keeps _ (if ?b then _ else _) => destruct b
  | |- keeps _ (match ?v with _ => _ end) => destruct v
  end.

Ltac keeps_auto := cbv zeta; repeat (first [keeps_node | keeps_leaf]; cbv zeta).

(** ** Nothing is lost *)

Lemma fs_kept_refl (f : gmap (list string) node) : fs_kept f f.
Proof. intros p. destruct (f !! p) as [[c|]|]; eauto. Qed.

Lemma fs_kept_trans (f1 f2 f3 : gmap (list string) node) :
  fs_kept f1 f2 → fs_kept f2 f3 → fs_kept f1 f3.
Proof.
  intros H12 H23 p. specialize (H12 p). specialize (H23 p).
  destruct (f1 !! p) as [[c|]|]; [| |done].
  - destruct H12 as [c' Hc']. by rewrite Hc' in H23.
  - by rewrite H12 in H23.
Qed.

Lemma grown_refl (m : JsMap.t (list value)) : grown m m.
Proof. intros id l Hl. exists []. by rewrite app_nil_r. Qed.

Lemma grown_trans (m1 m2 m3 : JsMap.t (list value)) :
  grown m1 m2 → grown m2 m3 → grown m1 m3.
Proof.
  intros H12 H23 id l Hl. destruct (H12 id l Hl) as [l1 Hl1].
  destruct (H23 id _ Hl1) as [l2 Hl2]. exists (l1 ++ l2). by rewrite app_assoc.
Qed.

Lemma memory_grows_refl (s : store) : memory_grows s s.
Proof. repeat split; auto using grown_refl. Qed.

Lemma memory_grows_trans (s1 s2 s3 : store) :
  memory_grows s1 s2 → memory_grows s2 s3 → memory_grows s1 s3.
Proof.
  intros (Hr & He & Hv & Hu) (Hr' & He' & Hv' & Hu').
  repeat split; eauto using grown_trans.
Qed.

#[export] Instance untouched_invariant : Invariant untouched.
Proof.
  split.
  - by intros w.
  - intros w1 w2 w3 [H1 H2] [H3 H4]. split; congruence.
  - by intros w t ts.
Qed.

#[export] Instance nothing_lost_invariant : Invariant nothing_lost.
Proof.
  split.
  - intros w. split; [apply fs_kept_refl|apply memory_grows_refl].
  - intros w1 w2 w3 [H1 H2] [H3 H4].
    split; [by eapply fs_kept_trans|by eapply memory_grows_trans].
  - intros w t ts. split; [apply fs_kept_refl|apply memory_grows_refl].
Qed.

(** The sequence of [id] after the two statements of an append. *)
Lemma append_at_grown (id : string) (xs : list value) (m : JsMap.t (list value)) :
  grown m (append_at id xs m).
Proof.
  intros id' l Hl. destruct (decide (id' = id)) as [->|Hne].
  - exists xs. by rewrite append_at_get, Hl.
  - exists []. by rewrite append_at_get_ne, app_nil_r.
Qed.

Lemma ensure_key_grown (id : string) (m : JsMap.t (list value)) : grown m (ensure_key id m).
Proof.
  intros id' l Hl. exists []. rewrite app_nil_r.
  unfold ensure_key, JsMap.has, JsMap.set, JsMap.get, has_key in *.
  destruct (assoc id m) eqn:E; [done|].
  rewrite assoc_set_ne; [done|]. intros ->. congruence.
Qed.

Lemma push_at_grown (id : string) (xs : list value) (m : JsMap.t (list value)) :
  grown m (push_at id xs m).
Proof.
  intros id' l Hl. unfold push_at, JsMap.get, JsMap.set in *.
  destruct (assoc id m) as [arr|] eqn:E; [|exists []; by rewrite app_nil_r].
  destruct (decide (id' = id)) as [->|Hne].
  - exists xs. rewrite assoc_set_eq. congruence.
  - exists []. by rewrite assoc_set_ne, app_nil_r.
Qed.

Lemma has_set {A} (id id' : string) (v : A) (m : JsMap.t A) :
  JsMap.has id m = true → JsMap.has id (JsMap.set id' v m) = true.
Proof.
  unfold JsMap.has, JsMap.set, has_key. intros H.
  destruct (decide (id = id')) as [->|Hne].
  - by rewrite assoc_set_eq.
  - by rewrite assoc_set_ne.
Qed.

Lemma keeps_ensure_dir (d : jpath) : keeps nothing_lost (ensure_dir d).
Proof.
  intros w. destruct (ensure_dir d w) as [u w'|e w'|] eqn:E; [| |done].
  - pose proof (ensure_dir_frame _ _ _ _ E) as Hframe.
    apply ensure_dir_Ret in E as (Hs & _ & _).
    split; [|rewrite Hs; apply memory_grows_refl].
    intros p. destruct (Hframe p) as [->|[-> _]]; [|done].
    destruct (fs w !! p) as [[c|]|]; eauto.
  - unfold ensure_dir in E. destruct (existsSync _ _); [discriminate|].
    destruct (mkdirSync _ _); [discriminate|]. injection E as _ <-.
    apply inv_refl.
Qed.

Lemma keeps_write_json (f : jpath) (v : value) : keeps nothing_lost (write_json f v).
Proof.
  intros w. unfold write_json. destruct (stringify v) as [doc|]; [|apply inv_refl].
  unfold writeFileSync.
  destruct (valid_path f && negb (trailing f)); [|apply inv_refl].
  destruct (segs f) as [|s l] eqn:E; [apply inv_refl|]. rewrite <- E.
  destruct (node_at (fs w) (removelast (segs f))) as [[]|]; try apply inv_refl.
  assert (fs w !! segs f = None ∨ (∃ c, fs w !! segs f = Some (File c)) →
          nothing_lost w (with_fs (<[segs f:=File doc]> (fs w)) w)) as Hok.
  { intros Hold. split; [|apply memory_grows_refl]. intros p. simpl.
    destruct (decide (segs f = p)) as [<-|Hne].
    - rewrite lookup_insert_eq. destruct Hold as [->|[c ->]]; eauto.
    - rewrite lookup_insert_ne by done. destruct (fs w !! p) as [[c|]|]; eauto. }
  unfold node_at. rewrite E. rewrite <- E.
  destruct (fs w !! segs f) as [[c|]|]; [apply Hok; eauto|apply inv_refl|apply Hok; eauto].
Qed.

Lemma keeps_put_store (s' : store → store) :
  (∀ s, memory_grows s (s' s)) →
  keeps nothing_lost (bind get_store (λ s, put_store (s' s))).
Proof. intros H w. split; [apply fs_kept_refl|apply H]. Qed.

Lemma keeps_push_event (id : string) (p : value) : keeps nothing_lost (push_event id p).
Proof.
  apply (keeps_put_store (λ s, {| requests := requests s; errors := errors s;
           events := push_at id [p] (ensure_key id (events s)); users := users s |})).
  intros s. repeat split; simpl; auto using grown_refl.
  rewrite push_ensure. apply append_at_grown.
Qed.

Lemma keeps_push_request (id : string) (ps : list value) :
  keeps nothing_lost (push_request id ps).
Proof.
  apply (keeps_put_store (λ s, {| requests := push_at id ps (requests s);
           errors := errors s; events := events s; users := users s |})).
  intros s. repeat split; simpl; auto using grown_refl, push_at_grown.
Qed.

Lemma keeps_ensure_requests (id : string) : keeps nothing_lost (ensure_requests id).
Proof.
  apply (keeps_put_store (λ s, {| requests := ensure_key id (requests s);
           errors := errors s; events := events s; users := users s |})).
  intros s. repeat split; simpl; auto using grown_refl, ensure_key_grown.
Qed.

Lemma keeps_push_error (id : string) (ps : list value) :
  keeps nothing_lost (push_error id ps).
Proof.
  apply (keeps_put_store (λ s, {| requests := requests s;
           errors := push_at id ps (errors s); events := events s; users := users s |})).
  intros s. repeat split; simpl; auto using grown_refl, push_at_grown.
Qed.

Lemma keeps_ensure_errors (id : string) : keeps nothing_lost (ensure_errors id).
Proof.
  apply (keeps_put_store (λ s, {| requests := requests s;
           errors := ensure_key id (errors s); events := events s; users := users s |})).
  intros s. repeat split; simpl; auto using grown_refl, ensure_key_grown.
Qed.

Lemma keeps_set_user (id : string) (u : value) : keeps nothing_lost (set_user id u).
Proof.
  apply (keeps_put_store (λ s, {| requests := requests s; errors := errors s;
           events := events s; users := JsMap.set id u (users s) |})).
  intros s. repeat split; simpl; auto using grown_refl. intros id'. apply has_set.
Qed.

Ltac lost_leaf :=
  match goal with
  | |- keeps _ (ensure_dir _) => apply keeps_ensure_dir
  | |- keeps _ (write_json _ _) => apply keeps_write_json
  | |- keeps _ (push_event _ _) => apply keeps_push_event
  | |- keeps _ (push_request _ _) => apply keeps_push_request
  | |- keeps _ (ensure_requests _) => apply keeps_ensure_requests
  | |- keeps _ (push_error _ _) => apply keeps_push_error
  | |- keeps _ (ensure_errors _) => apply keeps_ensure_errors
  | |- keeps _ (set_user _ _) => apply keeps_set_user
  end.

Ltac lost_auto := cbv zeta; repeat (first [keeps_node | keeps_leaf | lost_leaf]; cbv zeta).

Section NothingLost.
Variable dirname : list string.

Lemma keeps_logs_body (req : request) : keeps nothing_lost (logs_body dirname req).
Proof. unfold logs_body. lost_auto. Qed.

Lemma keeps_save_user (req : request) (id : string) (pc ds : value) :
  keeps nothing_lost (save_user dirname req id pc ds).
Proof. unfold save_user. lost_auto. Qed.

Lemma keeps_stats_body (req : request) : keeps nothing_lost (stats_body dirname req).
Proof. unfold stats_body. lost_auto. apply keeps_save_user. Qed.

Lemma keeps_persist_event (req : request) (id : string) :
  keeps nothing_lost (persist_event dirname req id).
Proof. unfold persist_event. lost_auto. Qed.

Lemma keeps_route (id : string) (type data : value) : keeps nothing_lost (route id type data).
Proof. unfold route, route_batch. lost_auto. Qed.

Lemma keeps_analytics_body (req : request) : keeps nothing_lost (analytics_body dirname req).
Proof.
  unfold analytics_body. lost_auto; [apply keeps_persist_event|apply keeps_route].
Qed.

Lemma keeps_export_body (req : request) : keeps nothing_lost (export_body dirname req).
Proof. unfold export_body. lost_auto. Qed.

Lemma dashboard_untouched : keeps untouched (dashboard_body dirname).
Proof. unfold dashboard_body. keeps_auto. Qed.

Lemma user_untouched (id : string) : keeps untouched (user_body dirname id).
Proof.
  unfold user_body. keeps_auto.
  intros w. unfold read_logs. destruct (readFileSync _ _) as [fileLogs|]; [|done].
  assert (keeps untouched (bind (spread fileLogs) (λ xs, ret (s ++ xs)))) as Hk by keeps_auto.
  apply Hk.
Qed.

End NothingLost.

(** ** From the handler bodies to the calls *)

Lemma keeps_handle (R : world → world → Prop) (m : M response) (w w' : world) (r : response) :
  keeps R m → handle m w = Some (r, w') → R w w'.
Proof.
  intros Hm. specialize (Hm w). unfold handle.
  destruct (m w) as [a v|e v|]; [| |discriminate]; by intros [= _ <-].
Qed.

Lemma keeps_path_arg_bind (R : world → world → Prop) `{!Invariant R} {A}
    (v : value) (k : string → M A) :
  (∀ s, v = VStr s → keeps R (k s)) → keeps R (bind (path_arg v) k).
Proof.
  intros Hk w. destruct v; try apply inv_refl. apply (Hk _ eq_refl w).
Qed.

Lemma keeps_update (R : world → world → Prop) (f : store → store) :
  (∀ w, R w (with_store (f (analyticsStore w)) w)) →
  keeps R (bind get_store (λ s, put_store (f s))).
Proof. intros H w. apply H. Qed.

Section Runs.
Variable dirname : list string.

Lemma serve_nothing_lost (c : call) (w w' : world) (r : response) :
  serve dirname c w = Some (r, w') → nothing_lost w w'.
Proof.
  destruct c as [req|req|req| |req]; simpl; apply keeps_handle.
  - apply keeps_logs_body.
  - apply keeps_stats_body.
  - apply keeps_analytics_body.
  - intros v. pose proof (dashboard_untouched dirname v) as H.
    destruct (dashboard_body dirname v) as [a v'|e v'|]; [| |done];
      destruct H as [Hf Hs]; (split; [rewrite Hf; apply fs_kept_refl
                                    |rewrite Hs; apply memory_grows_refl]).
  - apply keeps_export_body.
Qed.

Lemma boot_keeps (disk : gmap (list string) node) (t : Z) (ts : list Z) (w : world) :
  boot dirname disk t ts = Some w → fs_kept disk (fs w).
Proof.
  unfold boot. intros H.
  assert (keeps nothing_lost (ensure_dir (LOGS_DIR dirname);;; ensure_dir (USERS_DIR dirname);;;
                              ensure_dir (STATS_DIR dirname))) as Hk by lost_auto.
  specialize (Hk {| fs := disk; analyticsStore := empty_store; clock := t; ticks := ts |}).
  destruct (bind _ _ _) as [u v| |]; [|discriminate..]. injection H as <-. apply Hk.
Qed.

End Runs.

(** Whatever is on the disk stays there: over any sequence of calls and
    restarts no file and no directory is removed, a file stays a file and a
    directory a directory. *)
Theorem disk_never_loses (dirname : list string) (acts : list action) (w w' : world)
    (rs : list response) :
  run dirname acts w = Some (rs, w') → fs_kept (fs w) (fs w').
Proof.
  revert w rs. induction acts as [|[c|] acts IH]; intros w rs; simpl.
  - intros [= _ <-]. apply fs_kept_refl.
  - destruct (serve dirname c w) as [[r w1]|] eqn:E; [|discriminate].
    destruct (run dirname acts w1) as [[rs' w2]|] eqn:E2; [|discriminate].
    intros [= _ <-]. apply serve_nothing_lost in E as [Hf _].
    eapply fs_kept_trans; [exact Hf|]. by eapply IH.
  - destruct (boot dirname (fs w) (clock w) (ticks w)) as [w1|] eqn:E; [|discriminate].
    intros H. apply boot_keeps in E. eapply fs_kept_trans; [exact E|]. by eapply IH.
Qed.

Lemma disk_never_loses_witness :
  run demo_root [Http (config_of "ext1" "proxy-a.example");
                 Http (config_of "ext2" "proxy-b.example"); Restart] fresh_world
    = Some ([ack; ack], after_restart) ∧
  fs_kept (fs fresh_world) (fs after_restart).
Proof.
  assert (run demo_root [Http (config_of "ext1" "proxy-a.example");
                         Http (config_of "ext2" "proxy-b.example"); Restart] fresh_world
          = Some ([ack; ack], after_restart)) as H by (vm_compute; reflexivity).
  split; [exact H|]. exact (disk_never_loses _ _ _ _ _ H).
Defined.

Lemma run_memory_grows (dirname : list string) (cs : list call) (w w' : world)
    (rs : list response) :
  run dirname (Http <$> cs) w = Some (rs, w') →
  memory_grows (analyticsStore w) (analyticsStore w').
Proof.
  revert w rs. induction cs as [|c cs IH]; intros w rs; simpl.
  - intros [= _ <-]. apply memory_grows_refl.
  - destruct (serve dirname c w) as [[r w1]|] eqn:E; [|discriminate].
    destruct (run dirname _ w1) as [[rs' w2]|] eqn:E2; [|discriminate].
    intros [= _ <-]. apply serve_nothing_lost in E as [_ Hm].
    eapply memory_grows_trans; [exact Hm|]. by eapply IH.
Qed.

(** Between two restarts the aggregator only grows: over any sequence of
    calls every per-client sequence of requests, errors and events keeps what
    it held, in order, as a prefix, and no client leaves the users map. *)
Theorem memory_only_grows (dirname : list string) (cs : list call) (w w' : world)
    (rs : list response) :
  run dirname (Http <$> cs) w = Some (rs, w') →
  memory_grows (analyticsStore w) (analyticsStore w').
Proof. apply run_memory_grows. Qed.

Lemma memory_only_grows_witness :
  run demo_root (Http <$> [stats_of "ext1" "example.com"]) after_one = Some ([ack], after_two) ∧
  memory_grows (analyticsStore after_one) (analyticsStore after_two).
Proof.
  assert (run demo_root (Http <$> [stats_of "ext1" "example.com"]) after_one
          = Some ([ack], after_two)) as H by (vm_compute; reflexivity).
  split; [exact H|]. exact (memory_only_grows _ _ _ _ _ H).
Defined.

(** ** One client's calls and the other clients *)

Lemma push_at_get_ne (id id' : string) (xs : list value) (m : JsMap.t (list value)) :
  id ≠ id' → JsMap.get id' (push_at id xs m) = JsMap.get id' m.
Proof.
  intros Hne. unfold push_at, JsMap.get, JsMap.set.
  destruct (assoc id m); [|done]. by rewrite assoc_set_ne.
Qed.

Lemma ensure_key_get_ne (id id' : string) (m : JsMap.t (list value)) :
  id ≠ id' → JsMap.get id' (ensure_key id m) = JsMap.get id' m.
Proof.
  intros Hne. unfold ensure_key, JsMap.get, JsMap.set.
  destruct (JsMap.has id m); [done|]. by rewrite assoc_set_ne.
Qed.

#[export] Instance client_kept_invariant (id : string) : Invariant (client_kept id).
Proof.
  split.
  - by intros w.
  - intros w1 w2 w3 (H1 & H2 & H3 & H4) (H1' & H2' & H3' & H4').
    repeat split; congruence.
  - by intros w t ts.
Qed.

#[export] Instance fs_same_invariant : Invariant fs_same.
Proof.
  split.
  - by intros w.
  - intros w1 w2 w3 H1 H2. unfold fs_same in *. congruence.
  - by intros w t ts.
Qed.

Section Blind.
Context (R : world → world → Prop) `{!Invariant R}.

(** A relation that does not look at the files is kept by the file
    operations. *)
Hypothesis fs_blind : ∀ w f, R w (with_fs f w).

Lemma blind_ensure_dir (d : jpath) : keeps R (ensure_dir d).
Proof.
  intros w. unfold ensure_dir. destruct (existsSync _ _); [apply inv_refl|].
  destruct (mkdirSync _ _); [apply fs_blind|apply inv_refl].
Qed.

Lemma blind_write_json (f : jpath) (v : value) : keeps R (write_json f v).
Proof.
  intros w. unfold write_json. destruct (stringify v); [|apply inv_refl].
  destruct (writeFileSync _ _ _); [apply fs_blind|apply inv_refl].
Qed.

End Blind.

Section Others.
Variable dirname : list string.
Variable id' : string.

Lemma client_kept_blind (w : world) (f : gmap (list string) node) :
  client_kept id' w (with_fs f w).
Proof. done. Qed.

Lemma kept_push_event (id : string) (p : value) :
  id ≠ id' → keeps (client_kept id') (push_event id p).
Proof.
  intros Hne. apply keeps_update with
    (f := λ s, {| requests := requests s; errors := errors s;
                  events := push_at id [p] (ensure_key id (events s)); users := users s |}).
  intros w. repeat split; simpl. by rewrite push_at_get_ne, ensure_key_get_ne.
Qed.

Lemma kept_push_request (id : string) (ps : list value) :
  id ≠ id' → keeps (client_kept id') (push_request id ps).
Proof.
  intros Hne. apply keeps_update with
    (f := λ s, {| requests := push_at id ps (requests s); errors := errors s;
                  events := events s; users := users s |}).
  intros w. repeat split; simpl. by rewrite push_at_get_ne.
Qed.

Lemma kept_ensure_requests (id : string) :
  id ≠ id' → keeps (client_kept id') (ensure_requests id).
Proof.
  intros Hne. apply keeps_update with
    (f := λ s, {| requests := ensure_key id (requests s); errors := errors s;
                  events := events s; users := users s |}).
  intros w. repeat split; simpl. by rewrite ensure_key_get_ne.
Qed.

Lemma kept_push_error (id : string) (ps : list value) :
  id ≠ id' → keeps (client_kept id') (push_error id ps).
Proof.
  intros Hne. apply keeps_update with
    (f := λ s, {| requests := requests s; errors := push_at id ps (errors s);
                  events := events s; users := users s |}).
  intros w. repeat split; simpl. by rewrite push_at_get_ne.
Qed.

Lemma kept_ensure_errors (id : string) :
  id ≠ id' → keeps (client_kept id') (ensure_errors id).
Proof.
  intros Hne. apply keeps_update with
    (f := λ s, {| requests := requests s; errors := ensure_key id (errors s);
                  events := events s; users := users s |}).
  intros w. repeat split; simpl. by rewrite ensure_key_get_ne.
Qed.

Lemma kept_set_user (id : string) (u : value) :
  id ≠ id' → keeps (client_kept id') (set_user id u).
Proof.
  intros Hne. apply keeps_update with
    (f := λ s, {| requests := requests s; errors := errors s; events := events s;
                  users := JsMap.set id u (users s) |}).
  intros w. repeat split; simpl. unfold JsMap.get, JsMap.set. by rewrite assoc_set_ne.
Qed.

Ltac kept_leaf :=
  match goal with
  | |- keeps _ (ensure_dir _) => apply blind_ensure_dir; [try tc_solve..|apply client_kept_blind]
  | |- keeps _ (write_json _ _) => apply blind_write_json; [try tc_solve..|apply client_kept_blind]
  | |- keeps _ (push_event _ _) => apply kept_push_event; congruence
  | |- keeps _ (push_request _ _) => apply kept_push_request; congruence
  | |- keeps _ (ensure_requests _) => apply kept_ensure_requests; congruence
  | |- keeps _ (push_error _ _) => apply kept_push_error; congruence
  | |- keeps _ (ensure_errors _) => apply kept_ensure_errors; congruence
  | |- keeps _ (set_user _ _) => apply kept_set_user; congruence
  end.

Ltac kept_auto :=
  cbv zeta;
  repeat (first [ match goal with
                  | |- keeps _ (bind (path_arg _) _) =>
                      apply keeps_path_arg_bind; [try tc_solve..|intros ? ?]
                  end
                | keeps_node | keeps_leaf | kept_leaf ]; cbv zeta).

Lemma kept_logs_body (req : request) :
  prop (body req) "extensionId" ≠ VStr id' → keeps (client_kept id') (logs_body dirname req).
Proof. intros Hne. unfold logs_body. kept_auto. Qed.

Lemma kept_save_user (req : request) (id : string) (pc ds : value) :
  id ≠ id' → keeps (client_kept id') (save_user dirname req id pc ds).
Proof. intros Hne. unfold save_user. kept_auto. Qed.

Lemma kept_stats_body (req : request) :
  prop (body req) "extensionId" ≠ VStr id' → keeps (client_kept id') (stats_body dirname req).
Proof.
  intros Hne. unfold stats_body. kept_auto. apply kept_save_user. congruence.
Qed.

Lemma kept_persist_event (req : request) (id : string) :
  keeps (client_kept id') (persist_event dirname req id).
Proof. unfold persist_event. kept_auto. Qed.

Lemma kept_route (id : string) (type data : value) :
  id ≠ id' → keeps (client_kept id') (route id type data).
Proof. intros Hne. unfold route, route_batch. kept_auto. Qed.

Lemma kept_analytics_body (req : request) :
  prop (body req) "extensionId" ≠ VStr id' →
  keeps (client_kept id') (analytics_body dirname req).
Proof.
  intros Hne. unfold analytics_body. kept_auto.
  - apply kept_persist_event.
  - apply kept_route. congruence.
Qed.

Lemma kept_export_body (req : request) : keeps (client_kept id') (export_body dirname req).
Proof. unfold export_body. kept_auto. Qed.

End Others.

(** A call changes nothing of what the aggregator holds for a client other
    than the one named in its body: that client's requests, errors and events
    and its entry in the users map are the same after the call, whatever the
    answer. *)
Theorem other_clients_untouched (dirname : list string) (c : call) (id' : string)
    (w w' : world) (r : response) :
  sender c ≠ VStr id' →
  serve dirname c w = Some (r, w') →
  client_kept id' w w'.
Proof.
  intros Hne. destruct c as [req|req|req| |req]; simpl in *; apply keeps_handle.
  - by apply kept_logs_body.
  - by apply kept_stats_body.
  - by apply kept_analytics_body.
  - intros v. pose proof (dashboard_untouched dirname v) as H.
    destruct (dashboard_body dirname v) as [a v'|e v'|]; [| |done];
      destruct H as [_ Hs]; unfold client_kept; by rewrite Hs.
  - apply kept_export_body.
Qed.

Lemma other_clients_untouched_witness :
  serve demo_root (stats_of "ext1" "example.com") after_one = Some (ack, after_two) ∧
  client_kept "ext2" after_one after_two.
Proof.
  assert (serve demo_root (stats_of "ext1" "example.com") after_one = Some (ack, after_two))
    as H by (vm_compute; reflexivity).
  split; [exact H|].
  refine (other_clients_untouched demo_root _ "ext2" _ _ _ _ H). vm_compute. discriminate.
Defined.

(** ** Calls that only read *)

(** GET /api/dashboard leaves the files and the aggregator as they are,
    whatever it answers. *)
Theorem dashboard_reads_only (dirname : list string) (w w' : world) (r : response) :
  get_dashboard dirname w = Some (r, w') → untouched w w'.
Proof. apply keeps_handle, dashboard_untouched. Qed.

Lemma dashboard_reads_only_witness :
  get_dashboard demo_root after_five = Some (Summary five_summary, after_five) ∧
  untouched after_five after_five.
Proof.
  assert (get_dashboard demo_root after_five = Some (Summary five_summary, after_five))
    as H by (vm_compute; reflexivity).
  split; [exact H|]. exact (dashboard_reads_only _ _ _ _ H).
Defined.

(** ** Calls with a malformed body *)

(** An ingestion call whose body is [null] or [undefined], or whose
    [extensionId] is truthy without being a string (a number, [true], an
    array, an object), ends in the catch block: the answer is a 500 and
    nothing has been written or recorded. *)
Theorem malformed_call_fails (dirname : list string) (req : request) (w : world) :
  nullish (body req) = true ∨
  (truthy (prop (body req) "extensionId") = true ∧
   ∀ s, prop (body req) "extensionId" ≠ VStr s) →
  post_logs dirname req w = Some (ServerError TypeError, w) ∧
  post_stats dirname req w = Some (ServerError TypeError, w) ∧
  post_analytics dirname req w = Some (ServerError TypeError, w).
Proof.
  unfold post_logs, post_stats, post_analytics, handle, logs_body, stats_body,
    analytics_body, bind, destructure.
  intros [Hb|[Ht Hs]].
  - by rewrite Hb.
  - destruct (nullish (body req)); [done|]. simpl. rewrite Ht. simpl.
    destruct (prop (body req) "extensionId") as [| | | | |s| | |]; try done.
    by destruct (Hs s).
Qed.

Lemma malformed_call_fails_witness :
  post_logs demo_root numeric_id_request fresh_world = Some (ServerError TypeError, fresh_world) ∧
  post_stats demo_root numeric_id_request fresh_world = Some (ServerError TypeError, fresh_world) ∧
  post_analytics demo_root numeric_id_request fresh_world
    = Some (ServerError TypeError, fresh_world).
Proof.
  apply (malformed_call_fails demo_root numeric_id_request fresh_world).
  right. split; [reflexivity|]. intros s. vm_compute. discriminate.
Defined.

(** ** Where a client's files are *)

Lemma append_cons (c : ascii) (a b : string) : String c a +:+ b = String c (a +:+ b).
Proof. reflexivity. Qed.

Lemma append_empty (a : string) : a +:+ "" = a.
Proof. induction a as [|x a IH]; [done|]. by rewrite append_cons, IH. Qed.

Lemma append_assoc (a b c : string) : (a +:+ b) +:+ c = a +:+ (b +:+ c).
Proof. induction a as [|x a IH]; [done|]. by rewrite !append_cons, IH. Qed.

Lemma split_slash_slashless (cur s : string) :
  slashless s = true → split_slash cur s = [cur +:+ s].
Proof.
  revert cur. induction s as [|c s IH]; intros cur; simpl.
  - intros _. by rewrite append_empty.
  - intros H. apply andb_true_iff in H as [Hc Hs].
    destruct (Ascii.eqb c "/"); [discriminate|].
    rewrite IH by done. by rewrite append_assoc.
Qed.

Lemma ends_with_slash_slashless (s : string) : slashless s = true → ends_with_slash s = false.
Proof.
  induction s as [|c s IH]; [done|]. simpl. intros H. apply andb_true_iff in H as [Hc Hs].
  destruct s as [|c' s']; [by destruct (Ascii.eqb c "/")|]. by apply IH.
Qed.

Lemma walk_plain (p : list string) (s : string) : plain s = true → walk p s = p ++ [s].
Proof.
  unfold plain, walk, nonempty. intros H.
  repeat (apply andb_true_iff in H as [H ?]).
  destruct (String.eqb s ""); [discriminate|].
  destruct (String.eqb s "."); [discriminate|].
  by destruct (String.eqb s "..").
Qed.

Lemma plain_nonempty (s : string) : plain s = true → nonempty s = true.
Proof. unfold plain. intros H. by repeat (apply andb_true_iff in H as [H ?]). Qed.

Lemma plain_slashless (s : string) : plain s = true → slashless s = true.
Proof. unfold plain. intros H. by repeat (apply andb_true_iff in H as [H ?]). Qed.

(** [path.join(base, s)] for a plain [s] is [base] with the segment [s]
    below it. *)
Lemma path_join_plain (base : jpath) (s : string) :
  plain s = true → path_join base [s] = dir_path (segs base ++ [s]).
Proof.
  intros H. unfold path_join. simpl. rewrite (plain_nonempty _ H). simpl.
  rewrite (split_slash_slashless "" s (plain_slashless _ H)). simpl.
  rewrite (walk_plain _ _ H), (ends_with_slash_slashless _ (plain_slashless _ H)). done.
Qed.

Lemma path_join_plain2 (base : jpath) (s1 s2 : string) :
  plain s1 = true → plain s2 = true →
  path_join base [s1; s2] = dir_path (segs base ++ [s1; s2]).
Proof.
  intros H1 H2. unfold path_join. simpl.
  rewrite (plain_nonempty _ H1), (plain_nonempty _ H2). simpl.
  rewrite (split_slash_slashless "" s1 (plain_slashless _ H1)),
    (split_slash_slashless "" s2 (plain_slashless _ H2)). simpl.
  rewrite (walk_plain _ _ H1), (walk_plain _ _ H2),
    (ends_with_slash_slashless _ (plain_slashless _ H2)).
  by rewrite <- app_assoc.
Qed.

Lemma slashless_app (a b : string) : slashless (a +:+ b) = slashless a && slashless b.
Proof. induction a as [|c a IH]; [done|]. rewrite append_cons. simpl. by rewrite IH, andb_assoc. Qed.

Lemma length_append (a b : string) :
  String.length (a +:+ b) = (String.length a + String.length b)%nat.
Proof. induction a as [|c a IH]; [done|]. rewrite append_cons. simpl. by rewrite IH. Qed.

(** A slash-free text of three characters or more is plain. *)
Lemma plain_long (s : string) :
  slashless s = true → (3 ≤ String.length s)%nat → plain s = true.
Proof.
  intros Hs Hl. unfold plain, nonempty. rewrite Hs.
  destruct s as [|a [|b [|c s]]]; simpl in *; try lia.
  by repeat case_match.
Qed.

Lemma plain_json_name (s : string) : slashless s = true → plain (s +:+ ".json") = true.
Proof.
  intros Hs. apply plain_long.
  - by rewrite slashless_app, Hs.
  - rewrite length_append. simpl. lia.
Qed.

Lemma slashless_digits (u : Decimal.uint) : slashless (NilEmpty.string_of_uint u) = true.
Proof. induction u; simpl; done. Qed.

Lemma slashless_uint (u : Decimal.uint) : slashless (NilZero.string_of_uint u) = true.
Proof. destruct u; try apply slashless_digits. done. Qed.

Lemma slashless_dec (n : Z) : slashless (dec n) = true.
Proof.
  unfold dec, NilZero.string_of_int. destruct (Z.to_int n); simpl; apply slashless_uint.
Qed.

Lemma slashless_zeros (n : nat) : slashless (zeros n) = true.
Proof. induction n; simpl; done. Qed.

Lemma slashless_pad (k : nat) (n : Z) : slashless (pad k n) = true.
Proof. unfold pad. by rewrite slashless_app, slashless_zeros, slashless_dec. Qed.

Lemma slashless_iso_date (t : Z) : slashless (iso_date t) = true.
Proof.
  unfold iso_date. destruct (civil_from_days _) as [[y m] d].
  rewrite !slashless_app, !slashless_pad. simpl. rewrite !andb_true_r.
  unfold iso_year. destruct (_ && _); [apply slashless_pad|].
  destruct (y <? 0); simpl; apply slashless_pad.
Qed.

Lemma segs_DATA_DIR (dirname : list string) : DATA_DIR dirname = dir_path (dirname ++ ["data"]).
Proof. reflexivity. Qed.

Lemma segs_LOGS_DIR (dirname : list string) :
  LOGS_DIR dirname = dir_path (dirname ++ ["data"; "logs"]).
Proof. unfold LOGS_DIR. rewrite segs_DATA_DIR, path_join_plain by done. simpl. by rewrite <- app_assoc. Qed.

Lemma segs_USERS_DIR (dirname : list string) :
  USERS_DIR dirname = dir_path (dirname ++ ["data"; "users"]).
Proof. unfold USERS_DIR. rewrite segs_DATA_DIR, path_join_plain by done. simpl. by rewrite <- app_assoc. Qed.

Lemma segs_STATS_DIR (dirname : list string) :
  STATS_DIR dirname = dir_path (dirname ++ ["data"; "stats"]).
Proof. unfold STATS_DIR. rewrite segs_DATA_DIR, path_join_plain by done. simpl. by rewrite <- app_assoc. Qed.

Lemma layout_plain (dirname : list string) (id : string) :
  plain id = true →
  stat_file dirname id = dir_path (dirname ++ ["data"; "stats"; id; "stats.json"]) ∧
  user_file dirname id = dir_path (dirname ++ ["data"; "users"; id +:+ ".json"]) ∧
  (∀ t, day_file dirname id t
        = dir_path (dirname ++ ["data"; "logs"; id; iso_date t +:+ ".json"])) ∧
  analytics_dir dirname id = dir_path (dirname ++ ["data"; "logs"; id; "analytics"]).
Proof.
  intros H. pose proof (plain_slashless _ H) as Hs.
  unfold stat_file, user_file, day_file, analytics_dir.
  rewrite segs_STATS_DIR, segs_USERS_DIR, segs_LOGS_DIR.
  repeat split.
  - rewrite !path_join_plain by done. simpl. rewrite <- ?app_assoc. reflexivity.
  - rewrite path_join_plain by (apply plain_json_name; exact Hs). simpl. rewrite <- ?app_assoc. reflexivity.
  - intros t. rewrite (path_join_plain _ id) by done.
    rewrite path_join_plain by (apply plain_json_name, slashless_iso_date).
    simpl. rewrite <- ?app_assoc. reflexivity.
  - rewrite path_join_plain2 by done. simpl. rewrite <- ?app_assoc. reflexivity.
Qed.

(** For a plain client identifier the files of the client lie where the
    handlers' [path.join] calls suggest: the Stats Record at
    [data/stats/<id>/stats.json], the User Record at [data/users/<id>.json],
    the day-files at [data/logs/<id>/<date>.json] and the analytics events
    below [data/logs/<id>/analytics], all under the directory of the
    script. *)
Theorem client_files_layout (dirname : list string) (id : string) :
  plain id = true →
  stat_file dirname id = dir_path (dirname ++ ["data"; "stats"; id; "stats.json"]) ∧
  user_file dirname id = dir_path (dirname ++ ["data"; "users"; id +:+ ".json"]) ∧
  (∀ t, day_file dirname id t
        = dir_path (dirname ++ ["data"; "logs"; id; iso_date t +:+ ".json"])) ∧
  analytics_dir dirname id = dir_path (dirname ++ ["data"; "logs"; id; "analytics"]).
Proof. apply layout_plain. Qed.

Lemma client_files_layout_witness :
  plain "ext1" = true ∧
  stat_file demo_root "ext1" = dir_path ["srv"; "app"; "data"; "stats"; "ext1"; "stats.json"].
Proof.
  split; [reflexivity|]. exact (proj1 (client_files_layout demo_root "ext1" eq_refl)).
Defined.

(** ** What a stats call writes *)

Section StatsWrites.
Variable dirname : list string.

(** The steps an acknowledged POST /api/stats went through. *)
Lemma stats_steps (req : request) (w w' : world) :
  post_stats dirname req w = Some (ack, w') →
  ∃ id s0 n s2 s3 w2 w3 w4 w5,
    prop (body req) "extensionId" = VStr id ∧
    ensure_dir (path_join (STATS_DIR dirname) [id]) w = Ret tt w2 ∧
    load_or (stat_file dirname id) init_stats w2 = Ret (VObj s0) w2 ∧
    incremented (prop (VObj s0) "totalRequests") w2 = Ret n w2 ∧
    note_domain (prop (body req) "domain") (assoc_set "totalRequests" n s0) w2 = Ret s2 w2 ∧
    note_proxy (prop (body req) "proxy") (prop (body req) "domain") (prop (body req) "type")
      s2 w2 = Ret s3 w3 ∧
    save_user dirname req id (prop (body req) "proxyConfig") (prop (body req) "domains") w3
      = Ret tt w4 ∧
    write_json (stat_file dirname id) (VObj s3) w4 = Ret tt w5 ∧
    w' = with_store
           {| requests := push_at id [body req] (ensure_key id (requests (analyticsStore w5)));
              errors := errors (analyticsStore w5);
              events := events (analyticsStore w5);
              users := users (analyticsStore w5) |} w5.
Proof.
  intros H. apply handle_Json in H. unfold stats_body in H.
  step H as u0 w0 H0. apply destructure_Ret in H0 as [_ ->].
  destruct (truthy (prop (body req) "extensionId")); [|discriminate]. simpl in H.
  step H as id w1 H1. apply path_arg_Ret in H1 as [Hid ->].
  step H as u2 w2 H2. destruct u2.
  step H as stats w3 H3. pose proof (load_or_Ret _ _ _ _ _ H3) as [-> _].
  destruct stats as [| | | | | | |s0|]; try discriminate.
  step H as n w4 H4. pose proof (incremented_Ret _ _ _ _ H4) as ->.
  step H as s2 w5 H5. pose proof (note_domain_Ret _ _ _ _ _ H5) as [-> _].
  step H as s3 w6 H6.
  step H as u7 w7 H7. destruct u7.
  step H as u8 w8 H8. destruct u8.
  unfold ensure_requests, push_request, bind, get_store, put_store in H.
  injection H as <-.
  exists id, s0, n, s2, s3, w2, w6, w7, w8. by repeat split.
Qed.

Lemma prop_set_ne (k k' : string) (v : value) (l : list (string * value)) :
  k ≠ k' → prop (VObj (assoc_set k' v l)) k = prop (VObj l) k.
Proof. intros Hne. simpl. by rewrite assoc_set_ne. Qed.

Lemma prop_set_eq (k : string) (v : value) (l : list (string * value)) :
  prop (VObj (assoc_set k v l)) k = v.
Proof. simpl. by rewrite assoc_set_eq. Qed.

Lemma note_domain_frame (domain : value) (s s' : list (string * value)) (w w' : world) :
  note_domain domain s w = Ret s' w' →
  ∀ k, k ≠ "domains" → prop (VObj s') k = prop (VObj s) k.
Proof.
  unfold note_domain. destruct (truthy domain); [|by intros [= <- <-]].
  destruct (prop (VObj s) "domains") as [| | | | |t|ds| |]; try discriminate.
  - destruct (to_string domain); [|discriminate].
    destruct (contains _ _); [|discriminate]. by intros [= <- <-].
  - destruct (includes ds domain); intros [= <- <-] k Hk; [done|].
    by apply prop_set_ne.
Qed.

(** What [if (proxy) stats.proxyUsage.push(...)] left in the record. *)
Lemma note_proxy_use (req : request) (s s' : list (string * value)) (w w' : world) :
  note_proxy (prop (body req) "proxy") (prop (body req) "domain") (prop (body req) "type") s w
    = Ret s' w' →
  (∀ k, k ≠ "proxyUsage" → prop (VObj s') k = prop (VObj s) k) ∧
  if truthy (prop (body req) "proxy")
  then ∃ ps, prop (VObj s) "proxyUsage" = VArr ps ∧
             prop (VObj s') "proxyUsage"
               = VArr (ps ++ [proxy_use req (clock w + hd 0 (ticks w))])
  else s' = s ∧ w' = w.
Proof.
  unfold note_proxy. destruct (truthy (prop (body req) "proxy")); [|by intros [= <- <-]].
  destruct (prop (VObj s) "proxyUsage") as [| | | | | |ps| |] eqn:E; try discriminate;
    intros H; step H as t w1 H1; try discriminate.
  apply now_Ret in H1 as (Ht & _). injection H as <- <-. split.
  - intros k Hk. by apply prop_set_ne.
  - exists ps. split; [done|]. rewrite prop_set_eq. by rewrite Ht.
Qed.

(** The Stats Record an acknowledged call wrote, against the one it found:
    the counter went up by one and the use of a proxy was noted. *)
Lemma stats_record (req : request) (w w' : world) :
  post_stats dirname req w = Some (ack, w') →
  ∃ id s0 s3,
    prop (body req) "extensionId" = VStr id ∧
    (fs w !! segs (stat_file dirname id) = Some (File (VObj s0)) ∨
     (fs w !! segs (stat_file dirname id) = None ∧ VObj s0 = init_stats)) ∧
    fs w' !! segs (stat_file dirname id) = Some (File (json (VObj s3))) ∧
    (∀ k, prop (VObj s0) "totalRequests" = VNum k → - max_safe ≤ k < max_safe →
          prop (VObj s3) "totalRequests" = VNum (k + 1)) ∧
    (if truthy (prop (body req) "proxy")
     then ∃ ps, prop (VObj s0) "proxyUsage" = VArr ps ∧
                prop (VObj s3) "proxyUsage"
                  = VArr (ps ++ [proxy_use req (clock w + hd 0 (ticks w))])
     else prop (VObj s3) "proxyUsage" = prop (VObj s0) "proxyUsage").
Proof.
  intros H. apply stats_steps in H
    as (id & s0 & n & s2 & s3 & w2 & w3 & w4 & w5 & Hid & H2 & H3 & H4 & H5 & H6 & H7 & H8 & ->).
  pose proof (ensure_dir_frame _ _ _ _ H2) as Hframe.
  apply ensure_dir_Ret in H2 as (Hs2 & Hc2 & Ht2).
  apply write_json_Ret in H8 as (doc & Hdoc & Hf8 & _ & _ & _ & Hvalid & Htrail).
  apply load_or_node in H3 as [_ Hold]; [|done..].
  pose proof (note_domain_frame _ _ _ _ _ H5) as Hdom.
  apply note_proxy_use in H6 as [Hother Huse].
  exists id, s0, s3. split; [done|]. split; [|split; [|split]].
  - destruct (Hframe (segs (stat_file dirname id))) as [Hq|[Hq1 Hq2]].
    + rewrite Hq in Hold. destruct Hold as [Hold|[Hold1 Hold2]]; [by left|]. by right.
    + rewrite Hq2 in Hold. destruct Hold as [Hold|[Hold _]]; discriminate.
  - simpl. rewrite Hf8, lookup_insert_eq. simpl in Hdoc. by injection Hdoc as <-.
  - intros k Hk Hsafe. rewrite Hother, Hdom by done. rewrite prop_set_eq.
    rewrite Hk in H4. unfold incremented in H4. simpl in H4.
    assert ((- max_safe <=? k) && (k <? max_safe) = true) as Hb by lia.
    rewrite Hb in H4. by injection H4 as <-.
  - destruct (truthy (prop (body req) "proxy")).
    + destruct Huse as (ps & Hps & Hps'). exists ps.
      rewrite Hdom, prop_set_ne in Hps by done. split; [done|].
      by rewrite Hps', Hc2, Ht2.
    + destruct Huse as [-> _]. rewrite Hdom by done. by apply prop_set_ne.
Qed.

End StatsWrites.

Section StatsRecord.
Variable dirname : list string.

Lemma stats_record_found (id : string) (s0 : list (string * value)) (w : world) :
  fs w !! segs (stat_file dirname id) = Some (File (VObj s0)) ∨
  (fs w !! segs (stat_file dirname id) = None ∧ VObj s0 = init_stats) →
  stats_record_of dirname id w = VObj s0.
Proof. unfold stats_record_of. by intros [->|[-> ->]]. Qed.

Lemma stats_counter_step (req : request) (id : string) (k : Z) (w w' : world) :
  post_stats dirname req w = Some (ack, w') →
  prop (body req) "extensionId" = VStr id →
  prop (stats_record_of dirname id w) "totalRequests" = VNum k →
  - max_safe ≤ k < max_safe →
  prop (stats_record_of dirname id w') "totalRequests" = VNum (k + 1).
Proof.
  intros H Hid Hk Hsafe.
  apply stats_record in H as (id' & s0 & s3 & Hid' & Hold & Hnew & Hn & _).
  assert (id' = id) as -> by congruence.
  rewrite (stats_record_found _ _ _ Hold) in Hk.
  unfold stats_record_of. rewrite Hnew.
  by rewrite (prop_json s3 "totalRequests" (VNum (k + 1))) by auto.
Qed.

End StatsRecord.

(** The persisted counter counts the acknowledged calls: after a run of
    acknowledged POST /api/stats calls of one client, the [totalRequests] of
    its Stats Record is the number it held before (0 when there was no
    record) plus the number of calls, as long as that stays within the
    integers a JavaScript number counts exactly. *)
Theorem stats_counter_counts (dirname : list string) (id : string) (reqs : list request)
    (k : Z) (w w' : world) :
  Forall (λ req, prop (body req) "extensionId" = VStr id) reqs →
  prop (stats_record_of dirname id w) "totalRequests" = VNum k →
  - max_safe ≤ k →
  k + Z.of_nat (length reqs) ≤ max_safe →
  run dirname (Http <$> (PostStats <$> reqs)) w = Some ((λ _, ack) <$> reqs, w') →
  prop (stats_record_of dirname id w') "totalRequests" = VNum (k + Z.of_nat (length reqs)).
Proof.
  intros Hids. revert k w.
  induction Hids as [|req reqs Hid Hids IH]; intros k w Hk Hlo Hhi; simpl.
  - intros [= <-]. by rewrite Z.add_0_r.
  - simpl in Hhi.
    destruct (post_stats dirname req w) as [[r w1]|] eqn:E; [|discriminate].
    destruct (run dirname _ w1) as [[rs w2]|] eqn:E2; [|discriminate].
    intros [= -> -> <-].
    apply (stats_counter_step _ _ _ _ _ _ E Hid) in Hk; [|lia].
    rewrite (IH _ _ Hk ltac:(lia) ltac:(lia) E2). f_equal. lia.
Qed.

Lemma stats_counter_counts_witness :
  prop (stats_record_of demo_root "ext1" after_three) "totalRequests" = VNum (0 + 3).
Proof.
  apply (stats_counter_counts demo_root "ext1"
           [client (VObj [("extensionId", VStr "ext1"); ("domain", VStr "example.com")]);
            client (VObj [("extensionId", VStr "ext1"); ("domain", VStr "example.com")]);
            client (VObj [("extensionId", VStr "ext1"); ("domain", VStr "example.com")])]
           0 fresh_world after_three).
  - repeat constructor.
  - reflexivity.
  - discriminate.
  - discriminate.
  - vm_compute. reflexivity.
Defined.

(** An acknowledged POST /api/stats call with a truthy [proxy] appends one
    element to the [proxyUsage] list of the client's Stats Record: the
    [proxy], [domain] and [type] of the body and, as [timestamp], the first
    clock reading of the call.  With a falsy [proxy] the list stays as it
    was. *)
Theorem proxy_use_noted (dirname : list string) (req : request) (id : string)
    (ps : list value) (w w' : world) :
  post_stats dirname req w = Some (ack, w') →
  prop (body req) "extensionId" = VStr id →
  prop (stats_record_of dirname id w) "proxyUsage" = VArr ps →
  prop (stats_record_of dirname id w') "proxyUsage" =
    if truthy (prop (body req) "proxy")
    then json (VArr (ps ++ [proxy_use req (clock w + hd 0 (ticks w))]))
    else json (VArr ps).
Proof.
  intros H Hid Hps. apply stats_record in H as (id' & s0 & s3 & Hid' & Hold & Hnew & _ & Huse).
  assert (id' = id) as -> by congruence.
  rewrite (stats_record_found _ _ _ _ Hold) in Hps.
  unfold stats_record_of. rewrite Hnew.
  destruct (truthy (prop (body req) "proxy")).
  - destruct Huse as (ps' & Hps' & Hnew'). assert (ps' = ps) as -> by congruence.
    by apply prop_json.
  - rewrite Hps in Huse. by apply prop_json.
Qed.

Lemma proxy_use_noted_witness :
  post_stats demo_root proxied fresh_world = Some (ack, after_proxied) ∧
  prop (stats_record_of demo_root "ext1" after_proxied) "proxyUsage" =
    VArr [VObj [("proxy", VStr "10.0.0.1:8080"); ("timestamp", VNum 1700000000005);
                ("domain", VStr "example.com"); ("type", VStr "http")]].
Proof.
  assert (post_stats demo_root proxied fresh_world = Some (ack, after_proxied)) as H
    by (vm_compute; reflexivity).
  split; [exact H|].
  exact (proxy_use_noted demo_root proxied "ext1" [] fresh_world after_proxied H
           eq_refl eq_refl).
Defined.

(** ** The User Record *)


Section UserRecord.
Variable dirname : list string.




End UserRecord.



(** ** What a log call records in memory *)

Section LogsMirror.
Variable dirname : list string.

Lemma logs_store (req : request) (w w' : world) :
  post_logs dirname req w = Some (ack_received, w') →
  ∃ id, prop (body req) "extensionId" = VStr id ∧
        events (analyticsStore w') = append_at id [body req] (events (analyticsStore w)) ∧
        requests (analyticsStore w') = requests (analyticsStore w) ∧
        errors (analyticsStore w') = errors (analyticsStore w) ∧
        users (analyticsStore w') = users (analyticsStore w).
Proof.
  intros H. apply handle_Json in H. unfold logs_body in H.
  step H as u0 w0 H0. apply destructure_Ret in H0 as [_ ->].
  destruct (truthy (prop (body req) "extensionId")); [|discriminate]. simpl in H.
  step H as id w1 H1. apply path_arg_Ret in H1 as [Hid ->].
  step H as u2 w2 H2. apply ensure_dir_Ret in H2 as (Hs2 & _).
  step H as today w3 H3. apply now_Ret in H3 as (_ & _ & Hs3 & _).
  step H as logs w4 H4. apply load_or_Ret in H4 as [-> _].
  step H as u5 w5 H5. destruct (nullish logs); [discriminate|]. injection H5 as _ <-.
  step H as ts w6 H6.
  assert (analyticsStore w6 = analyticsStore w3) as Hs6.
  { destruct (truthy (prop (body req) "timestamp")).
    - by injection H6 as _ <-.
    - step H6 as t w9 H9. injection H6 as _ <-. by apply now_Ret in H9 as (_ & _ & -> & _). }
  destruct logs as [| | | | | |old| |]; try discriminate.
  step H as u7 w7 H7. step H as u8 w8 H8. injection H as ->.
  apply write_json_Ret in H7 as (doc & _ & _ & Hs7 & _).
  unfold push_event, bind, get_store, put_store in H8. injection H8 as <-.
  subst w'. exists id. split; [done|]. simpl. rewrite Hs7, Hs6, Hs3, Hs2, push_ensure. done.
Qed.

End LogsMirror.

(** An acknowledged POST /api/logs call appends the body as sent, and
    nothing else, to the client's in-memory events: the client's sequence
    grows by the body at its end (a client not seen before gets a sequence
    of its own), while the requests, the errors and the users map stay as
    they are -- a log is never counted as a request. *)
Theorem log_recorded_as_event (dirname : list string) (req : request) (w w' : world) :
  post_logs dirname req w = Some (ack_received, w') →
  ∃ id, prop (body req) "extensionId" = VStr id ∧
        JsMap.get id (events (analyticsStore w'))
          = Some (default [] (JsMap.get id (events (analyticsStore w))) ++ [body req]) ∧
        held (events (analyticsStore w')) = held (events (analyticsStore w)) + 1 ∧
        requests (analyticsStore w') = requests (analyticsStore w) ∧
        errors (analyticsStore w') = errors (analyticsStore w) ∧
        users (analyticsStore w') = users (analyticsStore w).
Proof.
  intros H. apply logs_store in H as (id & Hid & He & Hr & Hx & Hu).
  exists id. rewrite He, append_at_get, append_at_held. done.
Qed.

Lemma log_recorded_as_event_witness :
  post_logs demo_root plain_log fresh_world = Some (ack_received, after_plain_log) ∧
  JsMap.get "ext1" (events (analyticsStore after_plain_log)) = Some [body plain_log].
Proof.
  assert (post_logs demo_root plain_log fresh_world = Some (ack_received, after_plain_log))
    as H by (vm_compute; reflexivity).
  split; [exact H|].
  destruct (log_recorded_as_event demo_root plain_log fresh_world after_plain_log H)
    as (id & Hid & He & _).
  injection Hid as <-. exact He.
Defined.

(** ** What an analytics call records and writes *)


Lemma route_store (id : string) (type data : value) (w w' : world) :
  route id type data w = Ret tt w' →
  events (analyticsStore w') = events (analyticsStore w) ∧
  users (analyticsStore w') = users (analyticsStore w) ∧
  (is_string "request" type = true →
     requests (analyticsStore w') = append_at id [data] (requests (analyticsStore w)) ∧
     errors (analyticsStore w') = errors (analyticsStore w)) ∧
  (is_string "request" type = false → is_string "error" type = true →
     errors (analyticsStore w') = append_at id [data] (errors (analyticsStore w)) ∧
     requests (analyticsStore w') = requests (analyticsStore w)) ∧
  (is_string "request" type = false → is_string "error" type = false →
   is_string "batch" type = false → w' = w).
Proof.
  unfold route.
  destruct (is_string "request" type); [|destruct (is_string "error" type);
                                          [|destruct (is_string "batch" type)]].
  - unfold ensure_requests, push_request, bind, get_store, put_store. intros [= <-]. simpl.
    rewrite push_ensure. by repeat split.
  - unfold ensure_errors, push_error, bind, get_store, put_store. intros [= <-]. simpl.
    rewrite push_ensure. by repeat split.
  - unfold route_batch. destruct (nullish data); [discriminate|].
    assert (∀ (m : M unit) (v v' : world),
              (m = ret tt ∨
               (∃ xs', m = (ensure_requests id;;; xs <- spread xs';; push_request id xs)) ∨
               (∃ xs', m = (ensure_errors id;;; xs <- spread xs';; push_error id xs))) →
              m v = Ret tt v' →
              events (analyticsStore v') = events (analyticsStore v) ∧
              users (analyticsStore v') = users (analyticsStore v)) as Hhalf.
    { intros m v v' [->|[[xs' ->]|[xs' ->]]].
      - by intros [= <-].
      - unfold ensure_requests, push_request, bind, get_store, put_store. simpl.
        destruct (spread xs' _) as [xs v1|e v1|] eqn:E; try discriminate.
        apply spread_Ret in E as [-> _]. by intros [= <-].
      - unfold ensure_errors, push_error, bind, get_store, put_store. simpl.
        destruct (spread xs' _) as [xs v1|e v1|] eqn:E; try discriminate.
        apply spread_Ret in E as [-> _]. by intros [= <-]. }
    intros H. step H as u1 w1 H1. destruct u1.
    apply Hhalf in H1 as [He1 Hu1];
      [|destruct (truthy (prop data "requests")); eauto].
    apply Hhalf in H as [He2 Hu2];
      [|destruct (truthy (prop data "errors")); eauto].
    split; [congruence|]. split; [congruence|]. by repeat split.
  - intros [= <-]. by repeat split.
Qed.

Section AnalyticsWrites.
Variable dirname : list string.


End AnalyticsWrites.



(** An acknowledged POST /api/analytics call of type "request" appends its
    [data] -- whatever it is, also [undefined] when the body has none -- to
    the client's in-memory requests and leaves the errors alone; one of type
    "error" appends it to the errors and leaves the requests alone; one of
    any type other than these and "batch" changes nothing in memory.  No
    analytics call touches the events or the users map. *)
Theorem event_routed (dirname : list string) (req : request) (w w' : world) :
  post_analytics dirname req w = Some (ack_received, w') →
  ∃ id,
    prop (body req) "extensionId" = VStr id ∧
    let type := prop (body req) "type" in
    let data := prop (body req) "data" in
    events (analyticsStore w') = events (analyticsStore w) ∧
    users (analyticsStore w') = users (analyticsStore w) ∧
    (type = VStr "request" →
       requests (analyticsStore w') = append_at id [data] (requests (analyticsStore w)) ∧
       errors (analyticsStore w') = errors (analyticsStore w)) ∧
    (type = VStr "error" →
       errors (analyticsStore w') = append_at id [data] (errors (analyticsStore w)) ∧
       requests (analyticsStore w') = requests (analyticsStore w)) ∧
    (type ≠ VStr "request" → type ≠ VStr "error" → type ≠ VStr "batch" →
       analyticsStore w' = analyticsStore w).
Proof.
  intros H. apply analytics_ack_inv in H as (id & w1 & Hid & Hp & Hr).
  apply persist_event_Ret in Hp. apply route_store in Hr as (He & Hu & Hreq & Herr & Hnone).
  exists id. split; [done|]. cbv zeta. rewrite <- Hp.
  split; [done|]. split; [done|]. split; [|split].
  - intros Ht. apply Hreq. by rewrite Ht.
  - intros Ht. apply Herr; by rewrite Ht.
  - intros H1 H2 H3.
    assert (∀ s, prop (body req) "type" ≠ VStr s → is_string s (prop (body req) "type") = false)
      as Hs.
    { intros s Hne. destruct (prop (body req) "type") as [| | | | |x| | |]; try done.
      simpl. apply String.eqb_neq. congruence. }
    by rewrite (Hnone (Hs _ H1) (Hs _ H2) (Hs _ H3)).
Qed.

Lemma event_routed_witness :
  post_analytics demo_root error_event fresh_world = Some (ack_received, after_error_event) ∧
  JsMap.get "ext1" (errors (analyticsStore after_error_event))
    = Some [VObj [("message", VStr "timeout")]] ∧
  requests (analyticsStore after_error_event) = [].
Proof.
  assert (post_analytics demo_root error_event fresh_world
          = Some (ack_received, after_error_event)) as H by (vm_compute; reflexivity).
  split; [exact H|].
  destruct (event_routed demo_root error_event fresh_world after_error_event H)
    as (id & Hid & _ & _ & _ & Herr & _).
  injection Hid as <-. destruct (Herr eq_refl) as [-> ->]. by split.
Defined.

(** ** What the dashboard reports *)

Section DashboardSteps.
Variable dirname : list string.

(** An answering dashboard, step by step. *)
Lemma dashboard_steps (w w' : world) (d : dashboard) :
  get_dashboard dirname w = Some (Summary d, w') →
  ∃ names proxies domainStats w1 w2 w3,
    readdirSync (fs w) (USERS_DIR dirname) = Some names ∧
    count_active (JsMap.values (users (analyticsStore w))) w = Ret (activeUsers d) w1 ∧
    for_each tally_proxy (JsMap.values (users (analyticsStore w))) [] w1 = Ret proxies w2 ∧
    for_each (for_each tally_domain) (JsMap.values (requests (analyticsStore w))) [] w2
      = Ret domainStats w3 ∧
    sort_events 50 (all_events (analyticsStore w)) w3 = Ret (recentEvents d) w' ∧
    totalErrors d = total_length (errors (analyticsStore w)) ∧
    proxyUsage d = top10 proxies.
Proof.
  intros H. apply handle_Summary in H. unfold dashboard_body in H.
  step H as w0 w0' H0. injection H0 as <- <-.
  destruct (readdirSync (fs w) (USERS_DIR dirname)) as [names|]; [|discriminate].
  step H as active w1 H1. step H as proxies w2 H2. step H as domainStats w3 H3.
  step H as recent w4 H4. injection H as <- <-.
  exists names, proxies, domainStats, w1, w2, w3. done.
Qed.

End DashboardSteps.

(** *** The ranking of proxies *)






(** *** The steps that only compute *)

Lemma tally_pure (key : value) (o o' : list (string * count)) (w w' : world) :
  tally key o w = Ret o' w' → w' = w.
Proof.
  unfold tally. destruct (to_string key) as [k|]; [|discriminate].
  destruct (assoc k o) as [[c|]|]; [by intros [= _ <-]..|].
  destruct (String.eqb k "__proto__"); [by intros [= _ <-]|].
  destruct (inherited k); by intros [= _ <-].
Qed.

Lemma tally_proxy_pure (u : value) (o o' : list (string * count)) (w w' : world) :
  tally_proxy u o w = Ret o' w' → w' = w.
Proof.
  unfold tally_proxy. destruct (nullish u); [discriminate|].
  destruct (truthy _); [apply tally_pure|by intros [= _ <-]].
Qed.

Lemma tally_domain_pure (p : value) (o o' : list (string * count)) (w w' : world) :
  tally_domain p o w = Ret o' w' → w' = w.
Proof.
  unfold tally_domain. destruct (nullish p); [discriminate|].
  destruct (truthy _); [apply tally_pure|by intros [= _ <-]].
Qed.

Lemma for_each_pure {A S} (step : A → S → M S) (l : list A) (o o' : S) (w w' : world) :
  (∀ x s s' v v', step x s v = Ret s' v' → v' = v) →
  for_each step l o w = Ret o' w' → w' = w.
Proof.
  intros Hstep. revert o w. induction l as [|x l IH]; intros o w; simpl.
  - by intros [= _ <-].
  - intros H. step H as o1 w1 H1. apply Hstep in H1 as ->. by eapply IH.
Qed.

Lemma sort_events_pure (n : nat) (l : list value) (r : listing) (w w' : world) :
  sort_events n l w = Ret r w' → w' = w.
Proof.
  unfold sort_events. cbv zeta. repeat case_match; try discriminate; by intros [= _ <-].
Qed.

(** *** The users counted as active *)

Lemma active_at_antitone (t t' : Z) (u : value) :
  t ≤ t' → active_at t' u = true → active_at t u = true.
Proof.
  unfold active_at. intros Ht. destruct (to_number _) as [[]| |]; try done. lia.
Qed.

Lemma count_of_le {A} (f g : A → bool) (l : list A) :
  (∀ x, f x = true → g x = true) → count_of f l ≤ count_of g l.
Proof.
  intros Hfg. unfold count_of. induction l as [|x l IH]; simpl; [done|].
  destruct (f x) eqn:E.
  - rewrite (Hfg x E). simpl. lia.
  - destruct (g x); simpl; lia.
Qed.

Lemma count_of_cons {A} (f : A → bool) (x : A) (l : list A) :
  count_of f (x :: l) = (if f x then 1 else 0) + count_of f l.
Proof. unfold count_of. simpl. destruct (f x); simpl; lia. Qed.

Lemma count_of_bounds {A} (f : A → bool) (l : list A) :
  0 ≤ count_of f l ≤ Z.of_nat (length l).
Proof.
  induction l as [|x l IH]; [done|]. rewrite count_of_cons. simpl length.
  destruct (f x); lia.
Qed.

Lemma is_active_at (u : value) (a : bool) (w w' : world) :
  is_active u w = Ret a w' →
  a = active_at (clock w') u ∧ clock w' = clock w + hd 0 (ticks w) ∧ ticks w' = tl (ticks w).
Proof.
  unfold is_active. intros H. step H as t w1 H1.
  apply now_Ret in H1 as (Ht & _ & _ & Hc & Hts). rewrite <- Hc in Ht. subst t.
  destruct (nullish u); [discriminate|]. unfold active_at.
  destruct (to_number _) as [[]| |]; try discriminate; injection H as <- <-; by rewrite Hts.
Qed.

Lemma count_active_bounds (us : list value) (n : Z) (w w' : world) :
  Forall (λ d, 0 ≤ d) (ticks w) →
  count_active us w = Ret n w' →
  clock w ≤ clock w' ∧
  count_of (active_at (clock w')) us ≤ n ≤ count_of (active_at (clock w)) us.
Proof.
  revert n w. induction us as [|u us IH]; intros n w Hticks; simpl.
  - intros [= <- <-]. unfold count_of. simpl. lia.
  - intros H. step H as a w1 H1. step H as m w2 H2. injection H as <- <-.
    apply is_active_at in H1 as (-> & Hc1 & Ht1).
    pose proof (hd_nonneg _ Hticks) as Hhd.
    apply IH in H2 as (Hc2 & Hlo & Hhi); [|rewrite Ht1; by apply tl_nonneg].
    split; [lia|]. rewrite !count_of_cons.
    assert (clock w ≤ clock w1) as Hc01 by lia.
    pose proof (count_of_le (active_at (clock w1)) (active_at (clock w)) us
                  (λ x, active_at_antitone _ _ x Hc01)) as Hmono.
    pose proof (active_at_antitone (clock w1) (clock w2) u Hc2) as Hu2.
    pose proof (active_at_antitone (clock w) (clock w1) u Hc01) as Hu1.
    destruct (active_at (clock w1) u) eqn:E1.
    + rewrite (Hu1 eq_refl). destruct (active_at (clock w2) u); lia.
    + destruct (active_at (clock w2) u) eqn:E2; [by discriminate (Hu2 eq_refl)|].
      destruct (active_at (clock w) u); lia.
Qed.

(** With a clock that does not run backwards, the [activeUsers] of the
    dashboard lies between the number of users in the users map whose
    [lastActive] is less than 24 hours before the clock at the end of the
    call, and the number of those whose [lastActive] is less than 24 hours
    before the clock at its start (the clock is read once for every user); a
    user whose [lastActive] is not a number is not counted.  It never exceeds
    the number of users in the map. *)
Theorem active_users_bounds (dirname : list string) (w w' : world) (d : dashboard) :
  get_dashboard dirname w = Some (Summary d, w') →
  Forall (λ t, 0 ≤ t) (ticks w) →
  let us := JsMap.values (users (analyticsStore w)) in
  count_of (active_at (clock w')) us ≤ activeUsers d ≤ count_of (active_at (clock w)) us ∧
  activeUsers d ≤ Z.of_nat (length (users (analyticsStore w))).
Proof.
  intros H Hticks us. apply dashboard_steps in H
    as (names & o & ds & w1 & w2 & w3 & _ & Hactive & Hp & Hd & Hr & _).
  apply (for_each_pure _ _ _ _ _ _ tally_proxy_pure) in Hp as ->.
  apply for_each_pure in Hd as ->;
    [|intros x s s' v v'; apply for_each_pure, tally_domain_pure].
  apply sort_events_pure in Hr as ->.
  apply count_active_bounds in Hactive as (_ & Hlo & Hhi); [|done].
  split; [done|]. fold us in Hhi.
  pose proof (count_of_bounds (active_at (clock w)) us) as Hb.
  assert (length us = length (users (analyticsStore w))) as Hlen by apply length_map.
  rewrite Hlen in Hb. lia.
Qed.

Lemma active_users_bounds_witness :
  get_dashboard demo_root after_configs = Some (Summary configs_summary, configs_seen) ∧
  count_of (active_at (clock configs_seen)) (JsMap.values (users (analyticsStore after_configs)))
    ≤ activeUsers configs_summary
    ≤ count_of (active_at (clock after_configs))
        (JsMap.values (users (analyticsStore after_configs))).
Proof.
  assert (get_dashboard demo_root after_configs = Some (Summary configs_summary, configs_seen))
    as H by (vm_compute; reflexivity).
  split; [exact H|].
  refine (proj1 (active_users_bounds demo_root after_configs configs_seen configs_summary H _)).
  vm_compute. repeat (apply List.Forall_cons; [discriminate|]). apply List.Forall_nil.
Defined.

(** ** The records of the users map *)

#[export] Instance stamps_kept_invariant : Invariant stamps_kept.
Proof.
  split.
  - intros w H. exact H.
  - intros w1 w2 w3 H1 H2 H. by apply H2, H1.
  - intros w t ts H. exact H.
Qed.







Section Stamped.
Variable dirname : list string.








(** *** The dashboard on stamped users *)








End Stamped.



(** ** A payload the dashboard cannot read *)

Lemma dashboard_answer (dirname : list string) (w w' : world) (r : response) :
  get_dashboard dirname w = Some (r, w') → (∃ d, r = Summary d) ∨ (∃ e, r = ServerError e).
Proof.
  unfold get_dashboard, handle.
  destruct (dashboard_body dirname w) as [r' v|e v|] eqn:E; [| |done]; intros [= <- <-].
  - left. unfold dashboard_body in E. step E as v0 v1 H0.
    destruct (readdirSync _ _); [|discriminate].
    step E as a1 v2 H1. step E as a2 v3 H2. step E as a3 v4 H3. step E as a4 v5 H4.
    injection E as <- _. by eexists.
  - right. by eexists.
Qed.

Lemma tally_domains_read (ps : list value) (o o' : list (string * count)) (w w' : world) :
  for_each tally_domain ps o w = Ret o' w' → Forall (λ p, nullish p = false) ps.
Proof.
  revert o w. induction ps as [|p ps IH]; intros o w; simpl; [constructor|].
  intros H. step H as o1 w1 H1. constructor; [|by eapply IH].
  unfold tally_domain in H1. by destruct (nullish p).
Qed.

Lemma get_values {A} (id : string) (x : A) (m : JsMap.t A) :
  JsMap.get id m = Some x → x ∈ JsMap.values m.
Proof.
  intros H. apply assoc_elem_of in H. unfold JsMap.values.
  change (map snd m) with (snd <$> m). apply list_elem_of_fmap. by exists (id, x).
Qed.

Lemma elem_of_concat {A} (x : A) (l : list A) (ls : list (list A)) :
  l ∈ ls → x ∈ l → x ∈ List.concat ls.
Proof.
  induction ls as [|l' ls IH]; simpl; [by intros ?%elem_of_nil|].
  intros [->|Hin]%elem_of_cons Hx; apply elem_of_app; [by left|right; by apply IH].
Qed.

(** Once a client's in-memory requests hold a payload that is [null] or
    [undefined] -- as after an acknowledged analytics event of type "request"
    that carries no data -- GET /api/dashboard never answers with its summary
    again, whatever calls follow, until the process restarts: every answer is
    a 500. *)
Theorem unreadable_payload_blocks_dashboard (dirname : list string) (cs : list call)
    (id : string) (l : list value) (p : value) (w w' w'' : world)
    (rs : list response) (r : response) :
  JsMap.get id (requests (analyticsStore w)) = Some l →
  p ∈ l →
  nullish p = true →
  run dirname (Http <$> cs) w = Some (rs, w') →
  get_dashboard dirname w' = Some (r, w'') →
  ∃ e, r = ServerError e.
Proof.
  intros Hl Hp Hnull Hrun Hdash.
  destruct (dashboard_answer _ _ _ _ Hdash) as [[d ->]|He]; [|done].
  apply run_memory_grows in Hrun as (Hreq & _).
  destruct (Hreq id l Hl) as [l' Hl'].
  apply dashboard_inv in Hdash as (names & w1 & w2 & o & _ & _ & _ & _ & Htally & _).
  rewrite for_each_concat in Htally. apply tally_domains_read in Htally.
  rewrite Forall_forall in Htally.
  assert (p ∈ List.concat (JsMap.values (requests (analyticsStore w')))) as Hin.
  { apply (elem_of_concat _ (l ++ l')); [by eapply get_values|].
    apply elem_of_app. by left. }
  rewrite (Htally p Hin) in Hnull. discriminate.
Qed.

Lemma unreadable_payload_blocks_dashboard_witness :
  run demo_root (Http <$> [stats_of "ext1" "example.com"; GetDashboard]) after_bare_event
    = Some ([ack; ServerError TypeError],
            world_after (run demo_root [Http (stats_of "ext1" "example.com")] after_bare_event)) ∧
  ∃ e, ServerError TypeError = ServerError e.
Proof.
  assert (run demo_root (Http <$> [stats_of "ext1" "example.com"]) after_bare_event
          = Some ([ack], world_after (run demo_root [Http (stats_of "ext1" "example.com")]
                                        after_bare_event))) as Hrun
    by (vm_compute; reflexivity).
  split; [vm_compute; reflexivity|].
  refine (unreadable_payload_blocks_dashboard demo_root [stats_of "ext1" "example.com"]
            "ext1" [VUndef] VUndef after_bare_event _ _ _ _ _ _ eq_refl Hrun _).
  - vm_compute. reflexivity.
  - apply list_elem_of_singleton. reflexivity.
  - vm_compute. reflexivity.
Defined.

(** ** The per-user lookup *)

Lemma sort_events_bound (n : nat) (l : list value) (r : listing) (w w' : world) :
  sort_events n l w = Ret r w' →
  match r with
  | Listed l' => (length l' ≤ n)%nat
  | EngineListed m _ => m = n
  end.
Proof.
  unfold sort_events. cbv zeta.
  repeat case_match; try discriminate; intros [= <- _]; rewrite ?length_take; (done || lia).
Qed.

(** GET /api/user/:extensionId changes neither the files nor the aggregator.
    It answers 404 exactly when the client has no user file -- also when the
    client has logs, a Stats Record or requests in memory -- and otherwise,
    unless reading fails, with the record in that file, at most 100 log
    entries, and the client's in-memory requests and errors in full (the
    empty list for a client the process has not heard from, as after a
    restart). *)
Theorem user_lookup (dirname : list string) (id : string) (w w' : world) (r : lookup) :
  get_user dirname id w = Some (r, w') →
  untouched w w' ∧
  (r = NotFound ↔ existsSync (fs w) (user_file dirname id) = false) ∧
  (∀ user logs rs es, r = Found user logs rs es →
     readFileSync (fs w) (user_file dirname id) = Some user ∧
     rs = default [] (JsMap.get id (requests (analyticsStore w))) ∧
     es = default [] (JsMap.get id (errors (analyticsStore w))) ∧
     match logs with
     | Listed l => (length l ≤ 100)%nat
     | EngineListed n _ => n = 100%nat
     end).
Proof.
  unfold get_user. intros H.
  pose proof (user_untouched dirname id w) as Hkeep.
  assert (untouched w w') as Hun.
  { destruct (user_body dirname id w); [| |done]; by injection H as _ <-. }
  split; [exact Hun|]. clear Hkeep.
  unfold user_body in H. fold (user_file dirname id) in H.
  unfold bind at 1 in H. cbv beta iota in H.
  destruct (existsSync (fs w) (user_file dirname id)) eqn:Hex; simpl in H.
  2: { injection H as <- <-. split; [done|]. discriminate. }
  destruct (readFileSync (fs w) (user_file dirname id)) as [userData|] eqn:Hread.
  2: { injection H as <- <-. split; [split; discriminate|]. discriminate. }
  match type of H with
  | match ?m w with _ => _ end = _ => destruct (m w) as [r' v|e v|] eqn:E
  end; [| |done].
  2: { injection H as <- <-. split; [split; discriminate|]. discriminate. }
  injection H as <- <-.
  step E as logs v1 H1. step E as sorted v2 H2. step E as s v3 H3.
  injection H3 as <- <-. injection E as <- <-.
  apply sort_events_bound in H2 as Hbound.
  split; [split; discriminate|].
  intros user logs' rs es [= <- <- <- <-].
  destruct Hun as [_ ->]. done.
Qed.

Lemma user_lookup_witness :
  get_user demo_root "ext1" after_restart
    = Some (Found (VObj [("lastActive", VNum 1700000000005);
                         ("proxyConfig", VObj [("host", VStr "proxy-a.example")]);
                         ("domains", VArr []); ("ip", VStr "203.0.113.7");
                         ("userAgent", VStr "ProxyMaster/1.0")])
              (Listed []) [] [], after_restart) ∧
  untouched after_restart after_restart.
Proof.
  assert (get_user demo_root "ext1" after_restart
          = Some (Found (VObj [("lastActive", VNum 1700000000005);
                               ("proxyConfig", VObj [("host", VStr "proxy-a.example")]);
                               ("domains", VArr []); ("ip", VStr "203.0.113.7");
                               ("userAgent", VStr "ProxyMaster/1.0")])
                    (Listed []) [] [], after_restart)) as H by (vm_compute; reflexivity).
  split; [exact H|]. exact (proj1 (user_lookup _ _ _ _ _ H)).
Defined.

(** ** The start of the process *)

Lemma mkdirp_made (todo made : list string) (f f' : gmap (list string) node) :
  mkdirp f made todo = Some f' → todo ≠ [] → f' !! (made ++ todo) = Some Dir.
Proof.
  revert made f. induction todo as [|seg rest IH]; intros made f; [done|]. simpl.
  intros H _. replace (made ++ seg :: rest) with ((made ++ [seg]) ++ rest)
    by (by rewrite <- app_assoc).
  destruct (f !! (made ++ [seg])) as [[c|]|] eqn:E; [discriminate| |].
  - destruct rest as [|seg' rest'].
    + injection H as <-. by rewrite app_nil_r.
    + by apply (IH _ _ H).
  - destruct rest as [|seg' rest'].
    + injection H as <-. by rewrite app_nil_r, lookup_insert_eq.
    + by apply (IH _ _ H).
Qed.

Lemma ensure_dir_made (d : jpath) (w w' : world) (u : unit) :
  segs d ≠ [] → ensure_dir d w = Ret u w' →
  (∃ n, fs w' !! segs d = Some n) ∧
  (fs w !! segs d = None → fs w' !! segs d = Some Dir).
Proof.
  intros Hne. unfold ensure_dir, existsSync, mkdirSync.
  assert (node_at (fs w) (segs d) = fs w !! segs d) as ->
    by (unfold node_at; by destruct (segs d)).
  destruct (valid_path d); simpl; [|discriminate].
  destruct (fs w !! segs d) as [[c|]|] eqn:Ed.
  - destruct (trailing d); simpl.
    + destruct (mkdirp _ _ _) as [f|] eqn:Em; [|discriminate]. intros [= _ <-]. unfold with_fs; simpl.
      apply mkdirp_made in Em; [|done]. simpl in Em. rewrite Em. split; [eauto|done].
    + intros [= _ <-]. rewrite Ed. split; [eauto|done].
  - intros [= _ <-]. rewrite Ed. split; [eauto|done].
  - destruct (mkdirp _ _ _) as [f|] eqn:Em; [|discriminate]. intros [= _ <-]. unfold with_fs; simpl.
    apply mkdirp_made in Em; [|done]. simpl in Em. rewrite Em. split; [eauto|done].
Qed.

(** A process that starts finds, once its first statements have run, a node
    at each of [data/logs], [data/users] and [data/stats] below the directory
    of the script: a directory, created with the directories above it where
    nothing was there -- or whatever was there before, also a file, since the
    test before [mkdirSync] is one of existence.  Its aggregator is empty;
    whatever was on the disk is still there, and nothing but directories has
    been added. *)
Theorem boot_prepares (dirname : list string) (disk : gmap (list string) node) (t : Z)
    (ts : list Z) (w : world) :
  boot dirname disk t ts = Some w →
  Forall (λ p, (∃ n, fs w !! p = Some n) ∧ (disk !! p = None → fs w !! p = Some Dir))
    [dirname ++ ["data"; "logs"]; dirname ++ ["data"; "users"]; dirname ++ ["data"; "stats"]] ∧
  analyticsStore w = empty_store ∧
  (∀ p, fs w !! p = disk !! p ∨ (disk !! p = None ∧ fs w !! p = Some Dir)).
Proof.
  intros H. pose proof (boot_store dirname _ _ _ _ H) as Hstore.
  unfold boot in H. destruct (bind _ _ _) as [u w3| |] eqn:E; [|discriminate..].
  injection H as <-. step E as u1 w1 H1. step E as u2 w2 H2.
  rewrite segs_LOGS_DIR in H1. rewrite segs_USERS_DIR in H2. rewrite segs_STATS_DIR in E.
  pose proof (ensure_dir_frame _ _ _ _ H1) as F1.
  pose proof (ensure_dir_frame _ _ _ _ H2) as F2.
  pose proof (ensure_dir_frame _ _ _ _ E) as F3.
  simpl in F1.
  assert (∀ l : list string, l ≠ [] → dirname ++ l ≠ []) as Hne.
  { intros l Hl Heq. apply app_eq_nil in Heq as [_ ->]. done. }
  apply ensure_dir_made in H1 as [[n1 M1] N1]; [|by apply Hne].
  apply ensure_dir_made in H2 as [[n2 M2] N2]; [|by apply Hne].
  apply ensure_dir_made in E as [[n3 M3] N3]; [|by apply Hne].
  simpl in *.
  assert (∀ (f f' : gmap (list string) node) q n,
            (∀ q, f' !! q = f !! q ∨ (f !! q = None ∧ f' !! q = Some Dir)) →
            f !! q = Some n → f' !! q = Some n) as Hsome.
  { intros f f' q n Hf Hq. destruct (Hf q) as [->|[? _]]; congruence. }
  assert (∀ (f f' : gmap (list string) node) q,
            (∀ q, f' !! q = f !! q ∨ (f !! q = None ∧ f' !! q = Some Dir)) →
            f !! q = None → f' !! q = None ∨ f' !! q = Some Dir) as Hnone.
  { intros f f' q Hf Hq. destruct (Hf q) as [->|[_ ->]]; auto. }
  split; [|split; [done|]].
  - repeat constructor.
    + exists n1. eauto.
    + intros Hd. eauto.
    + exists n2. eauto.
    + intros Hd. destruct (Hnone _ _ _ F1 Hd) as [Hq|Hq]; eauto.
    + eauto.
    + intros Hd. destruct (Hnone _ _ _ F1 Hd) as [Hq|Hq];
        [destruct (Hnone _ _ _ F2 Hq) as [Hq'|Hq']|]; eauto.
  - intros p. destruct (F1 p) as [Hp1|[Hp1 Hp1']].
    + destruct (F2 p) as [Hp2|[Hp2 Hp2']].
      * destruct (F3 p) as [Hp3|[Hp3 Hp3']]; [left; congruence|].
        right. split; [congruence|done].
      * right. split; [congruence|]. eauto.
    + right. split; [done|]. eauto.
Qed.

Lemma boot_prepares_witness :
  boot demo_root ∅ 1700000000000 demo_ticks = Some fresh_world ∧
  fs fresh_world !! ["srv"; "app"; "data"; "users"] = Some Dir ∧
  analyticsStore fresh_world = empty_store.
Proof.
  assert (boot demo_root ∅ 1700000000000 demo_ticks = Some fresh_world) as Hb
    by (vm_compute; reflexivity).
  destruct (boot_prepares _ _ _ _ _ Hb) as (Hdirs & Hstore & _).
  split; [exact Hb|]. split; [|exact Hstore].
  apply Forall_cons in Hdirs as [_ Hdirs]. apply Forall_cons in Hdirs as [[_ Hu] _].
  apply Hu. reflexivity.
Defined.
